(** * Strava Gear Wear Monitor: the reconciliation core of
      [strava_gear_monitor.py], embedded and verified.

    The development follows the Python module function by function:
    the Window Selector ([_get_activities_between_dates]), the Usage
    Aggregator ([analyze_gear_usage]), the Maintenance Ledger
    ([record_maintenance], [delete_maintenance_record],
    [get_maintenance_history]), the Service Interval Tracker
    ([add_service_interval], the next-due computation of
    [print_service_intervals] / [display_service_intervals]) and the
    Component Lifecycle Manager ([add_component], [swap_component]).

    Modelling conventions.
    - A Python call that raises is [None]; one that returns [v] is
      [Some v] (the option monad of stdpp, [x ← e; k]).  A [try] /
      [except Exception] block is a [match] on that option.
    - The attributes of [StravaGearMonitor] that the core mutates are the
      fields of the record [Monitor]; every method takes the monitor and
      returns the monitor it leaves behind.  What a method reads from the
      outside world ([datetime.now()], the list [get_all_activities()]
      fetched from the API, [time.time()]) is an explicit argument.
    - Python numbers ([int] and [float] distances, prices, mileages) are
      rationals [Q]: a finite [float] is the rational it denotes.  The
      sums of the ledger and of the aggregator are exact; where the
      rounding of [float] decides a property it is modelled: the
      aggregator is given a second time over the numbers of its totals
      ([analyze_gear_usage_of]), with the floats as one instance
      ([analyze_gear_usage_binary64]), and the next-due values are
      computed as floats are ([float_add], [timedelta_weeks]).
    - A [datetime] is naive or timezone-aware and carries its instant in
      microseconds; ordering a naive against an aware one raises
      [TypeError], so the comparisons are partial.  The year range of
      [datetime] is applied where a date is computed ([dt_add]), on the
      wall clock; the offset of the wall clock of an aware datetime is a
      parameter there.
    - [datetime.fromisoformat] is a parameter of the development; the
      concrete instance [IsoBasic.fromisoformat] of the examples parses
      the fragment [YYYY-MM-DDTHH:MM:SS] with an optional [+00:00].
    - The JSON files are not modelled: every [_save_*] method catches
      its own exceptions and leaves the attributes as they are. *)

From Stdlib Require Import ZArith QArith Qabs Qpower List String Ascii.
From Stdlib Require Import Permutation.
From Stdlib Require Import Lia Lqa.
From stdpp Require Import base option list gmap strings pretty.
Close Scope Q_scope.

Local Open Scope Z_scope.

(** ** Python values *)

(** [datetime]: [Naive us] has no [tzinfo]; [Aware us] has one, and [us]
    is then the UTC instant (aware datetimes compare by instant). *)
Inductive datetime : Type :=
  | Naive (us : Z)
  | Aware (us : Z).

#[global] Instance datetime_eq_dec : EqDecision datetime.
Proof. solve_decision. Defined.

(** Ordering comparisons of [datetime]: [None] is the [TypeError] raised
    when exactly one operand is aware. *)
Definition dt_compare (a b : datetime) : option comparison :=
  match a, b with
  | Naive x, Naive y => Some (x ?= y)
  | Aware x, Aware y => Some (x ?= y)
  | _, _ => None
  end.

Definition dt_lt (a b : datetime) : option bool :=
  c ← dt_compare a b; Some (match c with Lt => true | _ => false end).

Definition dt_gt (a b : datetime) : option bool :=
  c ← dt_compare a b; Some (match c with Gt => true | _ => false end).

Definition dt_le (a b : datetime) : option bool :=
  c ← dt_compare a b; Some (match c with Gt => false | _ => true end).

Definition dt_ge (a b : datetime) : option bool :=
  c ← dt_compare a b; Some (match c with Lt => false | _ => true end).

(** [bool(s)] of an optional string, as in [if not gear_id] and
    [if item]: [None] and the empty string are falsy. *)
Definition truthy (o : option string) : option string :=
  match o with
  | Some (String c s) => Some (String c s)
  | _ => None
  end.

(** [s.replace('Z', '+00:00')]. *)
Fixpoint replace_Z (s : string) : string :=
  match s with
  | EmptyString => EmptyString
  | String c r =>
      if Ascii.eqb c "Z"%char then String.append "+00:00" (replace_Z r)
      else String c (replace_Z r)
  end.

(** [str.lower()] on ASCII letters (other characters are kept). *)
Definition lower_ascii (c : ascii) : ascii :=
  let n := nat_of_ascii c in
  if ((65 <=? n) && (n <=? 90))%nat then ascii_of_nat (n + 32) else c.

Fixpoint lower (s : string) : string :=
  match s with
  | EmptyString => EmptyString
  | String c r => String (lower_ascii c) (lower r)
  end.

(** Rounding to the nearest integer, ties to even. *)
Definition round_half_even (q : Q) : Z :=
  let n := Qnum q in
  let d := Z.pos (Qden q) in
  let f := n / d in
  let r := n mod d in
  match 2 * r ?= d with
  | Lt => f
  | Gt => f + 1
  | Eq => if Z.even f then f else f + 1
  end.

(** *** Floats

    A finite [float] is the rational it denotes.  An operation on
    floats is the exact operation followed by the rounding of IEEE 754
    binary64: to the nearest number with 53 significant bits and an
    exponent of at least [-1074], ties to even, and to an infinity from
    [2^1024] on. *)

(** [2^k]. *)
Definition Qpow2 (k : Z) : Q :=
  if 0 <=? k then inject_Z (2 ^ k) else 1 # Z.to_pos (2 ^ (- k)).

(** The binary exponent of [x ≠ 0]: [2^e <= |x| < 2^(e+1)]. *)
Definition Qlog2 (x : Q) : Z :=
  let a := Z.abs (Qnum x) in
  let k := Z.log2 a - Z.log2 (Z.pos (Qden x)) in
  if Qle_bool (Qpow2 k) (a # Qden x) then k else k - 1.

(** The unit in the last place of the floats around [x]. *)
Definition ulp64 (x : Q) : Q := Qpow2 (Z.max (Qlog2 x - 52) (-1074)).

(** The rounding, before the test for overflow. *)
Definition nearest64 (x : Q) : Q :=
  if Qnum x =? 0 then 0%Q
  else Qred (inject_Z (round_half_even (x / ulp64 x)) * ulp64 x).

(** The result of an operation on finite floats: a finite float or an
    infinity. *)
Inductive binary64 : Type :=
  | F64 (value : Q)
  | F64_inf (negative : bool).

Definition round64 (x : Q) : binary64 :=
  let r := nearest64 x in
  if Qle_bool (Qpow2 1024) r then F64_inf false
  else if Qle_bool r (- Qpow2 1024) then F64_inf true
  else F64 r.

(** [x + y] on two floats; an [int] operand below [2^53] converts to
    its float exactly. *)
Definition float_add (x y : Q) : binary64 := round64 (x + y).

(** *** timedelta and datetime arithmetic *)

Definition week_us : Z := 604800000000.
Definition day_us : Z := 86400000000.

(** The microseconds of [timedelta(weeks=w)], as the constructor sums
    them.  The whole weeks are multiplied exactly; the fractional part,
    if any, is multiplied by the float [604800000000.0], and what that
    product leaves after the decimal point is rounded half to even
    against the sum.  For an [int], and for a float without fractional
    part, this is the exact product. *)
Definition timedelta_weeks_us (weeks : Q) : Z :=
  let intpart := Z.quot (Qnum weeks) (Z.pos (Qden weeks)) in
  let fracpart := (weeks - inject_Z intpart)%Q in
  let x := intpart * week_us in
  let dnum := nearest64 (inject_Z week_us * fracpart) in
  round_half_even (inject_Z x + dnum).

(** [timedelta(weeks=w)] in microseconds; [None] is the [OverflowError]
    of a duration of more than 999999999 days. *)
Definition timedelta_weeks (weeks : Q) : option Z :=
  let us := timedelta_weeks_us weeks in
  let days := us / day_us in
  if (-999999999 <=? days) && (days <=? 999999999) then Some us else None.

(** [datetime.min] and [datetime.max] on the wall clock, in microseconds
    from 1970-01-01T00:00:00: 0001-01-01T00:00:00 and
    9999-12-31T23:59:59.999999. *)
Definition min_us : Z := -62135596800000000.
Definition max_us : Z := 253402300799999999.

(** The reading of the wall clock of a datetime.  [utcoffset d] is
    [d.utcoffset()] in microseconds, which the instant of an aware
    datetime does not tell; the aware datetimes of the program have a
    fixed offset ([datetime.now().astimezone()], [fromisoformat]). *)
Definition wall_clock (utcoffset : datetime → Z) (d : datetime) : Z :=
  match d with
  | Naive us => us
  | Aware us => us + utcoffset d
  end.

(** [d + timedelta(microseconds=delta_us)]: the [tzinfo] is kept, and
    the sum is made on the wall clock; [None] is the [OverflowError] of
    a date before year 1 or after year 9999. *)
Definition dt_add (utcoffset : datetime → Z) (d : datetime) (delta_us : Z)
    : option datetime :=
  let wall := wall_clock utcoffset d + delta_us in
  if (min_us <=? wall) && (wall <=? max_us) then
    Some match d with
         | Naive us => Naive (us + delta_us)
         | Aware us => Aware (us + delta_us)
         end
  else None.

(** ** Data classes *)

(** An activity dictionary of the API.  [a_gear_id] and [a_sport_type]
    are read with [.get]: [None] is a missing key or [null].
    [a_distance] is read with [.get('distance', 0)]: [None] is a missing
    key, and a distance that is present is a number, as the API gives
    it.  [a_start_date] is read with [activity['start_date']]: [None]
    is a missing key or [null], both of which raise. *)
Record Activity : Type := {
  a_id : Z;
  a_gear_id : option string;
  a_sport_type : option string;
  a_distance : option Q;
  a_start_date : option string
}.

Inductive MaintenanceType : Type :=
  | WASH
  | TIRE_PRESSURE
  | LUBE.

#[global] Instance MaintenanceType_eq_dec : EqDecision MaintenanceType.
Proof. solve_decision. Defined.

Record MaintenanceRecord : Type := {
  mr_gear_id : string;
  mr_maintenance_type : MaintenanceType;
  mr_date : datetime;
  mr_notes : option string;
  mr_distance_at_maintenance : Q;
  mr_activities_since_last_maintenance : list Activity
}.

Record GearUsage : Type := {
  gu_gear_id : string;
  gu_sport_types : gset string;
  gu_total_distance_m : Q;
  gu_total_distance_km : Q;
  gu_activities_count : Z;
  gu_first_activity_date : option datetime;
  gu_last_activity_date : option datetime;
  gu_maintenance_history : list MaintenanceRecord
}.

Record ServiceInterval : Type := {
  si_gear_id : string;
  si_item : string;
  si_interval_type : string;
  si_interval_value : Q;
  si_action : string;
  si_last_service_date : option datetime;
  si_last_service_distance : option Q
}.

(** [Component.status]: [__post_init__] admits the three literals only,
    and the code assigns no other. *)
Inductive Status : Type :=
  | active
  | in_inventory
  | retired.

#[global] Instance Status_eq_dec : EqDecision Status.
Proof. solve_decision. Defined.

Record Component : Type := {
  c_id : string;
  c_name : string;
  c_brand : string;
  c_model : string;
  c_installation_date : datetime;
  c_gear_id : string;
  c_status : Status;
  c_notes : option string;
  c_purchase_date : option datetime;
  c_purchase_price : option Q;
  c_mileage_at_installation : Q;
  c_current_mileage : Q
}.

Record ComponentSwap : Type := {
  cs_date : datetime;
  cs_gear_id : string;
  cs_component_id : string;
  cs_old_component_id : option string;
  cs_action : string;
  cs_mileage : Q;
  cs_notes : option string
}.

(** The mutable attributes of [StravaGearMonitor]. *)
Record Monitor : Type := {
  maintenance_records : gmap string (list MaintenanceRecord);
  service_intervals : gmap string (list ServiceInterval);
  components : gmap string Component;
  component_swaps : list ComponentSwap
}.

Definition with_maintenance_records (st : Monitor)
    (m : gmap string (list MaintenanceRecord)) : Monitor :=
  {| maintenance_records := m;
     service_intervals := service_intervals st;
     components := components st;
     component_swaps := component_swaps st |}.

Definition with_service_intervals (st : Monitor)
    (m : gmap string (list ServiceInterval)) : Monitor :=
  {| maintenance_records := maintenance_records st;
     service_intervals := m;
     components := components st;
     component_swaps := component_swaps st |}.

Definition with_components (st : Monitor) (m : gmap string Component)
    (swaps : list ComponentSwap) : Monitor :=
  {| maintenance_records := maintenance_records st;
     service_intervals := service_intervals st;
     components := m;
     component_swaps := swaps |}.

(** ** MaintenanceRecord.calculate_distance *)

(** [activity.get('distance', 0)]. *)
Definition get_distance (activity : Activity) : Q :=
  default 0%Q (a_distance activity).

(** The builtin [sum]: a left fold of [+] from [0]. *)
Definition py_sum (l : list Q) : Q := fold_left Qplus l 0%Q.

Definition calculate_distance (self : MaintenanceRecord) : Q :=
  Qdiv (py_sum (map get_distance (mr_activities_since_last_maintenance self)))
       1000.

(** ** Builtins over dated records *)

(** [max(l, key=lambda x: x.date)] after its first element: the running
    maximum is replaced only by a strictly greater key, so the first of
    several maximal elements is returned. *)
Fixpoint max_by_date_from {A : Type} (key : A → datetime) (best : A)
    (l : list A) : option A :=
  match l with
  | [] => Some best
  | x :: r =>
      b ← dt_gt (key x) (key best);
      max_by_date_from key (if b : bool then x else best) r
  end.

(** [max] of an empty list raises [ValueError]. *)
Definition max_by_date {A : Type} (key : A → datetime) (l : list A)
    : option A :=
  match l with
  | [] => None
  | x :: r => max_by_date_from key x r
  end.

(** [sorted(l, key=lambda x: x.date)]: a stable sort that compares keys
    with [<] only, here by insertion.  It raises as soon as a naive key
    meets an aware one, which any comparison sort of a list holding both
    must do. *)
Fixpoint insert_by_date {A : Type} (key : A → datetime) (x : A)
    (s : list A) : option (list A) :=
  match s with
  | [] => Some [x]
  | y :: r =>
      b ← dt_lt (key y) (key x);
      if b : bool then r' ← insert_by_date key x r; Some (y :: r')
      else Some (x :: y :: r)
  end.

Fixpoint sorted_by_date {A : Type} (key : A → datetime) (l : list A)
    : option (list A) :=
  match l with
  | [] => Some []
  | x :: r => s ← sorted_by_date key r; insert_by_date key x s
  end.

(** [sorted(l, key=lambda x: x.item)]: strings are totally ordered. *)
Fixpoint insert_by_item (x : ServiceInterval) (s : list ServiceInterval)
    : list ServiceInterval :=
  match s with
  | [] => [x]
  | y :: r =>
      if String.ltb (si_item y) (si_item x) then y :: insert_by_item x r
      else x :: y :: r
  end.

Definition sorted_by_item (l : list ServiceInterval) : list ServiceInterval :=
  foldr insert_by_item [] l.

(** [r.maintenance_type == item] in [get_maintenance_history]: the left
    operand is a member of the [Enum] class [MaintenanceType], the right
    one a [str].  [Enum] members compare by identity, and a string is
    never a member, so the comparison is [False] for every pair. *)
Definition maintenance_type_eq_str (t : MaintenanceType) (item : string)
    : bool := false.

Section Core.

(** [datetime.fromisoformat]; [None] is its [ValueError]. *)
Variable fromisoformat : string → option datetime.

(** [datetime.fromisoformat(activity['start_date'].replace('Z',
    '+00:00'))]; a missing key raises [KeyError], a [null] value
    [AttributeError]. *)
Definition activity_date (activity : Activity) : option datetime :=
  s ← a_start_date activity; fromisoformat (replace_Z s).

(** *** Window Selector *)

(** The range test of the loop body: the second comparison is made
    only when the first one holds. *)
Definition in_date_range (start_date : option datetime)
    (end_date : datetime) (d : datetime) : option bool :=
  b ← match start_date with
      | None => Some true
      | Some s => dt_ge d s
      end;
  if b : bool then dt_le d end_date else Some false.

(** One iteration of the loop: any exception of the [try] body skips
    the activity.  The [logger] calls only read: they format the date
    and the distance, a number or the default [0], and change
    nothing. *)
Definition window_step (start_date : option datetime)
    (end_date : datetime) (filtered_activities : list Activity)
    (activity : Activity) : list Activity :=
  match d ← activity_date activity; in_date_range start_date end_date d with
  | Some true => filtered_activities ++ [activity]
  | Some false => filtered_activities
  | None => filtered_activities
  end.

Definition _get_activities_between_dates (activities : list Activity)
    (start_date : option datetime) (end_date : datetime)
    : list Activity :=
  fold_left (window_step start_date end_date) activities [].

(** *** Usage Aggregator *)

(** [GearUsage(gear_id=gear_id, sport_types=set(), total_distance_m=0,
    total_distance_km=0, activities_count=0, maintenance_history=h)]. *)
Definition new_usage (gear_id : string) (h : list MaintenanceRecord)
    : GearUsage :=
  {| gu_gear_id := gear_id;
     gu_sport_types := ∅;
     gu_total_distance_m := 0%Q;
     gu_total_distance_km := 0%Q;
     gu_activities_count := 0;
     gu_first_activity_date := None;
     gu_last_activity_date := None;
     gu_maintenance_history := h |}.

(** [if not usage.first_activity_date or activity_date <
    usage.first_activity_date: usage.first_activity_date =
    activity_date], and the same for the last date with [>]. *)
Definition update_first (first : option datetime) (d : datetime)
    : option datetime :=
  match first with
  | None => Some d
  | Some f => b ← dt_lt d f; Some (if b : bool then d else f)
  end.

Definition update_last (last : option datetime) (d : datetime)
    : option datetime :=
  match last with
  | None => Some d
  | Some l => b ← dt_gt d l; Some (if b : bool then d else l)
  end.

(** The updates of one activity on the usage of its gear.  The date is
    parsed last; when that raises, the whole call raises and the
    mutations made before are lost with the local dictionary. *)
Definition update_usage (usage : GearUsage) (activity : Activity)
    : option GearUsage :=
  let sport_types :=
    match truthy (a_sport_type activity) with
    | Some s => gu_sport_types usage ∪ {[ s ]}
    | None => gu_sport_types usage
    end in
  let total_distance_m :=
    Qplus (gu_total_distance_m usage) (get_distance activity) in
  let total_distance_km := Qdiv total_distance_m 1000 in
  let activities_count := gu_activities_count usage + 1 in
  d ← activity_date activity;
  first ← update_first (gu_first_activity_date usage) d;
  last ← update_last (gu_last_activity_date usage) d;
  Some {| gu_gear_id := gu_gear_id usage;
          gu_sport_types := sport_types;
          gu_total_distance_m := total_distance_m;
          gu_total_distance_km := total_distance_km;
          gu_activities_count := activities_count;
          gu_first_activity_date := Some first;
          gu_last_activity_date := Some last;
          gu_maintenance_history := gu_maintenance_history usage |}.

(** One iteration of the loop of [analyze_gear_usage]. *)
Definition usage_step (self : Monitor)
    (gear_usage : gmap string GearUsage) (activity : Activity)
    : option (gmap string GearUsage) :=
  match truthy (a_gear_id activity) with
  | None => Some gear_usage
  | Some gear_id =>
      let usage :=
        default
          (new_usage gear_id
             (default [] (maintenance_records self !! gear_id)))
          (gear_usage !! gear_id) in
      usage' ← update_usage usage activity;
      Some (<[gear_id := usage']> gear_usage)
  end.

Fixpoint usage_loop (self : Monitor) (activities : list Activity)
    (gear_usage : gmap string GearUsage)
    : option (gmap string GearUsage) :=
  match activities with
  | [] => Some gear_usage
  | activity :: rest =>
      gear_usage' ← usage_step self gear_usage activity;
      usage_loop self rest gear_usage'
  end.

Definition analyze_gear_usage (self : Monitor)
    (activities : list Activity) : option (gmap string GearUsage) :=
  usage_loop self activities ∅.

(** *** Maintenance Ledger *)

(** The search for the previous record of the same type in
    [record_maintenance]: [Some None] when there is none, [None] when
    [max] raises. *)
Definition previous_maintenance (self : Monitor) (gear_id : string)
    (maintenance_type : MaintenanceType)
    : option (option MaintenanceRecord) :=
  match maintenance_records self !! gear_id with
  | None => Some None
  | Some records =>
      let type_records :=
        List.filter
          (λ r, bool_decide (mr_maintenance_type r = maintenance_type))
          records in
      match type_records with
      | [] => Some None
      | _ :: _ => r ← max_by_date mr_date type_records; Some (Some r)
      end
  end.

(** [record_maintenance]; [now] is the instant of
    [datetime.now().astimezone()], [activities] the result of
    [self.get_all_activities()].  The only statement of the [try] body
    that can raise is [max]; it comes before any mutation. *)
Definition record_maintenance (self : Monitor) (now : Z)
    (activities : list Activity) (gear_id : string)
    (maintenance_type : MaintenanceType) (notes : option string)
    : bool * Monitor :=
  let current_date := Aware now in
  match previous_maintenance self gear_id maintenance_type with
  | None => (false, self)
  | Some previous =>
      let activities_since_maintenance :=
        _get_activities_between_dates activities
          (mr_date <$> previous) current_date in
      let gear_activities :=
        List.filter (λ a, bool_decide (a_gear_id a = Some gear_id))
          activities_since_maintenance in
      let record :=
        {| mr_gear_id := gear_id;
           mr_maintenance_type := maintenance_type;
           mr_date := current_date;
           mr_notes := notes;
           mr_distance_at_maintenance := 0%Q;
           mr_activities_since_last_maintenance := gear_activities |} in
      let records : list MaintenanceRecord :=
        default [] (maintenance_records self !! gear_id) in
      (true,
       with_maintenance_records self
         (<[gear_id := records ++ [record]]> (maintenance_records self)))
  end.

(** [delete_maintenance_record]; [record_index] is 1-based. *)
Definition delete_maintenance_record (self : Monitor) (gear_id : string)
    (record_index : Z) : bool * Monitor :=
  match maintenance_records self !! gear_id with
  | None => (false, self)
  | Some records =>
      if negb ((1 <=? record_index)
               && (record_index <=? Z.of_nat (length records)))
      then (false, self)
      else
        (true,
         with_maintenance_records self
           (<[gear_id := delete (Z.to_nat (record_index - 1)) records]>
              (maintenance_records self)))
  end.

(** [get_maintenance_history]. *)
Definition get_maintenance_history (self : Monitor) (gear_id : string)
    (item : option string) : option (list MaintenanceRecord) :=
  let records : list MaintenanceRecord :=
    default [] (maintenance_records self !! gear_id) in
  let records :=
    match truthy item with
    | Some i =>
        List.filter
          (λ r, maintenance_type_eq_str (mr_maintenance_type r) i) records
    | None => records
    end in
  sorted_by_date mr_date records.

(** *** Service Interval Tracker *)

Definition add_service_interval (self : Monitor) (gear_id item : string)
    (interval_type : string) (interval_value : Q) (action : string)
    : bool * Monitor :=
  match get_maintenance_history self gear_id (Some item) with
  | None => (false, self)
  | Some [] => (false, self)
  | Some (_ :: _) =>
      if negb (String.eqb interval_type "time"
               || String.eqb interval_type "distance")
      then (false, self)
      else if Qle_bool interval_value 0 then (false, self)
      else
        match
          maintenance_records ←
            get_maintenance_history self gear_id (Some item);
          max_by_date mr_date maintenance_records
        with
        | None => (false, self)
        | Some latest_record =>
            let interval :=
              {| si_gear_id := gear_id;
                 si_item := lower item;
                 si_interval_type := interval_type;
                 si_interval_value := interval_value;
                 si_action := lower action;
                 si_last_service_date := Some (mr_date latest_record);
                 si_last_service_distance :=
                   Some (calculate_distance latest_record) |} in
            let intervals : list ServiceInterval :=
              default [] (service_intervals self !! gear_id) in
            (true,
             with_service_intervals self
               (<[gear_id := intervals ++ [interval]]>
                  (service_intervals self)))
        end
  end.

(** [get_service_intervals]. *)
Definition get_service_intervals (self : Monitor) (gear_id : string)
    (item : option string) : list ServiceInterval :=
  let intervals : list ServiceInterval :=
    default [] (service_intervals self !! gear_id) in
  let intervals :=
    match truthy item with
    | Some i =>
        List.filter (λ x, String.eqb (si_item x) (lower i)) intervals
    | None => intervals
    end in
  sorted_by_item intervals.

(** *** Component Lifecycle Manager *)

(** [gear_usage.get(gear_id, GearUsage(gear_id, set(), 0, 0,
    0)).total_distance_km] over [analyze_gear_usage] of the fetched
    activities; it raises when the aggregation does. *)
Definition current_mileage_of (self : Monitor)
    (activities : list Activity) (gear_id : string) : option Q :=
  gear_usage ← analyze_gear_usage self activities;
  Some (gu_total_distance_km
          (default (new_usage gear_id []) (gear_usage !! gear_id))).

(** [add_component]; [time_s] is [int(time.time())] and [now] the
    instant of [datetime.now().astimezone()]. *)
Definition add_component (self : Monitor) (time_s now : Z)
    (activities : list Activity) (name brand model gear_id : string)
    (purchase_date : option datetime) (purchase_price : option Q)
    (notes : option string) : option string * Monitor :=
  let component_id :=
    String.append (lower brand)
      (String.append "_"
         (String.append (lower model)
            (String.append "_" (pretty time_s)))) in
  match current_mileage_of self activities gear_id with
  | None => (None, self)
  | Some current_mileage =>
      let component :=
        {| c_id := component_id;
           c_name := name;
           c_brand := brand;
           c_model := model;
           c_installation_date := Aware now;
           c_gear_id := gear_id;
           c_status := active;
           c_notes := notes;
           c_purchase_date := purchase_date;
           c_purchase_price := purchase_price;
           c_mileage_at_installation := current_mileage;
           c_current_mileage := current_mileage |} in
      let swap :=
        {| cs_date := c_installation_date component;
           cs_gear_id := gear_id;
           cs_component_id := component_id;
           cs_old_component_id := None;
           cs_action := "install";
           cs_mileage := current_mileage;
           cs_notes := Some "Initial installation" |} in
      (Some component_id,
       with_components self
         (<[component_id := component]> (components self))
         (component_swaps self ++ [swap]))
  end.

(** [swap_component]; [now_removed] and [now_installed] are the two
    readings of the clock.  The statements are kept in the order of
    the source: the old component is updated and its swap appended
    before [new_component_id] is looked at. *)
Definition swap_component (self : Monitor) (now_removed now_installed : Z)
    (activities : list Activity) (gear_id old_component_id : string)
    (new_component_id : option string) (action : string)
    (notes : option string) : bool * Monitor :=
  match components self !! old_component_id with
  | None => (false, self)
  | Some old_component =>
      if negb (String.eqb (c_gear_id old_component) gear_id)
      then (false, self)
      else
        match current_mileage_of self activities gear_id with
        | None => (false, self)
        | Some current_mileage =>
            (* Update old component *)
            let old_component' :=
              {| c_id := c_id old_component;
                 c_name := c_name old_component;
                 c_brand := c_brand old_component;
                 c_model := c_model old_component;
                 c_installation_date := c_installation_date old_component;
                 c_gear_id := c_gear_id old_component;
                 c_status :=
                   if String.eqb action "retire" then retired
                   else in_inventory;
                 c_notes := c_notes old_component;
                 c_purchase_date := c_purchase_date old_component;
                 c_purchase_price := c_purchase_price old_component;
                 c_mileage_at_installation :=
                   c_mileage_at_installation old_component;
                 c_current_mileage := current_mileage |} in
            (* Record the swap *)
            let swap :=
              {| cs_date := Aware now_removed;
                 cs_gear_id := gear_id;
                 cs_component_id := old_component_id;
                 cs_old_component_id := None;
                 cs_action := action;
                 cs_mileage := current_mileage;
                 cs_notes := notes |} in
            let self1 :=
              with_components self
                (<[old_component_id := old_component']> (components self))
                (component_swaps self ++ [swap]) in
            (* If installing a new component *)
            match truthy new_component_id with
            | None => (true, self1)
            | Some new_id =>
                match components self1 !! new_id with
                | None => (false, self1)
                | Some new_component =>
                    if negb (bool_decide
                               (c_status new_component = in_inventory))
                    then (false, self1)
                    else
                      let new_component' :=
                        {| c_id := c_id new_component;
                           c_name := c_name new_component;
                           c_brand := c_brand new_component;
                           c_model := c_model new_component;
                           c_installation_date := Aware now_installed;
                           c_gear_id := gear_id;
                           c_status := active;
                           c_notes := c_notes new_component;
                           c_purchase_date :=
                             c_purchase_date new_component;
                           c_purchase_price :=
                             c_purchase_price new_component;
                           c_mileage_at_installation := current_mileage;
                           c_current_mileage := current_mileage |} in
                      let swap' :=
                        {| cs_date := Aware now_installed;
                           cs_gear_id := gear_id;
                           cs_component_id := new_id;
                           cs_old_component_id := Some old_component_id;
                           cs_action := "install";
                           cs_mileage := current_mileage;
                           cs_notes := notes |} in
                      (true,
                       with_components self1
                         (<[new_id := new_component']> (components self1))
                         (component_swaps self1 ++ [swap']))
                end
            end
        end
  end.

End Core.

(** *** The Usage Aggregator and the numbers it adds

    [analyze_gear_usage] once more, with the two distance totals in a
    number type of their own: [zero] is the [0] of a new usage, [add] the
    [+=] of a distance and [div1000] the division by [1000].  Everything
    else is as above.  With the rationals and their exact operations
    this is the aggregator above; with [binary64] the totals are added
    as Python adds floats. *)

Record GearUsageOf (num : Type) : Type := {
  gn_gear_id : string;
  gn_sport_types : gset string;
  gn_total_distance_m : num;
  gn_total_distance_km : num;
  gn_activities_count : Z;
  gn_first_activity_date : option datetime;
  gn_last_activity_date : option datetime;
  gn_maintenance_history : list MaintenanceRecord
}.

Arguments gn_gear_id {num} _.
Arguments gn_sport_types {num} _.
Arguments gn_total_distance_m {num} _.
Arguments gn_total_distance_km {num} _.
Arguments gn_activities_count {num} _.
Arguments gn_first_activity_date {num} _.
Arguments gn_last_activity_date {num} _.
Arguments gn_maintenance_history {num} _.

Section Numbers.

Context {num : Type}.
Variable zero : num.
Variable add : num → Q → num.
Variable div1000 : num → num.

Variable fromisoformat : string → option datetime.

Definition new_usage_of (gear_id : string) (h : list MaintenanceRecord)
    : GearUsageOf num :=
  {| gn_gear_id := gear_id;
     gn_sport_types := ∅;
     gn_total_distance_m := zero;
     gn_total_distance_km := zero;
     gn_activities_count := 0;
     gn_first_activity_date := None;
     gn_last_activity_date := None;
     gn_maintenance_history := h |}.

Definition update_usage_of (usage : GearUsageOf num) (activity : Activity)
    : option (GearUsageOf num) :=
  let sport_types :=
    match truthy (a_sport_type activity) with
    | Some s => gn_sport_types usage ∪ {[ s ]}
    | None => gn_sport_types usage
    end in
  let total_distance_m :=
    add (gn_total_distance_m usage) (get_distance activity) in
  let total_distance_km := div1000 total_distance_m in
  let activities_count := gn_activities_count usage + 1 in
  d ← activity_date fromisoformat activity;
  first ← update_first (gn_first_activity_date usage) d;
  last ← update_last (gn_last_activity_date usage) d;
  Some {| gn_gear_id := gn_gear_id usage;
          gn_sport_types := sport_types;
          gn_total_distance_m := total_distance_m;
          gn_total_distance_km := total_distance_km;
          gn_activities_count := activities_count;
          gn_first_activity_date := Some first;
          gn_last_activity_date := Some last;
          gn_maintenance_history := gn_maintenance_history usage |}.

Definition usage_step_of (self : Monitor)
    (gear_usage : gmap string (GearUsageOf num)) (activity : Activity)
    : option (gmap string (GearUsageOf num)) :=
  match truthy (a_gear_id activity) with
  | None => Some gear_usage
  | Some gear_id =>
      let usage :=
        default
          (new_usage_of gear_id
             (default [] (maintenance_records self !! gear_id)))
          (gear_usage !! gear_id) in
      usage' ← update_usage_of usage activity;
      Some (<[gear_id := usage']> gear_usage)
  end.

Fixpoint usage_loop_of (self : Monitor) (activities : list Activity)
    (gear_usage : gmap string (GearUsageOf num))
    : option (gmap string (GearUsageOf num)) :=
  match activities with
  | [] => Some gear_usage
  | activity :: rest =>
      gear_usage' ← usage_step_of self gear_usage activity;
      usage_loop_of self rest gear_usage'
  end.

Definition analyze_gear_usage_of (self : Monitor)
    (activities : list Activity) : option (gmap string (GearUsageOf num)) :=
  usage_loop_of self activities ∅.

End Numbers.

(** The totals as Python computes them on floats: the running total is
    a float, or the [int] [0] before the first distance, which converts
    exactly; an infinite total stays infinite, every distance being
    finite. *)
Definition binary64_add (total : binary64) (distance : Q) : binary64 :=
  match total with
  | F64 t => round64 (t + distance)
  | F64_inf s => F64_inf s
  end.

Definition binary64_div1000 (total : binary64) : binary64 :=
  match total with
  | F64 t => round64 (t / 1000)
  | F64_inf s => F64_inf s
  end.

Definition analyze_gear_usage_binary64
    (fromisoformat : string → option datetime) (self : Monitor)
    (activities : list Activity)
    : option (gmap string (GearUsageOf binary64)) :=
  analyze_gear_usage_of (F64 0) binary64_add binary64_div1000 fromisoformat
    self activities.

(** The totals in exact arithmetic. *)
Definition exact_div1000 (total : Q) : Q := Qdiv total 1000.

(** The usage record of the exact aggregator. *)
Definition to_usage (u : GearUsageOf Q) : GearUsage :=
  {| gu_gear_id := gn_gear_id u;
     gu_sport_types := gn_sport_types u;
     gu_total_distance_m := gn_total_distance_m u;
     gu_total_distance_km := gn_total_distance_km u;
     gu_activities_count := gn_activities_count u;
     gu_first_activity_date := gn_first_activity_date u;
     gu_last_activity_date := gn_last_activity_date u;
     gu_maintenance_history := gn_maintenance_history u |}.

(** A usage with its totals mapped. *)
Definition map_totals {num num' : Type} (f : num → num')
    (u : GearUsageOf num) : GearUsageOf num' :=
  {| gn_gear_id := gn_gear_id u;
     gn_sport_types := gn_sport_types u;
     gn_total_distance_m := f (gn_total_distance_m u);
     gn_total_distance_km := f (gn_total_distance_km u);
     gn_activities_count := gn_activities_count u;
     gn_first_activity_date := gn_first_activity_date u;
     gn_last_activity_date := gn_last_activity_date u;
     gn_maintenance_history := gn_maintenance_history u |}.

(** The fields of a usage other than the two distance totals. *)
Definition usage_shape_of {num : Type} (u : GearUsageOf num)
    : string * gset string * Z * option datetime * option datetime
      * list MaintenanceRecord :=
  (gn_gear_id u, gn_sport_types u, gn_activities_count u,
   gn_first_activity_date u, gn_last_activity_date u,
   gn_maintenance_history u).

(** *** The next-due computation of the interval reports *)

Inductive NextService : Type :=
  | NextServiceDate (next_service : datetime)
  | NextServiceDistance (next_service_distance : binary64).

Section NextDue.

(** [d.utcoffset()] in microseconds, for the datetimes of the stored
    intervals. *)
Variable utcoffset : datetime → Z.

(** The body of the loop of [print_service_intervals] and of
    [display_service_intervals] after the header lines: nothing is
    computed without a [last_service_date]; [timedelta] and the sum of
    the date may raise [OverflowError]; in the other branch a [null]
    distance raises [TypeError], and two floats are added as floats. *)
Definition next_service_due (interval : ServiceInterval)
    : option (option NextService) :=
  match si_last_service_date interval with
  | None => Some None
  | Some last_service_date =>
      if String.eqb (si_interval_type interval) "time" then
        delta ← timedelta_weeks (si_interval_value interval);
        next_service ← dt_add utcoffset last_service_date delta;
        Some (Some (NextServiceDate next_service))
      else
        last_service_distance ← si_last_service_distance interval;
        Some (Some (NextServiceDistance
                      (float_add last_service_distance
                         (si_interval_value interval))))
  end.

(** The next-due values the two reports show, in the order of
    [get_service_intervals]; the monitor is only read. *)
Definition print_service_intervals (self : Monitor) (gear_id : string)
    (item : option string) : option (list (option NextService)) :=
  mapM next_service_due (get_service_intervals self gear_id item).

Definition display_service_intervals (self : Monitor) (gear_id : string)
    (item : option string) : option (list (option NextService)) :=
  mapM next_service_due (get_service_intervals self gear_id item).

End NextDue.

(** ** A concrete [fromisoformat]

    The fragment of [datetime.fromisoformat] on [YYYY-MM-DDTHH:MM:SS],
    naive, or aware with the offset [+00:00]; every other string is
    rejected here. *)
Module IsoBasic.

Definition digit (c : ascii) : option Z :=
  let n := Z.of_nat (nat_of_ascii c) in
  if (48 <=? n) && (n <=? 57) then Some (n - 48) else None.

(** Reads exactly [n] decimal digits. *)
Fixpoint digits (n : nat) (acc : Z) (s : string) : option (Z * string) :=
  match n with
  | O => Some (acc, s)
  | S n' =>
      match s with
      | EmptyString => None
      | String c r => d ← digit c; digits n' (10 * acc + d) r
      end
  end.

Definition expect (c : ascii) (s : string) : option string :=
  match s with
  | String c' r => if Ascii.eqb c c' then Some r else None
  | EmptyString => None
  end.

Definition is_leap (y : Z) : bool :=
  ((y mod 4 =? 0) && negb (y mod 100 =? 0)) || (y mod 400 =? 0).

Definition days_in_month (y m : Z) : Z :=
  if m =? 2 then (if is_leap y then 29 else 28)
  else if (m =? 4) || (m =? 6) || (m =? 9) || (m =? 11) then 30
  else 31.

(** Days from 1970-01-01 to the civil date [y-m-d]. *)
Definition days_from_civil (y m d : Z) : Z :=
  let y' := if m <=? 2 then y - 1 else y in
  let era := y' / 400 in
  let yoe := y' - era * 400 in
  let mp := (m + 9) mod 12 in
  let doy := (153 * mp + 2) / 5 + d - 1 in
  let doe := yoe * 365 + yoe / 4 - yoe / 100 + doy in
  era * 146097 + doe - 719468.

Definition fromisoformat (s : string) : option datetime :=
  '(y, s) ← digits 4 0 s;
  s ← expect "-" s;
  '(m, s) ← digits 2 0 s;
  s ← expect "-" s;
  '(d, s) ← digits 2 0 s;
  s ← expect "T" s;
  '(hh, s) ← digits 2 0 s;
  s ← expect ":" s;
  '(mm, s) ← digits 2 0 s;
  s ← expect ":" s;
  '(ss, s) ← digits 2 0 s;
  if (1 <=? y) && (1 <=? m) && (m <=? 12) && (1 <=? d)
     && (d <=? days_in_month y m) && (hh <? 24) && (mm <? 60) && (ss <? 60)
  then
    let us :=
      (((days_from_civil y m d * 24 + hh) * 60 + mm) * 60 + ss) * 1000000 in
    if String.eqb s EmptyString then Some (Naive us)
    else if String.eqb s "+00:00" then Some (Aware us)
    else None
  else None.

End IsoBasic.

(** ** The scenario of the specification

    Gear [g1] has three rides of 10000, 20000 and 5000 metres on days 1,
    3 and 5 of January 2024 and one of 15000 metres on day 8; a wash is
    recorded on day 6 and another on day 10. *)
Module Scenario.

Definition ride (id : Z) (gear : string) (metres : Q) (start : string)
    : Activity :=
  {| a_id := id;
     a_gear_id := Some gear;
     a_sport_type := Some "Ride";
     a_distance := Some metres;
     a_start_date := Some start |}.

Definition ride1 : Activity := ride 1 "g1" 10000 "2024-01-01T08:00:00Z".
Definition ride3 : Activity := ride 3 "g1" 20000 "2024-01-03T08:00:00Z".
Definition ride5 : Activity := ride 5 "g1" 5000 "2024-01-05T08:00:00Z".
Definition ride8 : Activity := ride 8 "g1" 15000 "2024-01-08T08:00:00Z".

(** A ride of another bike, and a record of the feed with a broken
    date. *)
Definition other_ride : Activity :=
  ride 4 "g2" 7000 "2024-01-04T08:00:00Z".
Definition broken_ride : Activity := ride 6 "g1" 3000 "not-a-date".

(** 2024-01-06T10:00:00Z and 2024-01-10T10:00:00Z in microseconds. *)
Definition day6 : Z := 1704535200000000.
Definition day10 : Z := 1704880800000000.

(** A ride that starts at the very instant of the first wash. *)
Definition ride_at_wash : Activity :=
  ride 7 "g1" 1000 "2024-01-06T10:00:00Z".

Definition empty_monitor : Monitor :=
  {| maintenance_records := ∅;
     service_intervals := ∅;
     components := ∅;
     component_swaps := [] |}.

Definition first_wash : MaintenanceRecord :=
  {| mr_gear_id := "g1";
     mr_maintenance_type := WASH;
     mr_date := Aware day6;
     mr_notes := None;
     mr_distance_at_maintenance := 0%Q;
     mr_activities_since_last_maintenance := [ride1; ride3; ride5] |}.

Definition washed_once : Monitor :=
  with_maintenance_records empty_monitor {[ "g1" := [first_wash] ]}.

(** The feed on day 10, and the wash recorded then. *)
Definition feed_day10 : list Activity :=
  [ride1; other_ride; ride3; ride5; ride_at_wash; ride8].

Definition second_wash : MaintenanceRecord :=
  {| mr_gear_id := "g1";
     mr_maintenance_type := WASH;
     mr_date := Aware day10;
     mr_notes := None;
     mr_distance_at_maintenance := 0%Q;
     mr_activities_since_last_maintenance := [ride_at_wash; ride8] |}.

Definition washed_twice : Monitor :=
  with_maintenance_records empty_monitor
    {[ "g1" := [first_wash; second_wash] ]}.


(** The interval of the specification's example, as it would be
    anchored to the first wash. *)
Definition chain_interval : ServiceInterval :=
  {| si_gear_id := "g1";
     si_item := "chain";
     si_interval_type := "distance";
     si_interval_value := 500%Q;
     si_action := "replace";
     si_last_service_date := Some (Aware day6);
     si_last_service_distance := Some 35%Q |}.

Definition weekly_interval : ServiceInterval :=
  {| si_gear_id := "g1";
     si_item := "chain";
     si_interval_type := "time";
     si_interval_value := 2%Q;
     si_action := "check";
     si_last_service_date := Some (Aware day6);
     si_last_service_distance := Some 35%Q |}.

(** Components of [g1]: a chain in use, a retired one, a stored one. *)
Definition component (id : string) (status : Status) (km : Q)
    : Component :=
  {| c_id := id;
     c_name := "Chain";
     c_brand := "KMC";
     c_model := "X11";
     c_installation_date := Aware day6;
     c_gear_id := "g1";
     c_status := status;
     c_notes := None;
     c_purchase_date := None;
     c_purchase_price := None;
     c_mileage_at_installation := 0%Q;
     c_current_mileage := km |}.

Definition workshop : Monitor :=
  with_components washed_once
    (<["chain_a" := component "chain_a" active 0]>
       (<["chain_b" := component "chain_b" retired 12]>
          (<["chain_c" := component "chain_c" in_inventory 5]> ∅)))
    [].


(** A ride whose start date carries no offset: it parses to a naive
    datetime. *)
Definition naive_ride : Activity := ride 9 "g1" 4000 "2024-01-07T08:00:00".

(** A chain installed on an empty monitor, retired, then removed once
    more. *)
Definition chain_installed : option string * Monitor :=
  add_component IsoBasic.fromisoformat empty_monitor 1704535200 day6
    [ride1; ride3; ride5] "Chain" "KMC" "X11" "g1" None None None.

Definition chain_retired : bool * Monitor :=
  swap_component IsoBasic.fromisoformat (snd chain_installed) day10 day10
    [ride1; ride3; ride5; ride8] "g1" "kmc_x11_1704535200" None "retire"
    None.

Definition chain_removed_again : bool * Monitor :=
  swap_component IsoBasic.fromisoformat (snd chain_retired) day10 day10
    [ride1; ride3; ride5; ride8] "g1" "kmc_x11_1704535200" None "remove"
    None.

(** Three rides of [g1] whose distances are not whole metres: the
    floats of 10000.1, 20000.2 and 5000.3, in one order of the feed and
    in the reverse order. *)
Definition decimal_ride1 : Activity :=
  ride 11 "g1" (nearest64 (100001 # 10)) "2024-01-01T08:00:00Z".
Definition decimal_ride2 : Activity :=
  ride 12 "g1" (nearest64 (200002 # 10)) "2024-01-02T08:00:00Z".
Definition decimal_ride3 : Activity :=
  ride 13 "g1" (nearest64 (50003 # 10)) "2024-01-03T08:00:00Z".

Definition decimal_feed : list Activity :=
  [decimal_ride1; decimal_ride2; decimal_ride3].
Definition decimal_feed_reversed : list Activity :=
  [decimal_ride3; decimal_ride2; decimal_ride1].

(** [g1] with its two chain intervals. *)
Definition chain_serviced : Monitor :=
  with_service_intervals washed_once
    {[ "g1" := [weekly_interval; chain_interval] ]}.

(** An interval of a million weeks, and one of 23.72140309665592
    weeks. *)
Definition million_weeks_interval : ServiceInterval :=
  {| si_gear_id := "g1";
     si_item := "frame";
     si_interval_type := "time";
     si_interval_value := 1000000%Q;
     si_action := "check";
     si_last_service_date := Some (Aware day6);
     si_last_service_distance := Some 35%Q |}.

Definition fractional_weeks_interval : ServiceInterval :=
  {| si_gear_id := "g1";
     si_item := "tyres";
     si_interval_type := "time";
     si_interval_value := nearest64 (2372140309665592 # 100000000000000);
     si_action := "check";
     si_last_service_date := Some (Aware day6);
     si_last_service_distance := Some 35%Q |}.

End Scenario.

(** ** The properties, stated in the words of the specification *)

(** An optional comparison holds when it returns [True]; one that raises
    does not hold. *)
Definition holds (o : option bool) : bool :=
  match o with
  | Some true => true
  | _ => false
  end.

Section Specification.

Variable fromisoformat : string → option datetime.

(** Window correctness: the start date parses to [d], and
    [(s is null or d >= s) and d <= e]. *)
Definition in_window (s : option datetime) (e : datetime)
    (activity : Activity) : bool :=
  match activity_date fromisoformat activity with
  | None => false
  | Some d =>
      match s with
      | None => true
      | Some s0 => holds (dt_ge d s0)
      end
      && holds (dt_le d e)
  end.

(** The window [(s, e]] of the specification: exclusive of [s],
    inclusive of [e]. *)
Definition in_half_open_window (s e : datetime) (activity : Activity)
    : bool :=
  match activity_date fromisoformat activity with
  | None => false
  | Some d => holds (dt_gt d s) && holds (dt_le d e)
  end.

(** The activities of one gear. *)
Definition of_gear (gear_id : string) (activity : Activity) : bool :=
  bool_decide (a_gear_id activity = Some gear_id).

(** An activity the Usage Aggregator does not skip. *)
Definition gear_bearing (activity : Activity) : bool :=
  match truthy (a_gear_id activity) with
  | Some _ => true
  | None => false
  end.

End Specification.

(** *** The next-due values, in the words of the specification *)

(** The instant of a datetime, in microseconds. *)
Definition instant (d : datetime) : Z :=
  match d with
  | Naive us => us
  | Aware us => us
  end.

(** Both naive, or both aware. *)
Definition same_zone (d d' : datetime) : Prop :=
  match d, d' with
  | Naive _, Naive _ => True
  | Aware _, Aware _ => True
  | _, _ => False
  end.

Section NextDueSpecification.

Variable utcoffset : datetime → Z.

(** An interval whose next-due value can be computed.  An interval of
    type [time]: its last service date is a date of the calendar, and
    so is that date [interval_value] weeks later, a microsecond away
    from either end of the calendar.  Another interval: it has a last
    service distance. *)
Definition due_in_range (interval : ServiceInterval) : Prop :=
  match si_last_service_date interval with
  | None => True
  | Some d =>
      if String.eqb (si_interval_type interval) "time" then
        min_us ≤ wall_clock utcoffset d ≤ max_us
        ∧ (inject_Z (min_us + 1)
           <= inject_Z (wall_clock utcoffset d)
              + si_interval_value interval * inject_Z week_us)%Q
        ∧ (inject_Z (wall_clock utcoffset d)
           + si_interval_value interval * inject_Z week_us
           <= inject_Z (max_us - 1))%Q
      else is_Some (si_last_service_distance interval)
  end.

(** [value] is the next-due value of [interval].  Without a last
    service date there is none.  For the type [time] it is a date in
    the zone of the last service date, [interval_value] weeks after it
    to the microsecond, and exactly so for a whole number of weeks.
    Otherwise it is the last service distance plus [interval_value],
    as a float: within one part in [2^53] of the sum (and [2^-1075]),
    or infinite for a sum of [2^1023] or more. *)
Definition next_due_as_specified (interval : ServiceInterval)
    (value : option NextService) : Prop :=
  match si_last_service_date interval with
  | None => value = None
  | Some d =>
      if String.eqb (si_interval_type interval) "time" then
        ∃ d',
          value = Some (NextServiceDate d')
          ∧ same_zone d d'
          ∧ (Qabs (inject_Z (instant d')
                   - (inject_Z (instant d)
                      + si_interval_value interval * inject_Z week_us))
             < 1)%Q
          ∧ ∀ n : Z, si_interval_value interval = inject_Z n →
              instant d' = instant d + n * week_us
      else
        ∃ km next,
          si_last_service_distance interval = Some km
          ∧ value = Some (NextServiceDistance next)
          ∧ match next with
            | F64 x =>
                (Qabs (x - (km + si_interval_value interval))
                 <= Qabs (km + si_interval_value interval)
                    * (1 # Z.to_pos (2 ^ 53))
                    + (1 # Z.to_pos (2 ^ 1075)))%Q
            | F64_inf _ =>
                (Qpow2 1023 <= Qabs (km + si_interval_value interval))%Q
            end
  end.

End NextDueSpecification.

(** The sum of the distance fields of a snapshot, by recursion on it. *)
Fixpoint sum_distances (snapshot : list Activity) : Q :=
  match snapshot with
  | [] => 0%Q
  | activity :: rest => Qplus (get_distance activity) (sum_distances rest)
  end.

(** The records stored for a gear, in insertion order; none when the key
    is absent. *)
Definition stored (self : Monitor) (gear_id : string)
    : list MaintenanceRecord :=
  default [] (maintenance_records self !! gear_id).

(** Removing the element at 1-based position [i]. *)
Definition remove_nth1 {A : Type} (i : Z) (l : list A) : list A :=
  take (Z.to_nat (i - 1)) l ++ drop (Z.to_nat i) l.

(** The old component as [swap_component] leaves it. *)
Definition removed (old_component : Component) (action : string)
    (current_mileage : Q) : Component :=
  {| c_id := c_id old_component;
     c_name := c_name old_component;
     c_brand := c_brand old_component;
     c_model := c_model old_component;
     c_installation_date := c_installation_date old_component;
     c_gear_id := c_gear_id old_component;
     c_status :=
       if String.eqb action "retire" then retired else in_inventory;
     c_notes := c_notes old_component;
     c_purchase_date := c_purchase_date old_component;
     c_purchase_price := c_purchase_price old_component;
     c_mileage_at_installation := c_mileage_at_installation old_component;
     c_current_mileage := current_mileage |}.

(** The ledger entry of the removal. *)
Definition removal (now : Z) (gear_id old_component_id action : string)
    (current_mileage : Q) (notes : option string) : ComponentSwap :=
  {| cs_date := Aware now;
     cs_gear_id := gear_id;
     cs_component_id := old_component_id;
     cs_old_component_id := None;
     cs_action := action;
     cs_mileage := current_mileage;
     cs_notes := notes |}.

(** The fields of a usage other than the two distance totals. *)
Definition usage_shape (u : GearUsage)
    : string * gset string * Z * option datetime * option datetime
      * list MaintenanceRecord :=
  (gu_gear_id u, gu_sport_types u, gu_activities_count u,
   gu_first_activity_date u, gu_last_activity_date u,
   gu_maintenance_history u).

(** An activity with its distance key dropped. *)
Definition without_distance (a : Activity) : Activity :=
  {| a_id := a_id a;
     a_gear_id := a_gear_id a;
     a_sport_type := a_sport_type a;
     a_distance := None;
     a_start_date := a_start_date a |}.

(** ** The rest of the module *)

From Stdlib Require Import Sorted.

(** *** MaintenanceType *)

(** [MaintenanceType.get_all_types()]: a dictionary, in the order of its
    literal. *)
Definition get_all_types : list (MaintenanceType * string) :=
  [(WASH, "Washed bike");
   (TIRE_PRESSURE, "Pressured tires");
   (LUBE, "Lubed chain/components")].

(** [MaintenanceType.get_type_by_number(number)]. *)
Definition get_type_by_number (number : Z) : option MaintenanceType :=
  let types := map fst get_all_types in
  if (1 <=? number) && (number <=? Z.of_nat (length types))
  then types !! Z.to_nat (number - 1)
  else None.

(** [get_all_types()[t]], as the reports look a description up; a
    missing key raises [KeyError]. *)
Definition type_description (t : MaintenanceType) : option string :=
  snd <$> List.find (λ p, bool_decide (fst p = t)) get_all_types.

(** The members of the [Enum] as dictionary keys. *)
#[global] Instance MaintenanceType_countable : Countable MaintenanceType.
Proof.
  refine (inj_countable'
            (λ t, match t with WASH => 0 | TIRE_PRESSURE => 1 | LUBE => 2 end)%nat
            (λ n, match n with
                  | O => WASH
                  | S O => TIRE_PRESSURE
                  | _ => LUBE
                  end) _).
  now intros [].
Defined.

(** *** Fetching and filtering activities *)

(** [filter_activities_by_sport_type]. *)
Definition filter_activities_by_sport_type (activities : list Activity)
    (sport_type : string) : list Activity :=
  List.filter (λ activity, bool_decide (a_sport_type activity = Some sport_type))
    activities.

(** The loop of [get_all_activities].  [fetch page] is what one turn
    gets from the API for that page: [None] when there is no response or
    the turn raises, otherwise the decoded list.  The loop ends at the
    first page that fails or is empty and returns what it has; [fuel]
    bounds the number of turns, and [None] stands for a loop that is
    still running when it is used up. *)
Fixpoint get_all_activities_from (fetch : Z → option (list Activity))
    (fuel : nat) (page : Z) (all_activities : list Activity)
    : option (list Activity) :=
  match fuel with
  | O => None
  | S fuel' =>
      match fetch page with
      | None => Some all_activities
      | Some [] => Some all_activities
      | Some (a :: activities) =>
          get_all_activities_from fetch fuel' (page + 1)
            (all_activities ++ a :: activities)
      end
  end.

Definition get_all_activities (fetch : Z → option (list Activity))
    (fuel : nat) : option (list Activity) :=
  get_all_activities_from fetch fuel 1 [].

(** The activities of the first [n] pages, in page order. *)
Definition first_pages (fetch : Z → option (list Activity)) (n : nat)
    : list Activity :=
  concat (map (λ k, default [] (fetch (Z.of_nat k + 1))) (seq 0 n)).

(** A turn of [get_all_activities] that ends the loop: no response or an
    exception, or an empty page. *)
Definition ends_feed (page : option (list Activity)) : bool :=
  match page with
  | None | Some [] => true
  | Some (_ :: _) => false
  end.

(** *** Maintained items *)

(** [get_maintained_items]: the records of the gear grouped by type. *)
Definition get_maintained_items (self : Monitor) (gear_id : string)
    : gmap MaintenanceType (list MaintenanceRecord) :=
  let records : list MaintenanceRecord :=
    default [] (maintenance_records self !! gear_id) in
  fold_left
    (λ (items : gmap MaintenanceType (list MaintenanceRecord)) record,
       let items :=
         match items !! mr_maintenance_type record with
         | None => <[mr_maintenance_type record := []]> items
         | Some _ => items
         end in
       <[mr_maintenance_type record :=
           default [] (items !! mr_maintenance_type record) ++ [record]]>
         items)
    records ∅.

(** [sorted(l)] with a comparison [lt] that may raise: a stable sort
    that compares with [<] only, by insertion.  A list of two or more
    elements is never sorted without a comparison. *)
Fixpoint py_insert {A : Type} (lt : A → A → option bool) (x : A)
    (s : list A) : option (list A) :=
  match s with
  | [] => Some [x]
  | y :: r =>
      b ← lt y x;
      if b : bool then r' ← py_insert lt x r; Some (y :: r')
      else Some (x :: y :: r)
  end.

Fixpoint py_sorted {A : Type} (lt : A → A → option bool) (l : list A)
    : option (list A) :=
  match l with
  | [] => Some []
  | x :: r => s ← py_sorted lt r; py_insert lt x s
  end.

(** [<] between two members of [MaintenanceType]: [Enum] defines no
    ordering, the comparison raises [TypeError]. *)
Definition maintenance_type_lt (a b : MaintenanceType) : option bool := None.

Section MaintainedItems.

(** [<] between the record lists of two items with the same key; the
    items of a dictionary never have the same key. *)
Variable records_lt :
  list MaintenanceRecord → list MaintenanceRecord → option bool.

(** [<] between two [(item, records)] tuples: the first components
    decide unless they are equal. *)
Definition item_lt (a b : MaintenanceType * list MaintenanceRecord)
    : option bool :=
  if decide (a.1 = b.1) then records_lt a.2 b.2
  else maintenance_type_lt a.1 b.1.

(** [display_maintained_items]: the types in the order shown, each with
    its records in the order shown; [None] when the method raises. *)
Definition display_maintained_items (self : Monitor) (gear_id : string)
    : option (list (MaintenanceType * list MaintenanceRecord)) :=
  let items := get_maintained_items self gear_id in
  shown ← py_sorted item_lt (map_to_list items);
  mapM (λ p : MaintenanceType * list MaintenanceRecord,
          records ← sorted_by_date mr_date p.2; Some (p.1, records))
       shown.

End MaintainedItems.

Section Usage.

Variable fromisoformat : string → option datetime.

(** [_update_gear_usage] over the cached activities: the mileage of
    every active component whose bike has usage is refreshed; an
    exception of the aggregation is logged and nothing changes. *)
Definition _update_gear_usage (self : Monitor)
    (activities_cache : list Activity) : Monitor :=
  match analyze_gear_usage fromisoformat self activities_cache with
  | None => self
  | Some gear_usage =>
      with_components self
        ((λ component : Component,
            if bool_decide (c_status component = active) then
              match gear_usage !! c_gear_id component with
              | Some usage =>
                  {| c_id := c_id component;
                     c_name := c_name component;
                     c_brand := c_brand component;
                     c_model := c_model component;
                     c_installation_date := c_installation_date component;
                     c_gear_id := c_gear_id component;
                     c_status := c_status component;
                     c_notes := c_notes component;
                     c_purchase_date := c_purchase_date component;
                     c_purchase_price := c_purchase_price component;
                     c_mileage_at_installation :=
                       c_mileage_at_installation component;
                     c_current_mileage := gu_total_distance_km usage |}
              | None => component
              end
            else component) <$> components self)
        (component_swaps self)
  end.

End Usage.

(** [a] is dated at or before [b]. *)
Definition date_le {A : Type} (key : A → datetime) (a b : A) : Prop :=
  dt_le (key a) (key b) = Some true.

(** The stored records of a gear that have a given type, in stored
    order. *)
Definition of_type (self : Monitor) (gear_id : string)
    (ty : MaintenanceType) : list MaintenanceRecord :=
  List.filter (λ r, bool_decide (mr_maintenance_type r = ty))
    (stored self gear_id).

(** The activities of a feed booked on a gear, in feed order. *)
Definition rides_of (gear_id : string) (activities : list Activity)
    : list Activity :=
  List.filter (of_gear gear_id) activities.

(** The sport types named by a list of activities. *)
Definition sport_types_of (activities : list Activity) : gset string :=
  list_to_set (omap (λ a, truthy (a_sport_type a)) activities).

Section UsageFold.

Variable fromisoformat : string → option datetime.

(** The updates of a list of activities on one usage, in order. *)
Fixpoint usage_fold (usage : GearUsage) (activities : list Activity)
    : option GearUsage :=
  match activities with
  | [] => Some usage
  | a :: rest =>
      usage' ← update_usage fromisoformat usage a; usage_fold usage' rest
  end.

(** The dates seen so far bracket the first and last date of a usage. *)
Definition dates_bracketed (seen : list datetime) (usage : GearUsage)
    : Prop :=
  (seen = [] ∧ gu_first_activity_date usage = None
   ∧ gu_last_activity_date usage = None)
  ∨ ∃ f l,
      gu_first_activity_date usage = Some f
      ∧ gu_last_activity_date usage = Some l
      ∧ In f seen ∧ In l seen
      ∧ ∀ d, In d seen → dt_le f d = Some true ∧ dt_le d l = Some true.

End UsageFold.

(** The kilometres the aggregator books on a gear: none on the empty
    gear id, which it skips. *)
Definition gear_distance_km (gear_id : string) (activities : list Activity)
    : Q :=
  match truthy (Some gear_id) with
  | None => 0%Q
  | Some g =>
      match rides_of g activities with
      | [] => 0%Q
      | rides => Qdiv (py_sum (map get_distance rides)) 1000
      end
  end.

(** *** Service intervals, as stored and as listed *)

Definition stored_intervals (self : Monitor) (gear_id : string)
    : list ServiceInterval :=
  default [] (service_intervals self !! gear_id).

(** The stored intervals an item filter keeps. *)
Definition listed_intervals (self : Monitor) (gear_id : string)
    (item : option string) : list ServiceInterval :=
  match truthy item with
  | Some i =>
      List.filter (λ x, String.eqb (si_item x) (lower i))
        (stored_intervals self gear_id)
  | None => stored_intervals self gear_id
  end.

(** [a.item <= b.item]: the item of [b] is not before that of [a]. *)
Definition item_le (a b : ServiceInterval) : Prop :=
  String.ltb (si_item b) (si_item a) = false.

(** *** Components and their ledger *)

(** A component with its current mileage set. *)
Definition with_current_mileage (component : Component) (km : Q)
    : Component :=
  {| c_id := c_id component;
     c_name := c_name component;
     c_brand := c_brand component;
     c_model := c_model component;
     c_installation_date := c_installation_date component;
     c_gear_id := c_gear_id component;
     c_status := c_status component;
     c_notes := c_notes component;
     c_purchase_date := c_purchase_date component;
     c_purchase_price := c_purchase_price component;
     c_mileage_at_installation := c_mileage_at_installation component;
     c_current_mileage := km |}.

(** The components whose mileage a refresh over [activities] rewrites:
    the active ones whose bike, with a non-empty id, has an activity. *)
Definition refreshed (activities : list Activity) (component : Component)
    : bool :=
  bool_decide (c_status component = active)
  && match truthy (Some (c_gear_id component)) with
     | Some g =>
         match rides_of g activities with
         | [] => false
         | _ => true
         end
     | None => false
     end.

(** The new component of a swap as it is installed, and the ledger
    entry of the installation. *)
Definition installed (new_component : Component) (now : Z)
    (gear_id : string) (current_mileage : Q) : Component :=
  {| c_id := c_id new_component;
     c_name := c_name new_component;
     c_brand := c_brand new_component;
     c_model := c_model new_component;
     c_installation_date := Aware now;
     c_gear_id := gear_id;
     c_status := active;
     c_notes := c_notes new_component;
     c_purchase_date := c_purchase_date new_component;
     c_purchase_price := c_purchase_price new_component;
     c_mileage_at_installation := current_mileage;
     c_current_mileage := current_mileage |}.

Definition installation (now : Z) (gear_id new_id old_component_id : string)
    (current_mileage : Q) (notes : option string) : ComponentSwap :=
  {| cs_date := Aware now;
     cs_gear_id := gear_id;
     cs_component_id := new_id;
     cs_old_component_id := Some old_component_id;
     cs_action := "install";
     cs_mileage := current_mileage;
     cs_notes := notes |}.

(** Every component is stored under its own id, and every entry of the
    swap ledger names a stored component. *)
Definition ids_consistent (self : Monitor) : Prop :=
  ∀ id component, components self !! id = Some component →
    c_id component = id.

Definition ledger_known (self : Monitor) : Prop :=
  ∀ swap, In swap (component_swaps self) →
    is_Some (components self !! cs_component_id swap).

(** ** More of the scenario *)
Module Garage.

(** A gravel ride of [g1] on day 2. *)
Definition gravel_ride : Activity :=
  {| a_id := 2;
     a_gear_id := Some "g1";
     a_sport_type := Some "GravelRide";
     a_distance := Some 8000%Q;
     a_start_date := Some "2024-01-02T08:00:00Z" |}.

(** A run, on no gear. *)
Definition run : Activity :=
  {| a_id := 10;
     a_gear_id := None;
     a_sport_type := Some "Run";
     a_distance := Some 5000%Q;
     a_start_date := Some "2024-01-02T18:00:00Z" |}.

Definition feed : list Activity :=
  [Scenario.ride1; gravel_ride; run; Scenario.other_ride; Scenario.ride3;
   Scenario.ride5].

(** The chain of [g1] lubed on day 8. *)
Definition lube : MaintenanceRecord :=
  {| mr_gear_id := "g1";
     mr_maintenance_type := LUBE;
     mr_date := Aware 1704708000000000;
     mr_notes := Some "wax";
     mr_distance_at_maintenance := 0%Q;
     mr_activities_since_last_maintenance := [Scenario.ride1] |}.

Definition washed_and_lubed : Monitor :=
  with_maintenance_records Scenario.empty_monitor
    {[ "g1" := [Scenario.first_wash; lube] ]}.

(** Intervals of [g1]: two on the chain, one on the brakes whose
    distance at the last service is [null]. *)
Definition brake_interval : ServiceInterval :=
  {| si_gear_id := "g1";
     si_item := "brakes";
     si_interval_type := "distance";
     si_interval_value := 1000%Q;
     si_action := "check";
     si_last_service_date := Some (Aware Scenario.day6);
     si_last_service_distance := None |}.

Definition serviced : Monitor :=
  with_service_intervals Scenario.washed_once
    {[ "g1" := [Scenario.chain_interval; brake_interval;
                Scenario.weekly_interval] ]}.

(** An API that serves two pages and then fails. *)
Definition two_pages (page : Z) : option (list Activity) :=
  if page =? 1 then Some [Scenario.ride1; Scenario.ride3]
  else if page =? 2 then Some [Scenario.ride5]
  else None.

End Garage.

(** Case analysis on every integer comparison of the goal, closed by
    linear arithmetic. *)
Ltac compare_instants :=
  repeat match goal with
         | |- context [?a ?= ?b] => destruct (Z.compare_spec a b); cbn
         end;
  try reflexivity; try (f_equal; f_equal; lia); try lia.

(** ** Arithmetic of [Q] up to Leibniz equality *)

Lemma Qplus_0_l_L (x : Q) : Qplus 0 x = x.
Proof.
  destruct x as [n d]. unfold Qplus. cbn [Qnum Qden].
  f_equal; lia.
Qed.

Lemma Qplus_comm_L (x y : Q) : Qplus x y = Qplus y x.
Proof.
  destruct x as [n d], y as [n' d']. unfold Qplus. cbn [Qnum Qden].
  f_equal; lia.
Qed.

Lemma Qplus_assoc_L (x y z : Q) : Qplus x (Qplus y z) = Qplus (Qplus x y) z.
Proof.
  destruct x as [n d], y as [n' d'], z as [n'' d'']. unfold Qplus.
  cbn [Qnum Qden]. f_equal; [|lia].
  rewrite !Pos2Z.inj_mul. ring.
Qed.

Lemma Qplus_swap_L (m x y : Q) : Qplus (Qplus m x) y = Qplus (Qplus m y) x.
Proof.
  rewrite <- !Qplus_assoc_L. f_equal. apply Qplus_comm_L.
Qed.

Lemma fold_left_Qplus (l : list Q) (acc : Q) :
  fold_left Qplus l acc = Qplus acc (fold_right Qplus 0%Q l).
Proof.
  revert acc. induction l as [|x l IH]; intros acc; cbn [fold_left fold_right].
  - rewrite Qplus_comm_L. symmetry. apply Qplus_0_l_L.
  - rewrite IH. symmetry. apply Qplus_assoc_L.
Qed.

Lemma py_sum_distances (snapshot : list Activity) :
  py_sum (map get_distance snapshot) = sum_distances snapshot.
Proof.
  unfold py_sum. rewrite fold_left_Qplus, Qplus_0_l_L.
  induction snapshot as [|a l IH]; cbn; [reflexivity|]. now rewrite IH.
Qed.

(** ** Window Selector *)

Section WindowSelector.

Variable fromisoformat : string → option datetime.

Lemma window_step_filter (s : option datetime) (e : datetime)
    (acc : list Activity) (activity : Activity) :
  window_step fromisoformat s e acc activity
  = acc ++ List.filter (in_window fromisoformat s e) [activity].
Proof.
  unfold window_step, in_window, in_date_range. cbn [List.filter].
  destruct (activity_date fromisoformat activity) as [d|]; cbn;
    [|now rewrite app_nil_r].
  destruct s as [s0|]; cbn.
  - destruct (dt_ge d s0) as [[|]|]; cbn; try now rewrite app_nil_r.
    destruct (dt_le d e) as [[|]|]; cbn; now rewrite ?app_nil_r.
  - destruct (dt_le d e) as [[|]|]; cbn; now rewrite ?app_nil_r.
Qed.

Lemma window_loop_filter (s : option datetime) (e : datetime)
    (activities acc : list Activity) :
  fold_left (window_step fromisoformat s e) activities acc
  = acc ++ List.filter (in_window fromisoformat s e) activities.
Proof.
  revert acc. induction activities as [|a l IH]; intros acc.
  - cbn. now rewrite app_nil_r.
  - cbn [fold_left]. rewrite IH, window_step_filter.
    rewrite <- app_assoc. f_equal.
    change (a :: l) with ([a] ++ l). now rewrite List.filter_app.
Qed.

(** The selector is the filter of [in_window]. *)
Lemma get_activities_between_dates_filter (activities : list Activity)
    (s : option datetime) (e : datetime) :
  _get_activities_between_dates fromisoformat activities s e
  = List.filter (in_window fromisoformat s e) activities.
Proof.
  unfold _get_activities_between_dates. now rewrite window_loop_filter.
Qed.

Lemma get_activities_between_dates_skips (activities : list Activity)
    (s : option datetime) (e : datetime) (activity : Activity) :
  activity_date fromisoformat activity = None →
  ¬ In activity (_get_activities_between_dates fromisoformat activities s e).
Proof.
  intros Hnone Hin. rewrite get_activities_between_dates_filter in Hin.
  apply List.filter_In in Hin as [_ Hw].
  unfold in_window in Hw. now rewrite Hnone in Hw.
Qed.

(** C5. For every activity list, nullable start bound [s] and end
    bound [e], the Window Selector returns exactly the activities whose
    start date parses and satisfies [(s is null or start_date >= s)
    and start_date <= e], in the order of the input; it is a total
    function, and an activity whose start date does not parse is
    skipped. *)
Theorem get_activities_between_dates_window (activities : list Activity)
    (s : option datetime) (e : datetime) :
  _get_activities_between_dates fromisoformat activities s e
  = List.filter (in_window fromisoformat s e) activities
  ∧ ∀ activity,
      activity_date fromisoformat activity = None →
      ¬ In activity (_get_activities_between_dates fromisoformat activities s e).
Proof.
  split.
  - apply get_activities_between_dates_filter.
  - intros activity. apply get_activities_between_dates_skips.
Qed.

End WindowSelector.

(** The selection over the feed of the scenario with a broken record:
    the lower bound is inclusive, the broken date is skipped. *)
Example get_activities_between_dates_scenario :
  _get_activities_between_dates IsoBasic.fromisoformat
    [Scenario.ride1; Scenario.broken_ride; Scenario.ride_at_wash;
     Scenario.ride8]
    (Some (Aware Scenario.day6)) (Aware Scenario.day10)
  = [Scenario.ride_at_wash; Scenario.ride8].
Proof. vm_compute. reflexivity. Qed.

(** A start date without offset is naive; against aware bounds the
    comparison raises and the activity is skipped like a broken one. *)
Example get_activities_between_dates_naive :
  activity_date IsoBasic.fromisoformat Scenario.naive_ride
  = Some (Naive 1704614400000000)
  ∧ _get_activities_between_dates IsoBasic.fromisoformat
      [Scenario.ride5; Scenario.naive_ride; Scenario.ride8]
      None (Aware Scenario.day10)
    = [Scenario.ride5; Scenario.ride8].
Proof. split; vm_compute; reflexivity. Qed.

(** ** MaintenanceRecord.calculate_distance *)

(** C7. [calculate_distance()] is the sum of the distance fields of the
    snapshot (a missing field counts as 0) divided by 1000; the snapshot
    of the scenario, 10000 + 20000 + 5000 metres, yields 35. *)
Theorem calculate_distance_sum (self : MaintenanceRecord) :
  calculate_distance self
  = Qdiv (sum_distances (mr_activities_since_last_maintenance self)) 1000
  ∧ Qeq (calculate_distance Scenario.first_wash) 35
  ∧ Qred (calculate_distance Scenario.first_wash) = 35%Q.
Proof.
  split; [|split].
  - unfold calculate_distance. now rewrite py_sum_distances.
  - vm_compute. reflexivity.
  - vm_compute. reflexivity.
Qed.

(** ** Maintenance Ledger: deletion *)

Lemma delete_maintenance_record_fails (self : Monitor) (gear_id : string)
    (i : Z) :
  stored self gear_id = [] ∨ i < 1 ∨ Z.of_nat (length (stored self gear_id)) < i →
  delete_maintenance_record self gear_id i = (false, self).
Proof.
  unfold delete_maintenance_record, stored.
  destruct (maintenance_records self !! gear_id) as [records|]; cbn;
    [|reflexivity].
  intros H.
  destruct ((1 <=? i) && (i <=? Z.of_nat (length records))) eqn:E;
    [|reflexivity].
  apply andb_true_iff in E as [E1 E2].
  apply Z.leb_le in E1, E2.
  destruct H as [-> | [H | H]]; cbn in *; lia.
Qed.

Lemma delete_maintenance_record_succeeds (self : Monitor)
    (gear_id : string) (i : Z) :
  1 ≤ i ≤ Z.of_nat (length (stored self gear_id)) →
  delete_maintenance_record self gear_id i
  = (true,
     with_maintenance_records self
       (<[gear_id := remove_nth1 i (stored self gear_id)]>
          (maintenance_records self))).
Proof.
  unfold delete_maintenance_record, stored.
  destruct (maintenance_records self !! gear_id) as [records|]; cbn;
    [|lia].
  intros [H1 H2].
  destruct ((1 <=? i) && (i <=? Z.of_nat (length records))) eqn:E; cbn.
  - unfold remove_nth1. rewrite delete_take_drop.
    replace (S (Z.to_nat (i - 1))) with (Z.to_nat i) by lia.
    reflexivity.
  - apply andb_false_iff in E as [E | E]; apply Z.leb_gt in E; lia.
Qed.

(** C8. [delete_maintenance_record] fails, leaving the monitor as it
    was, iff the gear has no records or the 1-based index is outside
    [1, len(records)]; otherwise it removes exactly the record at that
    position of the stored (insertion) order, and the records of the
    other gears and the rest of the monitor are unchanged. *)
Theorem delete_maintenance_record_spec (self : Monitor) (gear_id : string)
    (i : Z) :
  (fst (delete_maintenance_record self gear_id i) = false
   ↔ stored self gear_id = [] ∨ i < 1
     ∨ Z.of_nat (length (stored self gear_id)) < i)
  ∧ (fst (delete_maintenance_record self gear_id i) = false →
     snd (delete_maintenance_record self gear_id i) = self)
  ∧ (fst (delete_maintenance_record self gear_id i) = true →
     let self' := snd (delete_maintenance_record self gear_id i) in
     maintenance_records self' !! gear_id
     = Some (remove_nth1 i (stored self gear_id))
     ∧ (∀ j : nat, (Z.of_nat j < i - 1) →
          remove_nth1 i (stored self gear_id) !! j
          = stored self gear_id !! j)
     ∧ (∀ j : nat, (i - 1 ≤ Z.of_nat j) →
          remove_nth1 i (stored self gear_id) !! j
          = stored self gear_id !! S j)
     ∧ (∀ other, other ≠ gear_id →
          maintenance_records self' !! other
          = maintenance_records self !! other)
     ∧ service_intervals self' = service_intervals self
     ∧ components self' = components self
     ∧ component_swaps self' = component_swaps self).
Proof.
  destruct (decide (stored self gear_id = [] ∨ i < 1
                    ∨ Z.of_nat (length (stored self gear_id)) < i))
    as [Hbad | Hgood].
  - rewrite (delete_maintenance_record_fails _ _ _ Hbad). cbn.
    split; [tauto|]. split; [reflexivity|]. discriminate.
  - assert (Hr : 1 ≤ i ≤ Z.of_nat (length (stored self gear_id))) by lia.
    rewrite (delete_maintenance_record_succeeds _ _ _ Hr). cbn.
    split; [split; [discriminate | tauto]|].
    split; [discriminate|]. intros _.
    split; [apply lookup_insert_eq|].
    split; [|split; [|split; [|repeat split]]].
    + intros j Hj. unfold remove_nth1.
      rewrite lookup_app_l by (rewrite length_take; lia).
      apply lookup_take_lt. lia.
    + intros j Hj. unfold remove_nth1.
      rewrite lookup_app_r by (rewrite length_take; lia).
      rewrite length_take, lookup_drop. f_equal. lia.
    + intros other Hne. now apply lookup_insert_ne.
Qed.


(** The index is a position in the stored order: with the two washes of
    the scenario stored oldest first, index 1 removes the wash of day 6,
    which a listing sorted by date, latest first, shows second. *)
Example delete_maintenance_record_stored_order :
  delete_maintenance_record Scenario.washed_twice "g1" 1
  = (true,
     with_maintenance_records Scenario.empty_monitor
       {[ "g1" := [Scenario.second_wash] ]})
  ∧ delete_maintenance_record Scenario.washed_twice "g1" 3
    = (false, Scenario.washed_twice)
  ∧ delete_maintenance_record Scenario.washed_twice "g2" 1
    = (false, Scenario.washed_twice).
Proof. repeat split; vm_compute; reflexivity. Qed.

(** ** Maintenance Ledger: recording *)

Lemma dt_le_refl (a : datetime) : dt_le a a = Some true.
Proof. destruct a; cbn; now rewrite Z.compare_refl. Qed.

Lemma dt_le_trans (a b c : datetime) :
  dt_le a b = Some true → dt_le b c = Some true → dt_le a c = Some true.
Proof.
  destruct a as [x|x], b as [y|y], c as [z|z]; cbn; try discriminate;
    destruct (Z.compare_spec x y), (Z.compare_spec y z),
      (Z.compare_spec x z); try discriminate; try reflexivity; lia.
Qed.

Lemma dt_gt_true_le (a b : datetime) :
  dt_gt a b = Some true → dt_le b a = Some true.
Proof.
  destruct a as [x|x], b as [y|y]; cbn; try discriminate;
    destruct (Z.compare_spec x y), (Z.compare_spec y x);
    try discriminate; try reflexivity; lia.
Qed.

Lemma dt_gt_false_le (a b : datetime) :
  dt_gt a b = Some false → dt_le a b = Some true.
Proof.
  destruct a as [x|x], b as [y|y]; cbn; try discriminate;
    destruct (Z.compare_spec x y); try discriminate; reflexivity.
Qed.

Section MaxByDate.

Context {A : Type} (key : A → datetime).

Lemma max_by_date_from_spec (l : list A) (best m : A) :
  max_by_date_from key best l = Some m →
  (m = best ∨ In m l)
  ∧ dt_le (key best) (key m) = Some true
  ∧ ∀ x, In x l → dt_le (key x) (key m) = Some true.
Proof.
  revert best. induction l as [|x l IH]; intros best; cbn.
  - intros [= <-]. split; [now left|]. split; [apply dt_le_refl|tauto].
  - destruct (dt_gt (key x) (key best)) as [b|] eqn:E; cbn;
      [|discriminate].
    intros H. apply IH in H as (Hin & Hbest & Hall).
    destruct b.
    + apply dt_gt_true_le in E. split; [|split].
      * destruct Hin as [-> | Hin]; auto.
      * eapply dt_le_trans; eassumption.
      * intros y [<- | Hy]; auto.
    + apply dt_gt_false_le in E. split; [|split].
      * destruct Hin as [-> | Hin]; auto.
      * assumption.
      * intros y [<- | Hy]; auto. eapply dt_le_trans; eassumption.
Qed.

(** [max] returns an element of the list that no other exceeds. *)
Lemma max_by_date_spec (l : list A) (m : A) :
  max_by_date key l = Some m →
  In m l ∧ ∀ x, In x l → dt_le (key x) (key m) = Some true.
Proof.
  destruct l as [|x l]; cbn; [discriminate|].
  intros H. apply max_by_date_from_spec in H as (Hin & Hbest & Hall).
  split; [destruct Hin; auto|].
  intros y [<- | Hy]; auto.
Qed.

End MaxByDate.

Lemma filter_filter_andb {A : Type} (p q : A → bool) (l : list A) :
  List.filter p (List.filter q l) = List.filter (λ a, p a && q a) l.
Proof.
  induction l as [|a l IH]; cbn; [reflexivity|].
  destruct (q a); cbn; destruct (p a); cbn; now rewrite IH.
Qed.

(** The previous record found by [record_maintenance] is a stored record
    of the gear and of the type, and no stored record of that type is
    dated later. *)
Lemma previous_maintenance_latest (self : Monitor) (gear_id : string)
    (ty : MaintenanceType) (prev : MaintenanceRecord) :
  previous_maintenance self gear_id ty = Some (Some prev) →
  In prev (stored self gear_id)
  ∧ mr_maintenance_type prev = ty
  ∧ ∀ r, In r (stored self gear_id) → mr_maintenance_type r = ty →
         dt_le (mr_date r) (mr_date prev) = Some true.
Proof.
  unfold previous_maintenance, stored.
  destruct (maintenance_records self !! gear_id) as [records|]; cbn;
    [|discriminate].
  destruct (List.filter _ records) as [|r0 rs] eqn:E; [discriminate|].
  destruct (max_by_date mr_date (r0 :: rs)) as [m|] eqn:Hm; cbn;
    [|discriminate].
  intros [= <-]. apply max_by_date_spec in Hm as [Hin Hall].
  rewrite <- E in Hin, Hall.
  apply List.filter_In in Hin as [Hin Hty].
  apply bool_decide_eq_true in Hty.
  split; [assumption|]. split; [assumption|].
  intros r Hr Hrty. apply Hall. apply List.filter_In.
  split; [assumption|]. now apply bool_decide_eq_true.
Qed.

(** With a stored record of the type, the search returns a record or
    raises. *)
Lemma previous_maintenance_found (self : Monitor) (gear_id : string)
    (ty : MaintenanceType) (r0 : MaintenanceRecord) :
  In r0 (stored self gear_id) →
  mr_maintenance_type r0 = ty →
  previous_maintenance self gear_id ty ≠ Some None.
Proof.
  unfold previous_maintenance, stored. intros Hin Hty.
  destruct (maintenance_records self !! gear_id) as [records|]; cbn in *;
    [|tauto].
  assert (H : In r0 (List.filter
                       (λ r, bool_decide (mr_maintenance_type r = ty))
                       records)).
  { apply List.filter_In. split; [assumption|].
    now apply bool_decide_eq_true. }
  destruct (List.filter _ records) as [|r1 rs]; [destruct H|].
  now destruct (max_by_date mr_date (r1 :: rs)).
Qed.

(** [max] over aware dates, as [datetime.now().astimezone()] and the
    loader produce them, does not raise. *)
Lemma max_by_date_from_aware {A : Type} (key : A → datetime) (l : list A)
    (best : A) :
  (∃ t, key best = Aware t) →
  (∀ x, In x l → ∃ t, key x = Aware t) →
  ∃ m, max_by_date_from key best l = Some m.
Proof.
  revert best. induction l as [|x l IH]; intros best [t Ht] Hall; cbn.
  - eauto.
  - destruct (Hall x (or_introl eq_refl)) as [u Hu].
    rewrite Hu, Ht. cbn.
    apply IH.
    + destruct (u ?= t); rewrite ?Hu, ?Ht; eauto.
    + intros y Hy. apply Hall. now right.
Qed.

Lemma record_maintenance_returns_true
    (fromisoformat : string → option datetime) (self : Monitor) (now : Z)
    (activities : list Activity) (gear_id : string) (ty : MaintenanceType)
    (notes : option string) :
  (∀ r, In r (stored self gear_id) → ∃ t, mr_date r = Aware t) →
  fst (record_maintenance fromisoformat self now activities gear_id ty notes)
  = true.
Proof.
  intros Haware. unfold record_maintenance, previous_maintenance.
  unfold stored in Haware.
  destruct (maintenance_records self !! gear_id) as [records|]; cbn in *;
    [|reflexivity].
  destruct (List.filter _ records) as [|r1 rs] eqn:E; [reflexivity|].
  assert (Hsub : ∀ x, In x (r1 :: rs) → ∃ t, mr_date x = Aware t).
  { intros x Hx. rewrite <- E in Hx.
    apply List.filter_In in Hx as [Hx _]. auto. }
  destruct (max_by_date_from_aware mr_date rs r1) as [m Hm].
  - apply Hsub. now left.
  - intros x Hx. apply Hsub. now right.
  - cbn [max_by_date]. rewrite Hm. reflexivity.
Qed.

Section Recording.

Variable fromisoformat : string → option datetime.

(** C1, as the code has it. When [record_maintenance] creates a record
    (it returns [True]) and a record of the same type was stored for
    the gear, then it has appended one record dated now, and the
    snapshot of that record is exactly the activities of the gear whose
    start date parses and lies in the closed window [[prev_date, now]],
    in the order of the feed: both bounds are inclusive.  Here
    [prev_date] is the date of a stored record of that type with the
    latest date. *)
Theorem record_maintenance_snapshot (self : Monitor) (now : Z)
    (activities : list Activity) (gear_id : string)
    (ty : MaintenanceType) (notes : option string)
    (r0 : MaintenanceRecord) :
  In r0 (stored self gear_id) →
  mr_maintenance_type r0 = ty →
  fst (record_maintenance fromisoformat self now activities gear_id ty notes)
  = true →
  ∃ prev record,
    snd (record_maintenance fromisoformat self now activities gear_id ty
           notes)
    = with_maintenance_records self
        (<[gear_id := stored self gear_id ++ [record]]>
           (maintenance_records self))
    ∧ mr_gear_id record = gear_id
    ∧ mr_maintenance_type record = ty
    ∧ mr_date record = Aware now
    ∧ mr_activities_since_last_maintenance record
      = List.filter
          (λ a, of_gear gear_id a
                && in_window fromisoformat (Some (mr_date prev))
                     (Aware now) a)
          activities
    ∧ In prev (stored self gear_id)
    ∧ mr_maintenance_type prev = ty
    ∧ ∀ r, In r (stored self gear_id) → mr_maintenance_type r = ty →
           dt_le (mr_date r) (mr_date prev) = Some true.
Proof.
  intros Hin Hty. pose proof (previous_maintenance_found _ _ _ _ Hin Hty) as Hfound.
  unfold record_maintenance.
  destruct (previous_maintenance self gear_id ty) as [[prev|]|] eqn:Hprev;
    cbn; [|congruence|discriminate].
  intros _. eexists prev, _. split; [reflexivity|]. cbn.
  split; [reflexivity|]. split; [reflexivity|]. split; [reflexivity|].
  split.
  - rewrite get_activities_between_dates_filter. apply filter_filter_andb.
  - now apply previous_maintenance_latest.
Qed.

End Recording.

(** The second wash of the scenario: the ride of day 8 is in the
    snapshot, and so is the ride that starts at the instant of the first
    wash. *)
Lemma record_maintenance_snapshot_witness :
  In Scenario.first_wash (stored Scenario.washed_once "g1")
  ∧ mr_maintenance_type Scenario.first_wash = WASH
  ∧ fst (record_maintenance IsoBasic.fromisoformat Scenario.washed_once
           Scenario.day10 Scenario.feed_day10 "g1" WASH None)
    = true
  ∧ ∃ prev record,
      snd (record_maintenance IsoBasic.fromisoformat Scenario.washed_once
             Scenario.day10 Scenario.feed_day10 "g1" WASH None)
      = with_maintenance_records Scenario.washed_once
          (<["g1" := stored Scenario.washed_once "g1" ++ [record]]>
             (maintenance_records Scenario.washed_once))
      ∧ mr_gear_id record = "g1"
      ∧ mr_maintenance_type record = WASH
      ∧ mr_date record = Aware Scenario.day10
      ∧ mr_activities_since_last_maintenance record
        = List.filter
            (λ a, of_gear "g1" a
                  && in_window IsoBasic.fromisoformat (Some (mr_date prev))
                       (Aware Scenario.day10) a)
            Scenario.feed_day10
      ∧ In prev (stored Scenario.washed_once "g1")
      ∧ mr_maintenance_type prev = WASH
      ∧ ∀ r, In r (stored Scenario.washed_once "g1") →
             mr_maintenance_type r = WASH →
             dt_le (mr_date r) (mr_date prev) = Some true.
Proof.
  assert (Hin : In Scenario.first_wash (stored Scenario.washed_once "g1"))
    by (vm_compute; auto).
  assert (Hok : fst (record_maintenance IsoBasic.fromisoformat
                       Scenario.washed_once Scenario.day10
                       Scenario.feed_day10 "g1" WASH None) = true)
    by (vm_compute; reflexivity).
  split; [exact Hin|]. split; [reflexivity|]. split; [exact Hok|].
  exact (record_maintenance_snapshot IsoBasic.fromisoformat
           Scenario.washed_once Scenario.day10 Scenario.feed_day10 "g1"
           WASH None Scenario.first_wash Hin eq_refl Hok).
Defined.

(** C1, as the specification states it, fails on the code: with a wash
    recorded on day 6 and a ride that starts at that very instant, the
    wash of day 10 has that ride in its snapshot, so the snapshot is not
    the selection over the half-open window [(prev_date, now]]. *)
Lemma record_maintenance_includes_previous_date :
  record_maintenance IsoBasic.fromisoformat Scenario.washed_once
    Scenario.day10 Scenario.feed_day10 "g1" WASH None
  = (true, Scenario.washed_twice)
  ∧ previous_maintenance Scenario.washed_once "g1" WASH
    = Some (Some Scenario.first_wash)
  ∧ activity_date IsoBasic.fromisoformat Scenario.ride_at_wash
    = Some (mr_date Scenario.first_wash)
  ∧ In Scenario.ride_at_wash
      (mr_activities_since_last_maintenance Scenario.second_wash)
  ∧ mr_activities_since_last_maintenance Scenario.second_wash
    ≠ List.filter
        (λ a, of_gear "g1" a
              && in_half_open_window IsoBasic.fromisoformat
                   (mr_date Scenario.first_wash) (Aware Scenario.day10) a)
        Scenario.feed_day10.
Proof.
  split; [vm_compute; reflexivity|].
  split; [vm_compute; reflexivity|].
  split; [vm_compute; reflexivity|].
  split; [cbn; now left|].
  vm_compute. discriminate.
Qed.

(** ** Usage Aggregator *)

Lemma option_bind_Some_r {A : Type} (o : option A) : (x ← o; Some x) = o.
Proof. now destruct o. Qed.

Lemma option_bind_None_r {A B : Type} (o : option A) :
  (o ≫= λ _, @None B) = None.
Proof. now destruct o. Qed.

(** The running minimum and maximum do not depend on the order in which
    two dates arrive, nor does the [TypeError] of a naive date meeting an
    aware one. *)
Lemma update_first_comm (f : option datetime) (d1 d2 : datetime) :
  (x ← update_first f d1; update_first (Some x) d2)
  = (x ← update_first f d2; update_first (Some x) d1).
Proof.
  destruct f as [[f|f]|], d1 as [x|x], d2 as [y|y]; cbn;
    try reflexivity; compare_instants.
Qed.

Lemma update_last_comm (l : option datetime) (d1 d2 : datetime) :
  (x ← update_last l d1; update_last (Some x) d2)
  = (x ← update_last l d2; update_last (Some x) d1).
Proof.
  destruct l as [[l|l]|], d1 as [x|x], d2 as [y|y]; cbn;
    try reflexivity; compare_instants.
Qed.

Lemma update_usage_unparsed (fromisoformat : string → option datetime)
    (usage : GearUsage) (activity : Activity) :
  activity_date fromisoformat activity = None →
  update_usage fromisoformat usage activity = None.
Proof. intros H. unfold update_usage. now rewrite H. Qed.

Section Aggregation.

Variable fromisoformat : string → option datetime.

Lemma update_usage_comm (usage : GearUsage) (a b : Activity) :
  (u ← update_usage fromisoformat usage a; update_usage fromisoformat u b)
  = (u ← update_usage fromisoformat usage b;
     update_usage fromisoformat u a).
Proof.
  destruct (activity_date fromisoformat a) as [x|] eqn:Ha.
  2:{ rewrite (update_usage_unparsed _ _ _ Ha). cbn.
      erewrite option_bind_ext_fun;
        [apply eq_sym, option_bind_None_r|].
      intros u. now apply update_usage_unparsed. }
  destruct (activity_date fromisoformat b) as [y|] eqn:Hb.
  2:{ rewrite (update_usage_unparsed _ _ _ Hb). cbn.
      erewrite option_bind_ext_fun; [apply option_bind_None_r|].
      intros u. now apply update_usage_unparsed. }
  unfold update_usage. rewrite Ha, Hb. cbn.
  pose proof (update_first_comm (gu_first_activity_date usage) x y) as HF.
  pose proof (update_last_comm (gu_last_activity_date usage) x y) as HL.
  destruct (update_first (gu_first_activity_date usage) x) as [f1|];
  destruct (update_first (gu_first_activity_date usage) y) as [f1'|];
  destruct (update_last (gu_last_activity_date usage) x) as [l1|];
  destruct (update_last (gu_last_activity_date usage) y) as [l1'|];
  cbn in *.
  all: try reflexivity.
  all: try match type of HF with
           | None = _ => rewrite <- HF
           | _ => rewrite HF
           end.
  all: try match type of HL with
           | None = _ => rewrite <- HL
           | _ => rewrite HL
           end.
  all: cbn.
  all: repeat match goal with
              | |- context [dt_lt ?p ?q] =>
                  destruct (dt_lt p q) as [[|]|]; cbn
              | |- context [dt_gt ?p ?q] =>
                  destruct (dt_gt p q) as [[|]|]; cbn
              end.
  all: try reflexivity.
  all: f_equal; f_equal.
  all: try apply Qplus_swap_L.
  all: try (f_equal; apply Qplus_swap_L).
  all: destruct (truthy (a_sport_type a)), (truthy (a_sport_type b));
    try reflexivity.
  all: rewrite <- !(assoc_L (∪)); f_equal; apply (comm_L (∪)).
Qed.

Lemma usage_step_comm (self : Monitor) (m : gmap string GearUsage)
    (a b : Activity) :
  (m1 ← usage_step fromisoformat self m a;
   usage_step fromisoformat self m1 b)
  = (m1 ← usage_step fromisoformat self m b;
     usage_step fromisoformat self m1 a).
Proof.
  unfold usage_step.
  destruct (truthy (a_gear_id a)) as [ga|]; cbn.
  2:{ now rewrite option_bind_Some_r. }
  destruct (truthy (a_gear_id b)) as [gb|]; cbn.
  2:{ now rewrite option_bind_Some_r. }
  destruct (decide (ga = gb)) as [<- | Hne].
  - set (u0 := default _ (m !! ga)).
    pose proof (update_usage_comm u0 a b) as H.
    destruct (update_usage fromisoformat u0 a) as [ua|];
      destruct (update_usage fromisoformat u0 b) as [ub|]; cbn in *.
    + rewrite !lookup_insert_eq. cbn. rewrite H.
      destruct (update_usage fromisoformat ub a); cbn; [|reflexivity].
      now rewrite !insert_insert_eq.
    + rewrite lookup_insert_eq. cbn. now rewrite H.
    + rewrite lookup_insert_eq. cbn. now rewrite <- H.
    + reflexivity.
  - set (ua0 := default _ (m !! ga)).
    set (ub0 := default _ (m !! gb)).
    destruct (update_usage fromisoformat ua0 a) as [ua|] eqn:Ea;
      destruct (update_usage fromisoformat ub0 b) as [ub|] eqn:Eb; cbn.
    + rewrite !lookup_insert_ne by congruence.
      fold ua0 ub0. rewrite Ea, Eb. cbn.
      f_equal. apply insert_insert_ne. congruence.
    + rewrite lookup_insert_ne by congruence. fold ub0. now rewrite Eb.
    + rewrite lookup_insert_ne by congruence. fold ua0. now rewrite Ea.
    + reflexivity.
Qed.

Lemma usage_loop_permutation (self : Monitor) (l l' : list Activity) :
  Permutation l l' →
  ∀ m, usage_loop fromisoformat self l m
       = usage_loop fromisoformat self l' m.
Proof.
  induction 1 as [|a l l' _ IH|a b l|l l' l'' _ IH1 _ IH2]; intros m.
  - reflexivity.
  - cbn. destruct (usage_step fromisoformat self m a); cbn;
      [apply IH|reflexivity].
  - cbn. pose proof (usage_step_comm self m b a) as H.
    destruct (usage_step fromisoformat self m b) as [mb|];
      destruct (usage_step fromisoformat self m a) as [ma|]; cbn in *.
    + rewrite H. reflexivity.
    + rewrite H. reflexivity.
    + rewrite <- H. reflexivity.
    + reflexivity.
  - now rewrite IH1.
Qed.

Lemma usage_step_skips (self : Monitor) (m : gmap string GearUsage)
    (a : Activity) :
  gear_bearing a = false → usage_step fromisoformat self m a = Some m.
Proof.
  unfold gear_bearing, usage_step.
  now destruct (truthy (a_gear_id a)).
Qed.

Lemma usage_loop_gear_bearing (self : Monitor) (l : list Activity)
    (m : gmap string GearUsage) :
  usage_loop fromisoformat self (List.filter gear_bearing l) m
  = usage_loop fromisoformat self l m.
Proof.
  revert m. induction l as [|a l IH]; intros m; [reflexivity|].
  cbn [List.filter]. destruct (gear_bearing a) eqn:E.
  - cbn. destruct (usage_step fromisoformat self m a); cbn;
      [apply IH|reflexivity].
  - cbn. rewrite (usage_step_skips _ _ _ E). cbn. apply IH.
Qed.

(** With exact sums the whole result is a function of the multiset of
    activities: two permutations of one list give the same mapping from
    gear to usage, or an exception in both cases. *)
Lemma analyze_gear_usage_exact_order_independent (self : Monitor)
    (activities activities' : list Activity) :
  Permutation activities activities' →
  analyze_gear_usage fromisoformat self activities
  = analyze_gear_usage fromisoformat self activities'
  ∧ analyze_gear_usage fromisoformat self
      (List.filter gear_bearing activities)
    = analyze_gear_usage fromisoformat self activities.
Proof.
  intros H. split.
  - now apply usage_loop_permutation.
  - apply usage_loop_gear_bearing.
Qed.

End Aggregation.

(** *** The aggregation and the order of the feed *)

Section NumbersOrder.

Context {num : Type}.
Variable zero : num.
Variable add : num → Q → num.
Variable div1000 : num → num.
Variable fromisoformat : string → option datetime.

Lemma update_usage_of_unparsed (usage : GearUsageOf num)
    (activity : Activity) :
  activity_date fromisoformat activity = None →
  update_usage_of add div1000 fromisoformat usage activity = None.
Proof. intros H. unfold update_usage_of. now rewrite H. Qed.

(** Two additions to a total can be swapped. *)
Hypothesis add_swap : ∀ t x y, add (add t x) y = add (add t y) x.

Lemma update_usage_of_comm (usage : GearUsageOf num) (a b : Activity) :
  (u ← update_usage_of add div1000 fromisoformat usage a; update_usage_of add div1000 fromisoformat u b)
  = (u ← update_usage_of add div1000 fromisoformat usage b; update_usage_of add div1000 fromisoformat u a).
Proof.
  destruct (activity_date fromisoformat a) as [x|] eqn:Ha.
  2:{ rewrite (update_usage_of_unparsed _ _ Ha). cbn.
      erewrite option_bind_ext_fun;
        [apply eq_sym, option_bind_None_r|].
      intros u. now apply update_usage_of_unparsed. }
  destruct (activity_date fromisoformat b) as [y|] eqn:Hb.
  2:{ rewrite (update_usage_of_unparsed _ _ Hb). cbn.
      erewrite option_bind_ext_fun; [apply option_bind_None_r|].
      intros u. now apply update_usage_of_unparsed. }
  unfold update_usage_of. rewrite Ha, Hb. cbn.
  pose proof (update_first_comm (gn_first_activity_date usage) x y) as HF.
  pose proof (update_last_comm (gn_last_activity_date usage) x y) as HL.
  destruct (update_first (gn_first_activity_date usage) x) as [f1|];
  destruct (update_first (gn_first_activity_date usage) y) as [f1'|];
  destruct (update_last (gn_last_activity_date usage) x) as [l1|];
  destruct (update_last (gn_last_activity_date usage) y) as [l1'|];
  cbn in *.
  all: try reflexivity.
  all: try match type of HF with
           | None = _ => rewrite <- HF
           | _ => rewrite HF
           end.
  all: try match type of HL with
           | None = _ => rewrite <- HL
           | _ => rewrite HL
           end.
  all: cbn.
  all: repeat match goal with
              | |- context [dt_lt ?p ?q] =>
                  destruct (dt_lt p q) as [[|]|]; cbn
              | |- context [dt_gt ?p ?q] =>
                  destruct (dt_gt p q) as [[|]|]; cbn
              end.
  all: try reflexivity.
  all: rewrite (add_swap (gn_total_distance_m usage) (get_distance a)
                  (get_distance b)).
  all: f_equal; f_equal.
  all: destruct (truthy (a_sport_type a)), (truthy (a_sport_type b));
    try reflexivity.
  all: rewrite <- !(assoc_L (∪)); f_equal; apply (comm_L (∪)).
Qed.

Lemma usage_step_of_comm (self : Monitor)
    (m : gmap string (GearUsageOf num)) (a b : Activity) :
  (m1 ← usage_step_of zero add div1000 fromisoformat self m a; usage_step_of zero add div1000 fromisoformat self m1 b)
  = (m1 ← usage_step_of zero add div1000 fromisoformat self m b; usage_step_of zero add div1000 fromisoformat self m1 a).
Proof.
  unfold usage_step_of.
  destruct (truthy (a_gear_id a)) as [ga|]; cbn.
  2:{ now rewrite option_bind_Some_r. }
  destruct (truthy (a_gear_id b)) as [gb|]; cbn.
  2:{ now rewrite option_bind_Some_r. }
  destruct (decide (ga = gb)) as [<- | Hne].
  - set (u0 := default _ (m !! ga)).
    pose proof (update_usage_of_comm u0 a b) as H.
    destruct (update_usage_of add div1000 fromisoformat u0 a) as [ua|];
      destruct (update_usage_of add div1000 fromisoformat u0 b) as [ub|]; cbn in *.
    + rewrite !lookup_insert_eq. cbn. rewrite H.
      destruct (update_usage_of add div1000 fromisoformat ub a); cbn; [|reflexivity].
      now rewrite !insert_insert_eq.
    + rewrite lookup_insert_eq. cbn. now rewrite H.
    + rewrite lookup_insert_eq. cbn. now rewrite <- H.
    + reflexivity.
  - set (ua0 := default _ (m !! ga)).
    set (ub0 := default _ (m !! gb)).
    destruct (update_usage_of add div1000 fromisoformat ua0 a) as [ua|] eqn:Ea;
      destruct (update_usage_of add div1000 fromisoformat ub0 b) as [ub|] eqn:Eb; cbn.
    + rewrite !lookup_insert_ne by congruence.
      fold ua0 ub0. rewrite Ea, Eb. cbn.
      f_equal. apply insert_insert_ne. congruence.
    + rewrite lookup_insert_ne by congruence. fold ub0. now rewrite Eb.
    + rewrite lookup_insert_ne by congruence. fold ua0. now rewrite Ea.
    + reflexivity.
Qed.

Lemma usage_loop_of_permutation (self : Monitor) (l l' : list Activity) :
  Permutation l l' →
  ∀ m, usage_loop_of zero add div1000 fromisoformat self l m = usage_loop_of zero add div1000 fromisoformat self l' m.
Proof.
  induction 1 as [|a l l' _ IH|a b l|l l' l'' _ IH1 _ IH2]; intros m.
  - reflexivity.
  - cbn. destruct (usage_step_of zero add div1000 fromisoformat self m a); cbn; [apply IH|reflexivity].
  - cbn. pose proof (usage_step_of_comm self m b a) as H.
    destruct (usage_step_of zero add div1000 fromisoformat self m b) as [mb|];
      destruct (usage_step_of zero add div1000 fromisoformat self m a) as [ma|]; cbn in *.
    + rewrite H. reflexivity.
    + rewrite H. reflexivity.
    + rewrite <- H. reflexivity.
    + reflexivity.
  - now rewrite IH1.
Qed.

End NumbersOrder.

Section NumbersSkip.

Context {num : Type}.
Variable zero : num.
Variable add : num → Q → num.
Variable div1000 : num → num.
Variable fromisoformat : string → option datetime.

Lemma usage_loop_of_gear_bearing (self : Monitor) (l : list Activity)
    (m : gmap string (GearUsageOf num)) :
  usage_loop_of zero add div1000 fromisoformat self
    (List.filter gear_bearing l) m
  = usage_loop_of zero add div1000 fromisoformat self l m.
Proof.
  revert m. induction l as [|a l IH]; intros m; [reflexivity|].
  cbn [List.filter]. destruct (gear_bearing a) eqn:E.
  - cbn. destruct (usage_step_of zero add div1000 fromisoformat self m a);
      cbn; [apply IH|reflexivity].
  - cbn [usage_loop_of].
    assert (Hs : usage_step_of zero add div1000 fromisoformat self m a
                 = Some m).
    { unfold usage_step_of. unfold gear_bearing in E.
      now destruct (truthy (a_gear_id a)). }
    rewrite Hs. cbn. apply IH.
Qed.

End NumbersSkip.

(** The aggregation commutes with a map of the totals that commutes
    with the operations: the totals of one number type shadow those of
    another. *)
Section NumbersMap.

Context {num num' : Type}.
Variable zero : num.
Variable add : num → Q → num.
Variable div1000 : num → num.
Variable zero' : num'.
Variable add' : num' → Q → num'.
Variable div1000' : num' → num'.
Variable f : num → num'.
Variable fromisoformat : string → option datetime.

Hypothesis f_zero : f zero = zero'.
Hypothesis f_add : ∀ t d, f (add t d) = add' (f t) d.
Hypothesis f_div1000 : ∀ t, f (div1000 t) = div1000' (f t).

Lemma update_usage_of_map (u : GearUsageOf num) (a : Activity) :
  map_totals f <$> update_usage_of add div1000 fromisoformat u a
  = update_usage_of add' div1000' fromisoformat (map_totals f u) a.
Proof.
  unfold update_usage_of. cbn [map_totals gn_gear_id gn_sport_types
    gn_total_distance_m gn_total_distance_km gn_activities_count
    gn_first_activity_date gn_last_activity_date gn_maintenance_history].
  destruct (activity_date fromisoformat a) as [d|]; [|reflexivity].
  cbn [mbind option_bind].
  destruct (update_first _ d); [|reflexivity]. cbn [mbind option_bind].
  destruct (update_last _ d); [|reflexivity]. cbn.
  unfold map_totals. cbn. now rewrite f_div1000, f_add.
Qed.

Lemma usage_step_of_map (self : Monitor)
    (m : gmap string (GearUsageOf num)) (a : Activity) :
  fmap (M := gmap string) (map_totals f)
    <$> usage_step_of zero add div1000 fromisoformat self m a
  = usage_step_of zero' add' div1000' fromisoformat self
      (map_totals f <$> m) a.
Proof.
  unfold usage_step_of.
  destruct (truthy (a_gear_id a)) as [g|]; [|reflexivity].
  rewrite lookup_fmap.
  set (u := default _ (m !! g)).
  assert (Hu : default
                 (new_usage_of zero' g
                    (default [] (maintenance_records self !! g)))
                 (map_totals f <$> m !! g)
               = map_totals f u).
  { subst u. destruct (m !! g); [reflexivity|]. cbn.
    unfold map_totals, new_usage_of. cbn. now rewrite f_zero. }
  cbv zeta. rewrite Hu, <- update_usage_of_map.
  destruct (update_usage_of add div1000 fromisoformat u a); [|reflexivity].
  cbn. now rewrite fmap_insert.
Qed.

Lemma usage_loop_of_map (self : Monitor) (l : list Activity)
    (m : gmap string (GearUsageOf num)) :
  fmap (M := gmap string) (map_totals f)
    <$> usage_loop_of zero add div1000 fromisoformat self l m
  = usage_loop_of zero' add' div1000' fromisoformat self l
      (map_totals f <$> m).
Proof.
  revert m. induction l as [|a l IH]; intros m; [reflexivity|].
  cbn [usage_loop_of]. rewrite <- usage_step_of_map.
  destruct (usage_step_of zero add div1000 fromisoformat self m a);
    [|reflexivity].
  cbn [mbind option_bind fmap option_fmap option_map]. apply IH.
Qed.

End NumbersMap.

(** With the rationals and their exact operations, the aggregation is
    the aggregator of the other sections. *)
Lemma analyze_gear_usage_of_exact
    (fromisoformat : string → option datetime) (self : Monitor)
    (l : list Activity) :
  fmap (M := gmap string) to_usage
    <$> analyze_gear_usage_of 0%Q Qplus exact_div1000 fromisoformat self l
  = analyze_gear_usage fromisoformat self l.
Proof.
  unfold analyze_gear_usage_of, analyze_gear_usage.
  assert (H : ∀ m : gmap string (GearUsageOf Q),
            fmap (M := gmap string) to_usage
              <$> usage_loop_of 0%Q Qplus exact_div1000 fromisoformat self
                    l m
            = usage_loop fromisoformat self l (to_usage <$> m));
    [|now rewrite H, fmap_empty].
  induction l as [|a l IH]; intros m; [reflexivity|].
  cbn [usage_loop_of usage_loop].
  assert (Hstep : fmap (M := gmap string) to_usage
                    <$> usage_step_of 0%Q Qplus exact_div1000 fromisoformat
                          self m a
                  = usage_step fromisoformat self (to_usage <$> m) a).
  { unfold usage_step_of, usage_step.
    destruct (truthy (a_gear_id a)) as [g|]; [|reflexivity].
    rewrite lookup_fmap. cbv zeta.
    set (u := default _ (m !! g)).
    assert (Hu : default
                   (new_usage g (default [] (maintenance_records self !! g)))
                   (to_usage <$> m !! g)
                 = to_usage u).
    { subst u. now destruct (m !! g). }
    rewrite Hu.
    assert (Hup : to_usage
                    <$> update_usage_of Qplus exact_div1000 fromisoformat u a
                  = update_usage fromisoformat (to_usage u) a).
    { unfold update_usage_of, update_usage. cbn [to_usage gu_gear_id
        gu_sport_types gu_total_distance_m gu_total_distance_km
        gu_activities_count gu_first_activity_date gu_last_activity_date
        gu_maintenance_history].
      destruct (activity_date fromisoformat a) as [d|]; [|reflexivity].
      cbn [mbind option_bind].
      destruct (update_first _ d); [|reflexivity]. cbn [mbind option_bind].
      destruct (update_last _ d); reflexivity. }
    rewrite <- Hup.
    destruct (update_usage_of Qplus exact_div1000 fromisoformat u a);
      [|reflexivity].
    cbn. now rewrite fmap_insert. }
  rewrite <- Hstep.
  destruct (usage_step_of 0%Q Qplus exact_div1000 fromisoformat self m a);
    [|reflexivity].
  cbn [mbind option_bind fmap option_fmap option_map]. apply IH.
Qed.

Section OrderIndependence.

Context {num : Type}.
Variable zero : num.
Variable add : num → Q → num.
Variable div1000 : num → num.
Variable fromisoformat : string → option datetime.


End OrderIndependence.



Section Shape.

Variable fromisoformat : string → option datetime.

Lemma update_usage_shape (u u' : GearUsage) (a : Activity) :
  usage_shape u = usage_shape u' →
  usage_shape <$> update_usage fromisoformat u a
  = usage_shape <$> update_usage fromisoformat u' (without_distance a).
Proof.
  unfold usage_shape. intros [= Hg Hs Hc Hf Hl Hh].
  unfold update_usage, activity_date. cbn [a_start_date a_sport_type without_distance].
  rewrite Hg, Hs, Hc, Hf, Hl, Hh.
  destruct (a_start_date a ≫= _) as [d|]; cbn; [|reflexivity].
  destruct (update_first _ d); cbn; [|reflexivity].
  destruct (update_last _ d); cbn; reflexivity.
Qed.

Lemma usage_step_shape (self : Monitor) (m m' : gmap string GearUsage)
    (a : Activity) :
  usage_shape <$> m = usage_shape <$> m' →
  fmap (M := gmap string) usage_shape <$> usage_step fromisoformat self m a
  = fmap (M := gmap string) usage_shape
      <$> usage_step fromisoformat self m' (without_distance a).
Proof.
  intros Hm. unfold usage_step.
  change (a_gear_id (without_distance a)) with (a_gear_id a).
  destruct (truthy (a_gear_id a)) as [g|]; [|cbn; now rewrite Hm].
  set (u := default _ (m !! g)). set (u' := default _ (m' !! g)).
  assert (Hu : usage_shape u = usage_shape u').
  { subst u u'. pose proof (f_equal (λ x, x !! g) Hm) as Hg.
    cbn in Hg. rewrite !lookup_fmap in Hg.
    destruct (m !! g), (m' !! g); cbn in *; congruence. }
  pose proof (update_usage_shape u u' a Hu) as H.
  destruct (update_usage fromisoformat u a) as [v|],
    (update_usage fromisoformat u' (without_distance a)) as [v'|];
    cbn [fmap option_fmap option_map mbind option_bind] in *;
    try congruence.
  apply (inj Some) in H. now rewrite !fmap_insert, H, Hm.
Qed.

Lemma usage_loop_shape (self : Monitor) (l : list Activity)
    (m m' : gmap string GearUsage) :
  usage_shape <$> m = usage_shape <$> m' →
  fmap (M := gmap string) usage_shape <$> usage_loop fromisoformat self l m
  = fmap (M := gmap string) usage_shape
      <$> usage_loop fromisoformat self (map without_distance l) m'.
Proof.
  revert m m'. induction l as [|a l IH]; intros m m' Hm; cbn.
  - now rewrite Hm.
  - pose proof (usage_step_shape self m m' a Hm) as H.
    destruct (usage_step fromisoformat self m a) as [m1|],
      (usage_step fromisoformat self m' (without_distance a)) as [m1'|];
      cbn [fmap option_fmap option_map mbind option_bind] in *;
      try congruence.
    apply IH. now apply (inj Some) in H.
Qed.

(** The distances of the activities reach the two totals only: whether
    the aggregation raises, and every other field of its result, are
    those of the same feed with the distances dropped. *)
Lemma analyze_gear_usage_shape (self : Monitor) (l : list Activity) :
  fmap (M := gmap string) usage_shape
    <$> analyze_gear_usage fromisoformat self l
  = fmap (M := gmap string) usage_shape
      <$> analyze_gear_usage fromisoformat self (map without_distance l).
Proof. now apply usage_loop_shape. Qed.

End Shape.

Section MalformedDates.

Variable fromisoformat : string → option datetime.

Lemma usage_step_unparsed (self : Monitor) (m : gmap string GearUsage)
    (a : Activity) :
  gear_bearing a = true →
  activity_date fromisoformat a = None →
  usage_step fromisoformat self m a = None.
Proof.
  unfold gear_bearing, usage_step. intros Hg Hd.
  destruct (truthy (a_gear_id a)); [|discriminate].
  now rewrite (update_usage_unparsed _ _ _ Hd).
Qed.

Lemma usage_loop_unparsed (self : Monitor) (l : list Activity)
    (a : Activity) :
  In a l →
  gear_bearing a = true →
  activity_date fromisoformat a = None →
  ∀ m, usage_loop fromisoformat self l m = None.
Proof.
  intros Hin Hg Hd. induction l as [|b l IH]; intros m; [destruct Hin|].
  cbn. destruct Hin as [-> | Hin].
  - now rewrite usage_step_unparsed.
  - destruct (usage_step fromisoformat self m b); cbn; auto.
Qed.

(** C10. The Usage Aggregator does not tolerate a malformed date: when
    the list holds an activity with a gear id whose start date is
    missing or does not parse, [analyze_gear_usage] raises, whereas the
    Window Selector returns on the same list and leaves that activity
    out.  Hence the aggregation returns only if the start date of
    every gear-bearing activity parses. *)
Theorem analyze_gear_usage_raises_on_malformed_date (self : Monitor)
    (activities : list Activity) (bad : Activity)
    (s : option datetime) (e : datetime) :
  In bad activities →
  gear_bearing bad = true →
  activity_date fromisoformat bad = None →
  analyze_gear_usage fromisoformat self activities = None
  ∧ _get_activities_between_dates fromisoformat activities s e
    = List.filter (in_window fromisoformat s e) activities
  ∧ ¬ In bad (_get_activities_between_dates fromisoformat activities s e).
Proof.
  intros Hin Hg Hd.
  split; [now apply (usage_loop_unparsed self activities bad)|].
  split.
  - apply get_activities_between_dates_filter.
  - now apply get_activities_between_dates_skips.
Qed.

(** The same fact read from the result: a returning aggregation has
    parsed every gear-bearing start date. *)
Corollary analyze_gear_usage_returns_parsed (self : Monitor)
    (activities : list Activity) (usage : gmap string GearUsage) :
  analyze_gear_usage fromisoformat self activities = Some usage →
  ∀ a, In a activities → gear_bearing a = true →
       ∃ d, activity_date fromisoformat a = Some d.
Proof.
  intros H a Hin Hg.
  destruct (activity_date fromisoformat a) as [d|] eqn:Hd; [eauto|].
  unfold analyze_gear_usage in H.
  now rewrite (usage_loop_unparsed self activities a Hin Hg Hd) in H.
Qed.

End MalformedDates.

(** The feed of the scenario with its broken record: the aggregation
    raises, the selection returns the three good rides. *)
Lemma analyze_gear_usage_raises_on_malformed_date_witness :
  In Scenario.broken_ride
    [Scenario.ride1; Scenario.broken_ride; Scenario.ride3; Scenario.ride5]
  ∧ gear_bearing Scenario.broken_ride = true
  ∧ activity_date IsoBasic.fromisoformat Scenario.broken_ride = None
  ∧ analyze_gear_usage IsoBasic.fromisoformat Scenario.empty_monitor
      [Scenario.ride1; Scenario.broken_ride; Scenario.ride3; Scenario.ride5]
    = None
  ∧ _get_activities_between_dates IsoBasic.fromisoformat
      [Scenario.ride1; Scenario.broken_ride; Scenario.ride3; Scenario.ride5]
      None (Aware Scenario.day6)
    = [Scenario.ride1; Scenario.ride3; Scenario.ride5].
Proof.
  assert (Hin : In Scenario.broken_ride
                  [Scenario.ride1; Scenario.broken_ride; Scenario.ride3;
                   Scenario.ride5]) by (cbn; auto).
  assert (Hg : gear_bearing Scenario.broken_ride = true)
    by (vm_compute; reflexivity).
  assert (Hd : activity_date IsoBasic.fromisoformat Scenario.broken_ride
               = None) by (vm_compute; reflexivity).
  split; [exact Hin|]. split; [exact Hg|]. split; [exact Hd|].
  destruct (analyze_gear_usage_raises_on_malformed_date
              IsoBasic.fromisoformat Scenario.empty_monitor _
              Scenario.broken_ride None (Aware Scenario.day6) Hin Hg Hd)
    as (Hraise & Hsel & _).
  split; [exact Hraise|].
  rewrite Hsel. vm_compute. reflexivity.
Defined.

(** ** Service Interval Tracker *)

Lemma filter_maintenance_type_eq_str (records : list MaintenanceRecord)
    (item : string) :
  List.filter (λ r, maintenance_type_eq_str (mr_maintenance_type r) item)
    records = [].
Proof. induction records as [|r l IH]; cbn; auto. Qed.

(** For a non-empty item the history is empty, whatever is stored. *)
Lemma get_maintenance_history_item (self : Monitor) (gear_id item : string) :
  item ≠ EmptyString →
  get_maintenance_history self gear_id (Some item) = Some [].
Proof.
  intros Hne. unfold get_maintenance_history.
  destruct item as [|c item]; [congruence|]. cbn [truthy].
  now rewrite filter_maintenance_type_eq_str.
Qed.

(** C2, on the code. [add_service_interval] with a non-empty item fails
    and leaves the monitor as it was, whatever maintenance records are
    stored for the gear: the precondition compares the type of each
    record, a [MaintenanceType], with the item, a string, and finds no
    record.  So it fails as well when records exist. *)
Theorem add_service_interval_item_fails (self : Monitor)
    (gear_id item interval_type : string) (interval_value : Q)
    (action : string) :
  item ≠ EmptyString →
  add_service_interval self gear_id item interval_type interval_value action
  = (false, self).
Proof.
  intros Hne. unfold add_service_interval.
  now rewrite get_maintenance_history_item.
Qed.

(** The example of the specification on the code: with a wash recorded
    for [g1], adding a distance interval of 500 km for the item [WASH]
    fails. *)
Lemma add_service_interval_item_fails_witness :
  "WASH" ≠ EmptyString
  ∧ stored Scenario.washed_once "g1" = [Scenario.first_wash]
  ∧ add_service_interval Scenario.washed_once "g1" "WASH" "distance" 500
      "replace"
    = (false, Scenario.washed_once).
Proof.
  split; [discriminate|].
  split; [vm_compute; reflexivity|].
  apply (add_service_interval_item_fails Scenario.washed_once "g1" "WASH"
           "distance" 500 "replace").
  discriminate.
Defined.

(** What the rest of [add_service_interval] does once the precondition
    lets a history through (only the empty item does): the new interval
    is anchored to the record of the history with the latest date. *)
Lemma add_service_interval_anchor (self : Monitor)
    (gear_id item interval_type : string) (interval_value : Q)
    (action : string) (history : list MaintenanceRecord)
    (latest : MaintenanceRecord) :
  get_maintenance_history self gear_id (Some item) = Some history →
  max_by_date mr_date history = Some latest →
  interval_type = "time" ∨ interval_type = "distance" →
  Qle_bool interval_value 0 = false →
  ∃ interval,
    add_service_interval self gear_id item interval_type interval_value
      action
    = (true,
       with_service_intervals self
         (<[gear_id := default [] (service_intervals self !! gear_id)
                       ++ [interval]]> (service_intervals self)))
    ∧ si_last_service_date interval = Some (mr_date latest)
    ∧ si_last_service_distance interval = Some (calculate_distance latest)
    ∧ In latest history
    ∧ ∀ r, In r history → dt_le (mr_date r) (mr_date latest) = Some true.
Proof.
  intros Hh Hmax Hty Hv. unfold add_service_interval. rewrite Hh.
  destruct history as [|r0 rs]; [discriminate|].
  replace (String.eqb interval_type "time"
           || String.eqb interval_type "distance") with true
    by (destruct Hty as [-> | ->]; reflexivity).
  cbn [negb]. rewrite Hv. cbn [mbind option_bind]. rewrite Hmax.
  eexists. split; [reflexivity|]. cbn.
  split; [reflexivity|]. split; [reflexivity|].
  exact (max_by_date_spec mr_date _ _ Hmax).
Qed.

(** ** Component Lifecycle Manager *)

Section Lifecycle.

Variable fromisoformat : string → option datetime.

(** C3, on the code. When the old component is installed on the bike
    and the new component fails validation (it is unknown, or not in
    inventory once the old one has been updated), [swap_component]
    reports failure, yet the monitor it leaves holds the removal: the
    old component has its new status and mileage, and the removal
    entry is in the swap ledger. *)
Theorem swap_component_failed_install_keeps_removal (self : Monitor)
    (now_removed now_installed : Z) (activities : list Activity)
    (gear_id old_component_id new_id action : string)
    (notes : option string) (old_component : Component)
    (current_mileage : Q) :
  components self !! old_component_id = Some old_component →
  c_gear_id old_component = gear_id →
  current_mileage_of fromisoformat self activities gear_id
  = Some current_mileage →
  new_id ≠ EmptyString →
  (∀ c, <[old_component_id := removed old_component action current_mileage]>
          (components self) !! new_id = Some c →
        c_status c ≠ in_inventory) →
  swap_component fromisoformat self now_removed now_installed activities
    gear_id old_component_id (Some new_id) action notes
  = (false,
     with_components self
       (<[old_component_id := removed old_component action current_mileage]>
          (components self))
       (component_swaps self
        ++ [removal now_removed gear_id old_component_id action
              current_mileage notes])).
Proof.
  intros Hold <- Hkm Hne Hnew. unfold swap_component.
  rewrite Hold, String.eqb_refl, Hkm. cbn [negb].
  destruct new_id as [|ch new_id]; [congruence|]. cbn [truthy].
  cbn [components with_components].
  fold (removed old_component action current_mileage).
  destruct (<[old_component_id:=removed old_component action
                                  current_mileage]> (components self)
            !! String ch new_id) as [c|] eqn:E; [|reflexivity].
  specialize (Hnew c eq_refl).
  rewrite bool_decide_eq_false_2 by assumption. reflexivity.
Qed.

(** C4, on the code. [swap_component] does not look at the status of
    the old component: called on a retired component of the bike with
    an action other than [retire] and no new component, it succeeds
    and leaves that component [in_inventory]. *)
Theorem swap_component_revives_retired (self : Monitor)
    (now_removed now_installed : Z) (activities : list Activity)
    (gear_id old_component_id action : string) (notes : option string)
    (old_component : Component) (current_mileage : Q) :
  components self !! old_component_id = Some old_component →
  c_status old_component = retired →
  c_gear_id old_component = gear_id →
  current_mileage_of fromisoformat self activities gear_id
  = Some current_mileage →
  String.eqb action "retire" = false →
  ∃ self',
    swap_component fromisoformat self now_removed now_installed activities
      gear_id old_component_id None action notes
    = (true, self')
    ∧ c_status <$> components self' !! old_component_id
      = Some in_inventory.
Proof.
  intros Hold _ <- Hkm Hact. unfold swap_component.
  rewrite Hold, String.eqb_refl, Hkm, Hact. cbn.
  eexists. split; [reflexivity|]. cbn.
  now rewrite lookup_insert_eq.
Qed.

End Lifecycle.

(** The failing swap of the scenario: [chain_a] is in use on [g1],
    [chain_b] is retired.  Replacing [chain_a] by [chain_b] is refused,
    and [chain_a] is left in inventory at 35 km with its removal in the
    ledger. *)
Lemma swap_component_failed_install_keeps_removal_witness :
  components Scenario.workshop !! "chain_a"
  = Some (Scenario.component "chain_a" active 0)
  ∧ component_swaps Scenario.workshop = []
  ∧ swap_component IsoBasic.fromisoformat Scenario.workshop
      Scenario.day10 Scenario.day10
      [Scenario.ride1; Scenario.ride3; Scenario.ride5]
      "g1" "chain_a" (Some "chain_b") "remove" None
    = (false,
       with_components Scenario.workshop
         (<["chain_a" := removed (Scenario.component "chain_a" active 0)
                           "remove" (35000 # 1000)]>
            (components Scenario.workshop))
         (component_swaps Scenario.workshop
          ++ [removal Scenario.day10 "g1" "chain_a" "remove" (35000 # 1000)
                None]))
  ∧ c_status (removed (Scenario.component "chain_a" active 0) "remove"
                (35000 # 1000))
    = in_inventory.
Proof.
  split; [vm_compute; reflexivity|].
  split; [reflexivity|].
  split; [|reflexivity].
  apply (swap_component_failed_install_keeps_removal IsoBasic.fromisoformat
           Scenario.workshop Scenario.day10 Scenario.day10
           [Scenario.ride1; Scenario.ride3; Scenario.ride5]
           "g1" "chain_a" "chain_b" "remove" None
           (Scenario.component "chain_a" active 0) (35000 # 1000)).
  - vm_compute. reflexivity.
  - reflexivity.
  - vm_compute. reflexivity.
  - discriminate.
  - intros c H. vm_compute in H. injection H as <-. discriminate.
Defined.

(** The retired chain of the scenario, removed once more: it is back in
    inventory. *)
Lemma swap_component_revives_retired_witness :
  components Scenario.workshop !! "chain_b"
  = Some (Scenario.component "chain_b" retired 12)
  ∧ ∃ self',
      swap_component IsoBasic.fromisoformat Scenario.workshop
        Scenario.day10 Scenario.day10
        [Scenario.ride1; Scenario.ride3; Scenario.ride5]
        "g1" "chain_b" None "remove" None
      = (true, self')
      ∧ c_status <$> components self' !! "chain_b" = Some in_inventory.
Proof.
  split; [vm_compute; reflexivity|].
  apply (swap_component_revives_retired IsoBasic.fromisoformat
           Scenario.workshop Scenario.day10 Scenario.day10
           [Scenario.ride1; Scenario.ride3; Scenario.ride5]
           "g1" "chain_b" "remove" None
           (Scenario.component "chain_b" retired 12) (35000 # 1000)).
  - vm_compute. reflexivity.
  - reflexivity.
  - reflexivity.
  - vm_compute. reflexivity.
  - reflexivity.
Defined.

(** From there a second swap installs the once retired chain: retired,
    then in inventory, then active. *)
Example retired_component_back_in_use :
  let after_removal :=
    snd (swap_component IsoBasic.fromisoformat Scenario.workshop
           Scenario.day10 Scenario.day10
           [Scenario.ride1; Scenario.ride3; Scenario.ride5]
           "g1" "chain_b" None "remove" None) in
  let after_swap :=
    swap_component IsoBasic.fromisoformat after_removal
      Scenario.day10 Scenario.day10
      [Scenario.ride1; Scenario.ride3; Scenario.ride5; Scenario.ride8]
      "g1" "chain_a" (Some "chain_b") "retire" None in
  fst after_swap = true
  ∧ c_status <$> components (snd after_swap) !! "chain_b" = Some active.
Proof. vm_compute. split; reflexivity. Qed.

(** The same from an empty monitor, by the operations alone: a chain is
    installed, retired, and then moved to the inventory. *)
Example retired_component_trace :
  fst Scenario.chain_installed = Some "kmc_x11_1704535200"
  ∧ fst Scenario.chain_retired = true
  ∧ c_status <$> components (snd Scenario.chain_retired)
                   !! "kmc_x11_1704535200"
    = Some retired
  ∧ fst Scenario.chain_removed_again = true
  ∧ c_status <$> components (snd Scenario.chain_removed_again)
                   !! "kmc_x11_1704535200"
    = Some in_inventory.
Proof. repeat split; vm_compute; reflexivity. Qed.

(** The installation step does check the status: a component is made
    [active] by [swap_component] only from [in_inventory]. *)
Lemma swap_component_installs_from_inventory
    (fromisoformat : string → option datetime) (self self' : Monitor)
    (now_removed now_installed : Z) (activities : list Activity)
    (gear_id old_component_id new_id action : string)
    (notes : option string) (old_component : Component)
    (current_mileage : Q) :
  components self !! old_component_id = Some old_component →
  current_mileage_of fromisoformat self activities gear_id
  = Some current_mileage →
  new_id ≠ EmptyString →
  swap_component fromisoformat self now_removed now_installed activities
    gear_id old_component_id (Some new_id) action notes
  = (true, self') →
  c_status <$> (<[old_component_id := removed old_component action
                                        current_mileage]>
                  (components self) !! new_id)
  = Some in_inventory
  ∧ c_status <$> components self' !! new_id = Some active.
Proof.
  intros Hold Hkm Hne. unfold swap_component. rewrite Hold.
  destruct (negb (c_gear_id old_component =? gear_id)%string);
    [discriminate|].
  rewrite Hkm. destruct new_id as [|ch new_id]; [congruence|].
  cbn [truthy components with_components].
  fold (removed old_component action current_mileage).
  destruct (<[old_component_id:=removed old_component action
                                  current_mileage]> (components self)
            !! String ch new_id) as [c|] eqn:E; [|discriminate].
  destruct (bool_decide (c_status c = in_inventory)) eqn:B;
    cbn [negb]; [|discriminate].
  apply bool_decide_eq_true in B. intros [= <-]. cbn.
  rewrite B, lookup_insert_eq. split; reflexivity.
Qed.

(** ** Later maintenance and the stored intervals *)

(** Later maintenance does not touch the stored intervals. *)
Lemma record_maintenance_keeps_intervals
    (fromisoformat : string → option datetime) (self : Monitor) (now : Z)
    (activities : list Activity) (gear_id : string) (ty : MaintenanceType)
    (notes : option string) :
  service_intervals
    (snd (record_maintenance fromisoformat self now activities gear_id ty
            notes))
  = service_intervals self.
Proof.
  unfold record_maintenance.
  now destruct (previous_maintenance self gear_id ty).
Qed.

Lemma delete_maintenance_record_keeps_intervals (self : Monitor)
    (gear_id : string) (i : Z) :
  service_intervals (snd (delete_maintenance_record self gear_id i))
  = service_intervals self.
Proof.
  unfold delete_maintenance_record.
  destruct (maintenance_records self !! gear_id) as [records|];
    [|reflexivity].
  now destruct (negb _).
Qed.

(** ** The next-due computation *)

(** *** Rounding *)

(** The rounding moves a number by half a unit at most. *)
Lemma round_half_even_bounds (q : Q) :
  (inject_Z (round_half_even q) - (1 # 2) <= q
   ∧ q <= inject_Z (round_half_even q) + (1 # 2))%Q.
Proof.
  destruct q as [n d]. unfold round_half_even, Qle, Qminus, Qplus, Qopp,
    inject_Z. cbn [Qnum Qden].
  pose proof (Z.div_mod n (Z.pos d) ltac:(lia)) as Hdm.
  pose proof (Z.mod_pos_bound n (Z.pos d) ltac:(lia)) as Hr.
  set (f := n / Z.pos d) in *. set (r := n mod Z.pos d) in *.
  rewrite !Pos2Z.inj_mul.
  destruct (Z.compare_spec (2 * r) (Z.pos d)) as [E|E|E];
    [destruct (Z.even f)| |]; nia.
Qed.

Lemma round_half_even_inject_Z (n : Z) : round_half_even (inject_Z n) = n.
Proof.
  unfold round_half_even, inject_Z. cbn [Qnum Qden].
  rewrite Z.div_1_r, Z.mod_1_r. reflexivity.
Qed.

Lemma Qpow2_pos (k : Z) : (0 < Qpow2 k)%Q.
Proof.
  unfold Qpow2. destruct (Z.leb_spec 0 k).
  - unfold Qlt, inject_Z. cbn. pose proof (Z.pow_pos_nonneg 2 k). lia.
  - reflexivity.
Qed.

Lemma Qpow2_le_neg (k m : Z) : k <= - m → 0 <= m → (Qpow2 k <= 1 # Z.to_pos (2 ^ m))%Q.
Proof.
  intros Hk Hm. unfold Qpow2.
  destruct (Z.leb_spec 0 k).
  - assert (k = 0) by lia. assert (m = 0) by lia. subst. cbn. unfold Qle. cbn. lia.
  - unfold Qle. cbn [Qnum Qden].
    assert (0 < 2 ^ m) by (apply Z.pow_pos_nonneg; lia).
    assert (0 < 2 ^ (- k)) by (apply Z.pow_pos_nonneg; lia).
    rewrite !Z2Pos.id by lia.
    pose proof (Z.pow_le_mono_r 2 m (- k) ltac:(lia) ltac:(lia)). lia.
Qed.

(** [|x| < 2^m] puts the binary exponent of [x] below [m]. *)
Lemma Qlog2_lt (x : Q) (m : Z) :
  0 <= m → Z.abs (Qnum x) < 2 ^ m * Z.pos (Qden x) → Qlog2 x < m.
Proof.
  intros Hm Hx. destruct x as [n d]. unfold Qlog2. cbv zeta.
  cbn [Qnum Qden] in *.
  remember (Z.abs n) as a eqn:Ea.
  remember (Z.log2 a - Z.log2 (Z.pos d)) as k eqn:Ek.
  destruct (Z.ltb_spec k m) as [Hk|Hk].
  { destruct (Qle_bool _ _); lia. }
  destruct (Qle_bool (Qpow2 k) (a # d)) eqn:E.
  - (* 2^k <= a/d with k >= m *)
    apply Qle_bool_iff in E. unfold Qpow2 in E.
    destruct (Z.leb_spec 0 k); [|lia].
    unfold Qle, inject_Z in E. cbn [Qnum Qden] in E.
    pose proof (Z.pow_le_mono_r 2 m k ltac:(lia) ltac:(lia)).
    assert (0 < 2 ^ m) by (apply Z.pow_pos_nonneg; lia). nia.
  - (* k - 1 < m, so k = m *)
    destruct (Z.eq_dec k m) as [->|Hne]; [lia|]. exfalso.
    assert (Hk' : m + 1 <= k) by lia.
    assert (Ha : 0 < a).
    { destruct (Z.eq_dec a 0) as [Ez|]; [|lia]. rewrite Ez in Ek.
      change (Z.log2 0) with 0 in Ek. pose proof (Z.log2_nonneg (Z.pos d)). lia. }
    pose proof (Z.log2_spec a Ha) as [Hla _].
    pose proof (Z.log2_spec (Z.pos d) ltac:(lia)) as [_ Hld].
    pose proof (Z.log2_nonneg (Z.pos d)) as Hd0.
    pose proof (Z.log2_nonneg a) as Ha0.
    assert (Hs : Z.log2 a = k + Z.log2 (Z.pos d)) by lia.
    rewrite Hs, Z.pow_add_r in Hla by lia.
    rewrite Z.pow_succ_r in Hld by lia.
    pose proof (Z.pow_le_mono_r 2 (m + 1) k ltac:(lia) ltac:(lia)) as Hp.
    rewrite Z.pow_add_r, Z.pow_1_r in Hp by lia.
    assert (0 < 2 ^ m) by (apply Z.pow_pos_nonneg; lia).
    assert (0 < 2 ^ Z.log2 (Z.pos d)) by (apply Z.pow_pos_nonneg; lia).
    nia.
Qed.

(** The rounding error of [nearest64] is at most half a unit in the
    last place. *)
Lemma nearest64_error (x : Q) :
  (Qabs (nearest64 x - x) <= ulp64 x * (1 # 2))%Q.
Proof.
  unfold nearest64. destruct (Z.eqb_spec (Qnum x) 0) as [E|E].
  - apply (Qle_trans _ 0).
    + destruct x as [n d]. cbn in E. subst n. unfold Qle. cbn. lia.
    + apply Qlt_le_weak. apply Qmult_lt_0_compat; [|reflexivity].
      apply Qpow2_pos.
  - rewrite Qred_correct.
    pose proof (Qpow2_pos (Z.max (Qlog2 x - 52) (-1074))) as Hp.
    fold (ulp64 x) in Hp. set (p := ulp64 x) in *.
    pose proof (round_half_even_bounds (x / p)) as [H1 H2].
    set (n := inject_Z (round_half_even (x / p))) in *.
    assert (Hxp : (x == (x / p) * p)%Q).
    { field. intros Hz. rewrite Hz in Hp. discriminate. }
    clearbody n p. generalize dependent (x / p)%Q. intros y H1 H2 Hxp.
    apply Qabs_Qle_condition. split; nra.
Qed.

Lemma timedelta_weeks_us_whole (n : Z) :
  timedelta_weeks_us (inject_Z n) = n * week_us.
Proof.
  unfold timedelta_weeks_us. cbn [inject_Z Qnum Qden].
  rewrite Z.quot_1_r.
  replace (nearest64 (inject_Z week_us * (inject_Z n - inject_Z n)))
    with 0%Q.
  - unfold round_half_even, inject_Z, Qplus. cbn [Qnum Qden Pos.mul].
    rewrite Z.div_1_r, Z.mod_1_r. change (2 * 0 ?= Z.pos (1 * 1)) with Lt. cbv beta iota. lia.
  - unfold nearest64.
    replace (Qnum (inject_Z week_us * (inject_Z n - inject_Z n))) with 0;
      [reflexivity|].
    unfold inject_Z, Qminus, Qplus, Qopp, Qmult. cbn [Qnum Qden]. lia.
Qed.

(** The fractional part of the weeks, times the microseconds of a week,
    is below [2^40], so that its float is within [2^-14] of it. *)
Lemma week_fraction_error (weeks : Q) :
  let fracpart :=
    (weeks - inject_Z (Z.quot (Qnum weeks) (Z.pos (Qden weeks))))%Q in
  (Qabs (nearest64 (inject_Z week_us * fracpart)
         - inject_Z week_us * fracpart) <= 1 # 16384)%Q.
Proof.
  cbv zeta. set (x := (inject_Z week_us * _)%Q).
  apply (Qle_trans _ _ _ (nearest64_error x)).
  assert (Hlog : Qlog2 x < 40).
  { apply Qlog2_lt; [lia|]. subst x. destruct weeks as [n d].
    unfold inject_Z, Qminus, Qplus, Qopp, Qmult. cbn [Qnum Qden].
    pose proof (Z.quot_rem' n (Z.pos d)) as Hqr.
    pose proof (Z.rem_bound_abs n (Z.pos d) ltac:(lia)) as Hr.
    set (t := Z.quot n (Z.pos d)) in *.
    replace (n * 1 + - t * Z.pos d) with (Z.rem n (Z.pos d)) by lia.
    rewrite Z.abs_mul, !Pos2Z.inj_mul. unfold week_us.
    change (2 ^ 40) with 1099511627776. lia. }
  unfold ulp64.
  assert (Hq : Z.max (Qlog2 x - 52) (-1074) <= - 13) by lia.
  pose proof (Qpow2_le_neg _ 13 Hq ltac:(lia)) as Hp.
  change (1 # Z.to_pos (2 ^ 13))%Q with (1 # 8192)%Q in Hp.
  lra.
Qed.

(** [timedelta(weeks=w)] is [w] weeks to the microsecond. *)
Lemma timedelta_weeks_us_error (weeks : Q) :
  (Qabs (inject_Z (timedelta_weeks_us weeks) - weeks * inject_Z week_us)
   < 1)%Q.
Proof.
  pose proof (week_fraction_error weeks) as He. cbv zeta in He.
  unfold timedelta_weeks_us.
  set (t := Z.quot (Qnum weeks) (Z.pos (Qden weeks))) in *.
  set (x := (inject_Z week_us * (weeks - inject_Z t))%Q) in *.
  set (dnum := nearest64 x) in *.
  pose proof (round_half_even_bounds (inject_Z (t * week_us) + dnum))
    as [H1 H2].
  set (us := inject_Z (round_half_even (inject_Z (t * week_us) + dnum)))
    in *.
  assert (Hx : (x == weeks * inject_Z week_us - inject_Z (t * week_us))%Q).
  { subst x. rewrite inject_Z_mult. ring. }
  apply Qabs_Qle_condition in He as [He1 He2].
  clearbody us dnum x. apply Qabs_Qlt_condition. split; lra.
Qed.

Lemma Qpow2_Qpower (k : Z) : (Qpow2 k == Qpower 2 k)%Q.
Proof.
  unfold Qpow2. destruct (Z.leb_spec 0 k) as [Hk|Hk].
  - now rewrite Zpower_Qpower.
  - replace k with (- (- k)) at 2 by lia. rewrite Qpower_opp.
    rewrite <- (Zpower_Qpower 2 (- k)) by lia.
    assert (Hp : 0 < 2 ^ (- k)) by (apply Z.pow_pos_nonneg; lia).
    destruct (2 ^ (- k)) as [|p|p]; try lia. reflexivity.
Qed.

Lemma Qpow2_plus (a b : Z) : (Qpow2 (a + b) == Qpow2 a * Qpow2 b)%Q.
Proof.
  rewrite !Qpow2_Qpower. apply Qpower_plus. discriminate.
Qed.

(** The binary exponent is not above the number. *)
Lemma Qlog2_le (x : Q) : Qnum x ≠ 0 → (Qpow2 (Qlog2 x) <= Qabs x)%Q.
Proof.
  intros Hx. destruct x as [n d]. unfold Qlog2. cbv zeta.
  cbn [Qnum Qden Qabs] in *.
  remember (Z.abs n) as a eqn:Ea.
  remember (Z.log2 a - Z.log2 (Z.pos d)) as k eqn:Ek.
  destruct (Qle_bool (Qpow2 k) (a # d)) eqn:E.
  - now apply Qle_bool_iff in E.
  - assert (Ha : 0 < a) by lia.
    pose proof (Z.log2_spec a Ha) as [Hla _].
    pose proof (Z.log2_spec (Z.pos d) ltac:(lia)) as [_ Hld].
    pose proof (Z.log2_nonneg (Z.pos d)) as Hd0.
    pose proof (Z.log2_nonneg a) as Ha0.
    rewrite Z.pow_succ_r in Hld by lia.
    unfold Qpow2. destruct (Z.leb_spec 0 (k - 1)) as [Hk|Hk].
    + unfold Qle, inject_Z. cbn [Qnum Qden].
      assert (Hs : Z.log2 a = (k - 1) + (Z.log2 (Z.pos d) + 1)) by lia.
      rewrite Hs, Z.pow_add_r, Z.pow_add_r, Z.pow_1_r in Hla by lia.
      assert (0 < 2 ^ (k - 1)) by (apply Z.pow_pos_nonneg; lia).
      assert (0 < 2 ^ Z.log2 (Z.pos d)) by (apply Z.pow_pos_nonneg; lia).
      nia.
    + unfold Qle. cbn [Qnum Qden].
      assert (Hp : 0 < 2 ^ (- (k - 1))) by (apply Z.pow_pos_nonneg; lia).
      rewrite Z2Pos.id by lia.
      assert (Hs : Z.log2 (Z.pos d) + 1 = Z.log2 a + (- (k - 1))) by lia.
      assert (Hld' : Z.pos d < 2 ^ (Z.log2 (Z.pos d) + 1)).
      { rewrite Z.pow_add_r, Z.pow_1_r by lia. lia. }
      rewrite Hs, Z.pow_add_r in Hld' by lia.
      assert (0 < 2 ^ Z.log2 a) by (apply Z.pow_pos_nonneg; lia).
      nia.
Qed.

(** The relative error of the rounding. *)
Lemma nearest64_relative_error (x : Q) :
  (Qabs (nearest64 x - x)
   <= Qabs x * (1 # Z.to_pos (2 ^ 53)) + (1 # Z.to_pos (2 ^ 1075)))%Q.
Proof.
  pose proof (nearest64_error x) as He.
  pose proof (Qabs_nonneg x) as Hx0.
  destruct (Z.eq_dec (Qnum x) 0) as [E|E].
  - unfold nearest64 in *. rewrite (proj2 (Z.eqb_eq _ _) E) in *.
    assert (H0 : (Qabs (0 - x) <= 0)%Q).
    { destruct x as [n d]. cbn in E. subst n. unfold Qle. cbn. lia. }
    assert (Hp : (0 <= 1 # Z.to_pos (2 ^ 1075))%Q) by discriminate.
    assert (Hq : (0 <= Qabs x * (1 # Z.to_pos (2 ^ 53)))%Q).
    { apply Qmult_le_0_compat; [exact Hx0 | discriminate]. }
    lra.
  - apply (Qle_trans _ _ _ He). unfold ulp64.
    destruct (Z.max_spec (Qlog2 x - 52) (-1074)) as [[_ ->] | [Hm ->]].
    + assert (Hq : (0 <= Qabs x * (1 # Z.to_pos (2 ^ 53)))%Q).
      { apply Qmult_le_0_compat; [exact Hx0 | discriminate]. }
      assert (Hc : (Qpow2 (-1074) * (1 # 2) == 1 # Z.to_pos (2 ^ 1075))%Q)
        by (vm_compute; reflexivity).
      rewrite Hc. lra.
    + pose proof (Qlog2_le x E) as Hl.
      replace (Qlog2 x - 52) with (Qlog2 x + -52) by lia.
      rewrite Qpow2_plus.
      assert (Hc : (Qpow2 (-52) * (1 # 2) == 1 # Z.to_pos (2 ^ 53))%Q)
        by (vm_compute; reflexivity).
      assert (Hp : (0 <= 1 # Z.to_pos (2 ^ 1075))%Q) by discriminate.
      rewrite <- Qmult_assoc, Hc.
      assert (Hm' : (Qpow2 (Qlog2 x) * (1 # Z.to_pos (2 ^ 53))
                     <= Qabs x * (1 # Z.to_pos (2 ^ 53)))%Q).
      { apply Qmult_le_compat_r; [exact Hl | discriminate]. }
      lra.
Qed.

(** What [round64] returns for [x]. *)
Lemma round64_spec (x : Q) :
  match round64 x with
  | F64 r =>
      (Qabs (r - x)
       <= Qabs x * (1 # Z.to_pos (2 ^ 53)) + (1 # Z.to_pos (2 ^ 1075)))%Q
  | F64_inf _ => (Qpow2 1023 <= Qabs x)%Q
  end.
Proof.
  pose proof (nearest64_relative_error x) as He. unfold round64. cbv zeta.
  destruct (Qle_bool (Qpow2 1024) (nearest64 x)) eqn:E1;
    [|destruct (Qle_bool (nearest64 x) (- Qpow2 1024)) eqn:E2];
    [| |exact He].
  - apply Qle_bool_iff in E1.
    apply Qabs_Qle_condition in He as [He1 He2].
    pose proof (Qle_Qabs x) as Hx.
    set (r := nearest64 x) in *. set (ax := Qabs x) in *.
    clearbody r ax.
    let v := eval vm_compute in (Qpow2 1024) in
      change (Qpow2 1024) with v in E1.
    let v := eval vm_compute in (Qpow2 1023) in change (Qpow2 1023) with v.
    let v := eval vm_compute in (1 # Z.to_pos (2 ^ 53))%Q in
      change (1 # Z.to_pos (2 ^ 53))%Q with v in *.
    let v := eval vm_compute in (1 # Z.to_pos (2 ^ 1075))%Q in
      change (1 # Z.to_pos (2 ^ 1075))%Q with v in *.
    lra.
  - apply Qle_bool_iff in E2.
    apply Qabs_Qle_condition in He as [He1 He2].
    pose proof (Qle_Qabs (- x)) as Hx. rewrite Qabs_opp in Hx.
    set (r := nearest64 x) in *. set (ax := Qabs x) in *.
    clearbody r ax.
    let v := eval vm_compute in (Qpow2 1024) in
      change (Qpow2 1024) with v in E2.
    let v := eval vm_compute in (Qpow2 1023) in change (Qpow2 1023) with v.
    let v := eval vm_compute in (1 # Z.to_pos (2 ^ 53))%Q in
      change (1 # Z.to_pos (2 ^ 53))%Q with v in *.
    let v := eval vm_compute in (1 # Z.to_pos (2 ^ 1075))%Q in
      change (1 # Z.to_pos (2 ^ 1075))%Q with v in *.
    lra.
Qed.

(** *** timedelta and the sum with a date *)

(** Within the calendar, neither [timedelta] nor the sum raises. *)
Lemma dt_add_timedelta_weeks (utcoffset : datetime → Z) (d : datetime)
    (weeks : Q) :
  min_us ≤ wall_clock utcoffset d ≤ max_us →
  (inject_Z (min_us + 1)
   <= inject_Z (wall_clock utcoffset d) + weeks * inject_Z week_us)%Q →
  (inject_Z (wall_clock utcoffset d) + weeks * inject_Z week_us
   <= inject_Z (max_us - 1))%Q →
  timedelta_weeks weeks = Some (timedelta_weeks_us weeks)
  ∧ ∃ d',
      dt_add utcoffset d (timedelta_weeks_us weeks) = Some d'
      ∧ same_zone d d'
      ∧ instant d' = instant d + timedelta_weeks_us weeks.
Proof.
  intros Hd Hlo Hhi.
  pose proof (timedelta_weeks_us_error weeks) as He.
  apply Qabs_Qlt_condition in He as [He1 He2].
  set (us := timedelta_weeks_us weeks) in *.
  set (w := wall_clock utcoffset d) in *.
  assert (Hlo' : (inject_Z min_us < inject_Z (w + us))%Q).
  { rewrite inject_Z_plus. rewrite inject_Z_plus in Hlo.
    change (inject_Z min_us) with (-62135596800000000 # 1)%Q in *.
    change (inject_Z 1) with 1%Q in Hlo.
    clearbody us w. generalize dependent (weeks * inject_Z week_us)%Q.
    intros s; intros. lra. }
  assert (Hhi' : (inject_Z (w + us) < inject_Z max_us)%Q).
  { rewrite inject_Z_plus.
    change (inject_Z (max_us - 1)) with (253402300799999998 # 1)%Q in Hhi.
    change (inject_Z max_us) with (253402300799999999 # 1)%Q.
    clearbody us w. generalize dependent (weeks * inject_Z week_us)%Q.
    intros s; intros. lra. }
  rewrite <- Zlt_Qlt in Hlo', Hhi'.
  split.
  - unfold timedelta_weeks. fold us. cbv zeta.
    assert (Hdays : -999999999 ≤ us / day_us ≤ 999999999).
    { unfold day_us, min_us, max_us in *. clearbody us w.
      Z.div_mod_to_equations. lia. }
    destruct Hdays as [H1 H2].
    now rewrite (proj2 (Z.leb_le _ _) H1), (proj2 (Z.leb_le _ _) H2).
  - unfold dt_add. fold w. cbv zeta.
    rewrite (proj2 (Z.leb_le _ _) (Z.lt_le_incl _ _ Hlo')),
      (proj2 (Z.leb_le _ _) (Z.lt_le_incl _ _ Hhi')).
    cbn [andb]. eexists. split; [reflexivity|].
    destruct d; split; reflexivity || exact I.
Qed.

Section NextDueReports.

Variable utcoffset : datetime → Z.

(** The next-due value of one interval within reach. *)
Lemma next_service_due_in_range (interval : ServiceInterval) :
  due_in_range utcoffset interval →
  ∃ value,
    next_service_due utcoffset interval = Some value
    ∧ next_due_as_specified interval value.
Proof.
  unfold due_in_range, next_service_due, next_due_as_specified.
  destruct (si_last_service_date interval) as [d|]; [|eauto].
  destruct (String.eqb (si_interval_type interval) "time").
  - intros (Hd & Hlo & Hhi).
    destruct (dt_add_timedelta_weeks utcoffset d (si_interval_value interval)
                Hd Hlo Hhi) as (Ht & d' & Hadd & Hz & Hi).
    rewrite Ht. cbn [mbind option_bind]. rewrite Hadd.
    cbn [mbind option_bind]. eexists. split; [reflexivity|].
    exists d'. split; [reflexivity|]. split; [exact Hz|]. split.
    + rewrite Hi, inject_Z_plus.
      pose proof (timedelta_weeks_us_error (si_interval_value interval))
        as He.
      apply Qabs_Qlt_condition in He as [He1 He2].
      apply Qabs_Qlt_condition. split; lra.
    + intros n Hn. now rewrite Hi, Hn, timedelta_weeks_us_whole.
  - intros [km Hkm]. rewrite Hkm. cbn [mbind option_bind].
    eexists. split; [reflexivity|].
    exists km, (float_add km (si_interval_value interval)).
    split; [reflexivity|]. split; [reflexivity|].
    apply round64_spec.
Qed.

Lemma next_service_due_all_in_range (intervals : list ServiceInterval) :
  Forall (due_in_range utcoffset) intervals →
  ∃ values,
    mapM (next_service_due utcoffset) intervals = Some values
    ∧ Forall2 next_due_as_specified intervals values.
Proof.
  induction 1 as [|interval l Hi _ (values & Hv & Hs)].
  - exists []. split; [reflexivity | constructor].
  - destruct (next_service_due_in_range interval Hi) as (value & Hd & Hn).
    exists (value :: values). split.
    + cbn [mapM]. rewrite Hd, Hv. reflexivity.
    + now constructor.
Qed.

(** The reports read the stored intervals only. *)
Lemma service_reports_read_intervals (self self' : Monitor)
    (gear_id : string) (item : option string) :
  service_intervals self' = service_intervals self →
  print_service_intervals utcoffset self' gear_id item
  = print_service_intervals utcoffset self gear_id item
  ∧ display_service_intervals utcoffset self' gear_id item
    = display_service_intervals utcoffset self gear_id item.
Proof.
  intros H.
  unfold print_service_intervals, display_service_intervals,
    get_service_intervals.
  now rewrite H.
Qed.


End NextDueReports.

(** Out of the calendar the reports raise: a million weeks after day 6
    is past the year 9999.  A number of weeks with a fractional part is
    rounded as [timedelta] rounds it. *)
Example service_reports_overflow :
  print_service_intervals (λ _, 0)
    (with_service_intervals Scenario.washed_once
       {[ "g1" := [Scenario.chain_interval;
                   Scenario.million_weeks_interval] ]}) "g1" None
  = None
  ∧ timedelta_weeks (si_interval_value Scenario.million_weeks_interval)
    = Some (1000000 * week_us)
  ∧ timedelta_weeks (inject_Z 142857143) = None
  ∧ next_service_due (λ _, 0) Scenario.fractional_weeks_interval
    = Some (Some (NextServiceDate
                    (Aware (Scenario.day6 + 14346704592858)))).
Proof. repeat split; vm_compute; reflexivity. Qed.


(** * Further properties of the module *)

(** ** Window Selector: composition *)

(** A bound [s1] is not later than a bound [s2]; no bound is the
    earliest one. *)
Lemma in_window_nested (fromisoformat : string → option datetime)
    (s1 s2 : option datetime) (e1 e2 : datetime) (a : Activity) :
  match s1, s2 with
  | None, _ => True
  | Some x, Some y => dt_le x y = Some true
  | Some _, None => False
  end →
  dt_le e2 e1 = Some true →
  in_window fromisoformat s2 e2 a = true →
  in_window fromisoformat s1 e1 a = true.
Proof.
  unfold in_window. intros Hs He.
  destruct (activity_date fromisoformat a) as [d|]; [|discriminate].
  intros H. apply andb_true_iff in H as [H1 H2].
  apply andb_true_iff. split.
  - destruct s1 as [x|]; [|reflexivity].
    destruct s2 as [y|]; [|destruct Hs].
    destruct d as [d|d], x as [x|x], y as [y|y]; cbn in *;
      try discriminate;
      destruct (Z.compare_spec x y), (Z.compare_spec d y),
        (Z.compare_spec d x); try discriminate; try reflexivity; lia.
  - destruct d as [d|d], e1 as [x|x], e2 as [y|y]; cbn in *;
      try discriminate;
      destruct (Z.compare_spec y x), (Z.compare_spec d y),
        (Z.compare_spec d x); try discriminate; try reflexivity; lia.
Qed.

Section WindowComposition.

Variable fromisoformat : string → option datetime.

(** X1. The selection of a concatenated feed is the concatenation of
    the selections of its parts, and selecting again from a selection
    with the same bounds returns it unchanged. *)
Theorem get_activities_between_dates_app (l1 l2 : list Activity)
    (s : option datetime) (e : datetime) :
  _get_activities_between_dates fromisoformat (l1 ++ l2) s e
  = _get_activities_between_dates fromisoformat l1 s e
    ++ _get_activities_between_dates fromisoformat l2 s e
  ∧ _get_activities_between_dates fromisoformat
      (_get_activities_between_dates fromisoformat l1 s e) s e
    = _get_activities_between_dates fromisoformat l1 s e.
Proof.
  rewrite !get_activities_between_dates_filter. split.
  - apply List.filter_app.
  - rewrite filter_filter_andb. apply List.filter_ext.
    intros a. apply andb_diag.
Qed.

(** X2. Selecting a window from the selection of a window that contains
    it gives the selection of the inner window from the whole feed; two
    selections commute. *)
Theorem get_activities_between_dates_nested (l : list Activity)
    (s1 s2 : option datetime) (e1 e2 : datetime) :
  match s1, s2 with
  | None, _ => True
  | Some x, Some y => dt_le x y = Some true
  | Some _, None => False
  end →
  dt_le e2 e1 = Some true →
  _get_activities_between_dates fromisoformat
    (_get_activities_between_dates fromisoformat l s1 e1) s2 e2
  = _get_activities_between_dates fromisoformat l s2 e2
  ∧ _get_activities_between_dates fromisoformat
      (_get_activities_between_dates fromisoformat l s2 e2) s1 e1
    = _get_activities_between_dates fromisoformat l s2 e2.
Proof.
  intros Hs He. rewrite !get_activities_between_dates_filter.
  rewrite !filter_filter_andb. split; apply List.filter_ext; intros a.
  - destruct (in_window fromisoformat s2 e2 a) eqn:E; [|reflexivity].
    now rewrite (in_window_nested _ _ _ _ _ _ Hs He E).
  - destruct (in_window fromisoformat s2 e2 a) eqn:E;
      [|apply andb_false_r].
    now rewrite (in_window_nested _ _ _ _ _ _ Hs He E).
Qed.

(** X3. A window whose start is not known to be at or before its end
    selects nothing: the start is later than the end, or one bound is
    naive and the other aware, so that no date compares with both. *)
Theorem get_activities_between_dates_empty (l : list Activity)
    (s e : datetime) :
  dt_le s e ≠ Some true →
  _get_activities_between_dates fromisoformat l (Some s) e = [].
Proof.
  intros H. rewrite get_activities_between_dates_filter.
  induction l as [|a l IH]; [reflexivity|]. cbn [List.filter].
  rewrite IH. unfold in_window.
  destruct (activity_date fromisoformat a) as [d|]; [|reflexivity].
  destruct (holds (dt_ge d s) && holds (dt_le d e)) eqn:E; [|reflexivity].
  exfalso. apply H. apply andb_true_iff in E as [E1 E2].
  destruct d as [d|d], s as [s|s], e as [e|e]; cbn in *;
    try discriminate;
    destruct (Z.compare_spec d s), (Z.compare_spec d e),
      (Z.compare_spec s e); try discriminate; try reflexivity; lia.
Qed.

End WindowComposition.

(** The week of the scenario inside its month. *)
Lemma get_activities_between_dates_nested_witness :
  dt_le (Aware 0) (Aware Scenario.day6) = Some true
  ∧ dt_le (Aware Scenario.day10) (Aware (2 * Scenario.day10)) = Some true
  ∧ _get_activities_between_dates IsoBasic.fromisoformat
      (_get_activities_between_dates IsoBasic.fromisoformat
         Scenario.feed_day10 (Some (Aware 0)) (Aware (2 * Scenario.day10)))
      (Some (Aware Scenario.day6)) (Aware Scenario.day10)
    = [Scenario.ride_at_wash; Scenario.ride8].
Proof.
  split; [reflexivity|]. split; [reflexivity|].
  destruct (get_activities_between_dates_nested IsoBasic.fromisoformat
              Scenario.feed_day10 (Some (Aware 0))
              (Some (Aware Scenario.day6)) (Aware (2 * Scenario.day10))
              (Aware Scenario.day10) eq_refl eq_refl) as [H _].
  rewrite H. vm_compute. reflexivity.
Defined.

(** A window from day 10 back to day 6, and one with a naive start. *)
Lemma get_activities_between_dates_empty_witness :
  dt_le (Aware Scenario.day10) (Aware Scenario.day6) ≠ Some true
  ∧ _get_activities_between_dates IsoBasic.fromisoformat
      Scenario.feed_day10 (Some (Aware Scenario.day10))
      (Aware Scenario.day6)
    = []
  ∧ _get_activities_between_dates IsoBasic.fromisoformat
      Scenario.feed_day10 (Some (Naive 0)) (Aware Scenario.day10)
    = [].
Proof.
  split; [vm_compute; discriminate|].
  split.
  - apply (get_activities_between_dates_empty IsoBasic.fromisoformat).
    vm_compute. discriminate.
  - apply (get_activities_between_dates_empty IsoBasic.fromisoformat).
    vm_compute. discriminate.
Defined.

(** ** Maintenance Ledger: further properties of recording *)

Lemma previous_maintenance_none (self : Monitor) (gear_id : string)
    (ty : MaintenanceType) :
  (∀ r, In r (stored self gear_id) → mr_maintenance_type r ≠ ty) →
  previous_maintenance self gear_id ty = Some None.
Proof.
  unfold previous_maintenance, stored. intros H.
  destruct (maintenance_records self !! gear_id) as [records|]; cbn in *;
    [|reflexivity].
  destruct (List.filter _ records) as [|r rs] eqn:E; [reflexivity|].
  assert (Hin : In r (r :: rs)) by now left.
  rewrite <- E in Hin. apply List.filter_In in Hin as [Hin Hty].
  apply bool_decide_eq_true in Hty. now apply H in Hin.
Qed.

(** The outcome of a call that found [previous] as previous record. *)
Lemma record_maintenance_unfold
    (fromisoformat : string → option datetime) (self : Monitor) (now : Z)
    (activities : list Activity) (gear_id : string) (ty : MaintenanceType)
    (notes : option string) (previous : option MaintenanceRecord) :
  previous_maintenance self gear_id ty = Some previous →
  record_maintenance fromisoformat self now activities gear_id ty notes
  = (true,
     with_maintenance_records self
       (<[gear_id :=
            stored self gear_id
            ++ [ {| mr_gear_id := gear_id;
                    mr_maintenance_type := ty;
                    mr_date := Aware now;
                    mr_notes := notes;
                    mr_distance_at_maintenance := 0%Q;
                    mr_activities_since_last_maintenance :=
                      List.filter
                        (λ a, of_gear gear_id a
                              && in_window fromisoformat
                                   (mr_date <$> previous) (Aware now) a)
                        activities |} ]]>
          (maintenance_records self))).
Proof.
  intros H. unfold record_maintenance. rewrite H.
  rewrite get_activities_between_dates_filter, filter_filter_andb.
  reflexivity.
Qed.

Lemma record_maintenance_raises
    (fromisoformat : string → option datetime) (self : Monitor) (now : Z)
    (activities : list Activity) (gear_id : string) (ty : MaintenanceType)
    (notes : option string) :
  previous_maintenance self gear_id ty = None →
  record_maintenance fromisoformat self now activities gear_id ty notes
  = (false, self).
Proof. intros H. unfold record_maintenance. now rewrite H. Qed.

Section RecordingMore.

Variable fromisoformat : string → option datetime.

(** X4. The first record of a type for a gear has no lower bound: when
    no record of that type is stored for the gear, [record_maintenance]
    succeeds and the snapshot holds every activity of the gear whose
    start date parses and is not after now, however old. *)
Theorem record_maintenance_first_of_type (self : Monitor) (now : Z)
    (activities : list Activity) (gear_id : string)
    (ty : MaintenanceType) (notes : option string) :
  (∀ r, In r (stored self gear_id) → mr_maintenance_type r ≠ ty) →
  ∃ record,
    record_maintenance fromisoformat self now activities gear_id ty notes
    = (true,
       with_maintenance_records self
         (<[gear_id := stored self gear_id ++ [record]]>
            (maintenance_records self)))
    ∧ mr_maintenance_type record = ty
    ∧ mr_date record = Aware now
    ∧ mr_activities_since_last_maintenance record
      = List.filter
          (λ a, of_gear gear_id a
                && match activity_date fromisoformat a with
                   | Some d => holds (dt_le d (Aware now))
                   | None => false
                   end)
          activities.
Proof.
  intros H. apply previous_maintenance_none in H.
  rewrite (record_maintenance_unfold _ _ _ _ _ _ _ _ H).
  eexists. split; [reflexivity|]. cbn.
  split; [reflexivity|]. split; [reflexivity|].
  apply List.filter_ext. intros a. unfold in_window.
  now destruct (activity_date fromisoformat a).
Qed.

(** X5. [record_maintenance] touches the records of its gear only, and
    only by appending: a failing call leaves the monitor as it was; a
    succeeding call keeps every stored record of the gear at its
    position and adds one at the end, and leaves the records of every
    other gear, the intervals, the components and the swap ledger
    unchanged. *)
Theorem record_maintenance_frame (self : Monitor) (now : Z)
    (activities : list Activity) (gear_id : string)
    (ty : MaintenanceType) (notes : option string) :
  let result :=
    record_maintenance fromisoformat self now activities gear_id ty notes in
  (fst result = false → snd result = self)
  ∧ (fst result = true →
     ∃ record, stored (snd result) gear_id = stored self gear_id ++ [record])
  ∧ (∀ other, other ≠ gear_id →
       maintenance_records (snd result) !! other
       = maintenance_records self !! other)
  ∧ service_intervals (snd result) = service_intervals self
  ∧ components (snd result) = components self
  ∧ component_swaps (snd result) = component_swaps self.
Proof.
  cbn zeta.
  destruct (previous_maintenance self gear_id ty) as [previous|] eqn:H.
  - rewrite (record_maintenance_unfold _ _ _ _ _ _ _ _ H). cbn.
    split; [discriminate|]. split.
    + intros _. eexists. unfold stored at 1. cbn.
      now rewrite lookup_insert_eq.
    + split; [|repeat split]. intros other Hne. now apply lookup_insert_ne.
  - rewrite (record_maintenance_raises _ _ _ _ _ _ _ H). cbn.
    split; [reflexivity|]. split; [discriminate|]. repeat split.
Qed.

(** X6. Recording and then deleting the record just added, at the index
    after the last stored one, restores the stored records of the gear;
    when the gear already had an entry the whole monitor is restored. *)
Theorem record_then_delete_round_trip (self : Monitor) (now : Z)
    (activities : list Activity) (gear_id : string)
    (ty : MaintenanceType) (notes : option string) :
  fst (record_maintenance fromisoformat self now activities gear_id ty notes)
  = true →
  let recorded :=
    snd (record_maintenance fromisoformat self now activities gear_id ty
           notes) in
  let deleted :=
    delete_maintenance_record recorded gear_id
      (Z.of_nat (length (stored self gear_id)) + 1) in
  fst deleted = true
  ∧ stored (snd deleted) gear_id = stored self gear_id
  ∧ (is_Some (maintenance_records self !! gear_id) → snd deleted = self).
Proof.
  cbn zeta.
  destruct (previous_maintenance self gear_id ty) as [previous|] eqn:H.
  2:{ rewrite (record_maintenance_raises _ _ _ _ _ _ _ H). discriminate. }
  rewrite (record_maintenance_unfold _ _ _ _ _ _ _ _ H). cbn [fst snd].
  intros _.
  set (record := {| mr_gear_id := gear_id |}).
  set (recorded := with_maintenance_records self _).
  assert (Hstored : stored recorded gear_id = stored self gear_id ++ [record]).
  { unfold stored at 1, recorded. cbn. now rewrite lookup_insert_eq. }
  assert (Hrange : 1 ≤ Z.of_nat (length (stored self gear_id)) + 1
                   ≤ Z.of_nat (length (stored recorded gear_id))).
  { rewrite Hstored, length_app. cbn. lia. }
  rewrite (delete_maintenance_record_succeeds _ _ _ Hrange). cbn [fst snd].
  assert (Hrem : remove_nth1 (Z.of_nat (length (stored self gear_id)) + 1)
                   (stored recorded gear_id) = stored self gear_id).
  { rewrite Hstored. unfold remove_nth1.
    replace (Z.to_nat (Z.of_nat (length (stored self gear_id)) + 1 - 1))
      with (length (stored self gear_id)) by lia.
    replace (Z.to_nat (Z.of_nat (length (stored self gear_id)) + 1))
      with (S (length (stored self gear_id))) by lia.
    rewrite take_app_length.
    rewrite drop_app_ge by lia.
    replace (S (length (stored self gear_id)) - length (stored self gear_id))%nat
      with 1%nat by lia.
    cbn. apply app_nil_r. }
  rewrite Hrem. split; [reflexivity|]. split.
  - unfold stored at 1. cbn. now rewrite lookup_insert_eq.
  - intros [records Hrec]. unfold recorded. cbn.
    rewrite insert_insert_eq.
    unfold stored. rewrite Hrec. cbn. rewrite (insert_id _ _ _ Hrec).
    now destruct self.
Qed.

End RecordingMore.

(** The first wash of the scenario, recorded on an empty monitor with a
    feed that holds a ride of another bike and a broken record. *)
Lemma record_maintenance_first_of_type_witness :
  (∀ r, In r (stored Scenario.empty_monitor "g1") →
        mr_maintenance_type r ≠ WASH)
  ∧ record_maintenance IsoBasic.fromisoformat Scenario.empty_monitor
      Scenario.day6
      [Scenario.ride1; Scenario.other_ride; Scenario.ride3;
       Scenario.broken_ride; Scenario.ride5; Scenario.ride8]
      "g1" WASH None
    = (true, Scenario.washed_once)
  ∧ ∃ record,
      record_maintenance IsoBasic.fromisoformat Scenario.empty_monitor
        Scenario.day6
        [Scenario.ride1; Scenario.other_ride; Scenario.ride3;
         Scenario.broken_ride; Scenario.ride5; Scenario.ride8]
        "g1" WASH None
      = (true,
         with_maintenance_records Scenario.empty_monitor
           (<["g1" := stored Scenario.empty_monitor "g1" ++ [record]]>
              (maintenance_records Scenario.empty_monitor)))
      ∧ mr_maintenance_type record = WASH
      ∧ mr_date record = Aware Scenario.day6
      ∧ mr_activities_since_last_maintenance record
        = List.filter
            (λ a, of_gear "g1" a
                  && match activity_date IsoBasic.fromisoformat a with
                     | Some d => holds (dt_le d (Aware Scenario.day6))
                     | None => false
                     end)
            [Scenario.ride1; Scenario.other_ride; Scenario.ride3;
             Scenario.broken_ride; Scenario.ride5; Scenario.ride8].
Proof.
  assert (H : ∀ r, In r (stored Scenario.empty_monitor "g1") →
                   mr_maintenance_type r ≠ WASH) by (intros r []).
  split; [exact H|].
  split; [vm_compute; reflexivity|].
  exact (record_maintenance_first_of_type IsoBasic.fromisoformat
           Scenario.empty_monitor Scenario.day6
           [Scenario.ride1; Scenario.other_ride; Scenario.ride3;
            Scenario.broken_ride; Scenario.ride5; Scenario.ride8]
           "g1" WASH None H).
Defined.

(** The second wash of the scenario, recorded and deleted again. *)
Lemma record_then_delete_round_trip_witness :
  fst (record_maintenance IsoBasic.fromisoformat Scenario.washed_once
         Scenario.day10 Scenario.feed_day10 "g1" WASH None)
  = true
  ∧ delete_maintenance_record Scenario.washed_twice "g1" 2
    = (true, Scenario.washed_once)
  ∧ stored
      (snd (delete_maintenance_record
              (snd (record_maintenance IsoBasic.fromisoformat
                      Scenario.washed_once Scenario.day10
                      Scenario.feed_day10 "g1" WASH None))
              "g1" (Z.of_nat (length (stored Scenario.washed_once "g1")) + 1)))
      "g1"
    = stored Scenario.washed_once "g1".
Proof.
  assert (H : fst (record_maintenance IsoBasic.fromisoformat
                     Scenario.washed_once Scenario.day10
                     Scenario.feed_day10 "g1" WASH None) = true)
    by (vm_compute; reflexivity).
  split; [exact H|]. split; [vm_compute; reflexivity|].
  exact (proj1 (proj2 (record_then_delete_round_trip IsoBasic.fromisoformat
                         Scenario.washed_once Scenario.day10
                         Scenario.feed_day10 "g1" WASH None H))).
Defined.

(** ** Maintenance Ledger: consecutive records *)

(** Over aware keys none of which is later than [t], one of them being
    [t], [max] returns an element dated [t]. *)
Lemma max_by_date_latest {A : Type} (key : A → datetime) (l : list A)
    (t : Z) :
  (∀ x, In x l → ∃ u, key x = Aware u ∧ u ≤ t) →
  (∃ x, In x l ∧ key x = Aware t) →
  ∃ m, max_by_date key l = Some m ∧ key m = Aware t.
Proof.
  intros Hall (x0 & Hx0 & Hk0).
  destruct l as [|b l]; [destruct Hx0|].
  destruct (max_by_date_from_aware key l b) as [m Hm].
  - destruct (Hall b (or_introl eq_refl)) as (u & Hu & _). eauto.
  - intros x Hx. destruct (Hall x (or_intror Hx)) as (u & Hu & _). eauto.
  - exists m. split; [exact Hm|].
    destruct (max_by_date_spec key (b :: l) m Hm) as [Hin Hmax].
    destruct (Hall m Hin) as (u & Hu & Hle).
    specialize (Hmax x0 Hx0). rewrite Hk0, Hu in Hmax. cbn in Hmax.
    rewrite Hu. f_equal.
    destruct (Z.compare_spec t u); try discriminate; lia.
Qed.

Lemma previous_maintenance_latest_date (self : Monitor) (gear_id : string)
    (ty : MaintenanceType) (t : Z) :
  (∀ r, In r (stored self gear_id) → mr_maintenance_type r = ty →
        ∃ u, mr_date r = Aware u ∧ u ≤ t) →
  (∃ r, In r (stored self gear_id) ∧ mr_maintenance_type r = ty
        ∧ mr_date r = Aware t) →
  ∃ m, previous_maintenance self gear_id ty = Some (Some m)
       ∧ mr_date m = Aware t.
Proof.
  unfold previous_maintenance, stored. intros Hall (r0 & Hin0 & Hty0 & Hd0).
  destruct (maintenance_records self !! gear_id) as [records|]; cbn in *;
    [|destruct Hin0].
  destruct (max_by_date_latest mr_date
              (List.filter (λ r, bool_decide (mr_maintenance_type r = ty))
                 records) t) as (m & Hm & Hdate).
  - intros x Hx. apply List.filter_In in Hx as [Hx Hty].
    apply bool_decide_eq_true in Hty. auto.
  - exists r0. split; [|assumption]. apply List.filter_In.
    split; [assumption|]. now apply bool_decide_eq_true.
  - exists m. split; [|assumption].
    destruct (List.filter _ records) as [|r1 rs]; [discriminate|].
    now rewrite Hm.
Qed.

Lemma previous_maintenance_aware (self : Monitor) (gear_id : string)
    (ty : MaintenanceType) :
  (∀ r, In r (stored self gear_id) → mr_maintenance_type r = ty →
        ∃ u, mr_date r = Aware u) →
  ∃ previous, previous_maintenance self gear_id ty = Some previous.
Proof.
  unfold previous_maintenance, stored. intros Hall.
  destruct (maintenance_records self !! gear_id) as [records|]; cbn in *;
    [|eauto].
  destruct (List.filter _ records) as [|r1 rs] eqn:E; [eauto|].
  assert (Hsub : ∀ x, In x (r1 :: rs) → ∃ u, mr_date x = Aware u).
  { intros x Hx. rewrite <- E in Hx.
    apply List.filter_In in Hx as [Hx Hty].
    apply bool_decide_eq_true in Hty. auto. }
  destruct (max_by_date_from_aware mr_date rs r1) as [m Hm].
  - apply Hsub. now left.
  - intros x Hx. apply Hsub. now right.
  - cbn [max_by_date]. rewrite Hm. eauto.
Qed.

Section Consecutive.

Variable fromisoformat : string → option datetime.

(** X7. Two records of one type in a row: when every stored record of
    the type is dated at or before the first call, both calls succeed,
    the gear ends with its stored records followed by the two new ones,
    and the snapshot of the second is exactly the activities of the gear
    in its feed whose start date lies between the instants of the two
    calls, both included. *)
Theorem record_maintenance_consecutive (self : Monitor) (t1 t2 : Z)
    (activities1 activities2 : list Activity) (gear_id : string)
    (ty : MaintenanceType) (notes1 notes2 : option string) :
  (∀ r, In r (stored self gear_id) → mr_maintenance_type r = ty →
        ∃ u, mr_date r = Aware u ∧ u ≤ t1) →
  ∃ self1 self2 r1 r2,
    record_maintenance fromisoformat self t1 activities1 gear_id ty notes1
    = (true, self1)
    ∧ record_maintenance fromisoformat self1 t2 activities2 gear_id ty notes2
      = (true, self2)
    ∧ stored self2 gear_id = stored self gear_id ++ [r1; r2]
    ∧ mr_date r1 = Aware t1
    ∧ mr_date r2 = Aware t2
    ∧ mr_activities_since_last_maintenance r2
      = List.filter
          (λ a, of_gear gear_id a
                && in_window fromisoformat (Some (Aware t1)) (Aware t2) a)
          activities2.
Proof.
  intros Hall.
  destruct (previous_maintenance_aware self gear_id ty) as [p1 Hp1].
  { intros r Hr Hty. destruct (Hall r Hr Hty) as (u & Hu & _). eauto. }
  rewrite (record_maintenance_unfold _ _ _ _ _ _ notes1 _ Hp1).
  set (r1 := {| mr_gear_id := gear_id; mr_notes := notes1 |}).
  set (self1 := with_maintenance_records self _).
  assert (Hs1 : stored self1 gear_id = stored self gear_id ++ [r1]).
  { unfold stored at 1, self1. cbn. now rewrite lookup_insert_eq. }
  destruct (previous_maintenance_latest_date self1 gear_id ty t1)
    as (m & Hp2 & Hdate).
  { intros r Hr Hty. rewrite Hs1 in Hr. apply in_app_or in Hr as [Hr | Hr].
    - auto.
    - destruct Hr as [<- | []]. exists t1. split; [reflexivity | lia]. }
  { exists r1. rewrite Hs1. split; [|split; reflexivity].
    apply in_or_app. right. now left. }
  exists self1. eexists. exists r1. eexists.
  split; [reflexivity|].
  split; [exact (record_maintenance_unfold _ _ _ _ _ _ notes2 _ Hp2)|].
  split.
  - unfold stored at 1. cbn. rewrite lookup_insert_eq. cbn.
    rewrite Hs1, <- app_assoc. reflexivity.
  - cbn. rewrite Hdate. repeat split.
Qed.

End Consecutive.

(** The two washes of the scenario recorded in a row on the feed of
    day 10. *)
Lemma record_maintenance_consecutive_witness :
  (∀ r, In r (stored Scenario.empty_monitor "g1") →
        mr_maintenance_type r = WASH →
        ∃ u, mr_date r = Aware u ∧ u ≤ Scenario.day6)
  ∧ ∃ self1 self2 r1 r2,
      record_maintenance IsoBasic.fromisoformat Scenario.empty_monitor
        Scenario.day6 Scenario.feed_day10 "g1" WASH None
      = (true, self1)
      ∧ record_maintenance IsoBasic.fromisoformat self1 Scenario.day10
          Scenario.feed_day10 "g1" WASH None
        = (true, self2)
      ∧ stored self2 "g1" = stored Scenario.empty_monitor "g1" ++ [r1; r2]
      ∧ mr_date r1 = Aware Scenario.day6
      ∧ mr_date r2 = Aware Scenario.day10
      ∧ mr_activities_since_last_maintenance r2
        = List.filter
            (λ a, of_gear "g1" a
                  && in_window IsoBasic.fromisoformat
                       (Some (Aware Scenario.day6)) (Aware Scenario.day10) a)
            Scenario.feed_day10.
Proof.
  assert (H : ∀ r, In r (stored Scenario.empty_monitor "g1") →
                   mr_maintenance_type r = WASH →
                   ∃ u, mr_date r = Aware u ∧ u ≤ Scenario.day6)
    by (intros r []).
  split; [exact H|].
  exact (record_maintenance_consecutive IsoBasic.fromisoformat
           Scenario.empty_monitor Scenario.day6 Scenario.day10
           Scenario.feed_day10 Scenario.feed_day10 "g1" WASH None None H).
Defined.

(** ** Maintenance Ledger: the history query *)

Section SortedByDate.

Context {A : Type} (key : A → datetime).

Lemma insert_by_date_aware (x : A) (s : list A) :
  (∃ t, key x = Aware t) →
  (∀ y, In y s → ∃ t, key y = Aware t) →
  ∃ s', insert_by_date key x s = Some s'
        ∧ Permutation s' (x :: s)
        ∧ (Sorted (date_le key) s → Sorted (date_le key) s')
        ∧ (∀ z, HdRel (date_le key) z s → (date_le key) z x → HdRel (date_le key) z s').
Proof.
  intros [t Ht]. induction s as [|y s IH]; intros Hall; cbn.
  - exists [x]. split; [reflexivity|]. split; [reflexivity|].
    split; [repeat constructor|]. intros z _ Hz. now constructor.
  - destruct (Hall y (or_introl eq_refl)) as [u Hu].
    destruct IH as (s' & Hs' & Hperm & Hsort & Hhd).
    { intros z Hz. apply Hall. now right. }
    rewrite Hu, Ht. cbn. destruct (Z.compare_spec u t) as [Heq | Hlt | Hgt].
    + exists (x :: y :: s). split; [reflexivity|]. split; [reflexivity|].
      split.
      * intros Hs. constructor; [assumption|]. constructor.
        unfold date_le. rewrite Ht, Hu. cbn.
        destruct (Z.compare_spec t u); try reflexivity; lia.
      * intros z _ Hz. now constructor.
    + rewrite Hs'. cbn. exists (y :: s'). split; [reflexivity|].
      split; [rewrite Hperm; apply perm_swap|].
      split.
      * intros Hs. inversion Hs as [|? ? Hs0 Hhd0]; subst.
        constructor; [auto|]. apply Hhd; [assumption|].
        unfold date_le. rewrite Ht, Hu. cbn.
        destruct (Z.compare_spec u t); try reflexivity; lia.
      * intros z Hz _. inversion Hz; subst. now constructor.
    + exists (x :: y :: s). split; [reflexivity|]. split; [reflexivity|].
      split.
      * intros Hs. constructor; [assumption|]. constructor.
        unfold date_le. rewrite Ht, Hu. cbn.
        destruct (Z.compare_spec t u); try reflexivity; lia.
      * intros z _ Hz. now constructor.
Qed.

Lemma sorted_by_date_aware (l : list A) :
  (∀ y, In y l → ∃ t, key y = Aware t) →
  ∃ s, sorted_by_date key l = Some s
       ∧ Permutation s l
       ∧ Sorted (date_le key) s.
Proof.
  induction l as [|x l IH]; intros Hall; cbn.
  - exists []. repeat split; constructor.
  - destruct IH as (s & Hs & Hperm & Hsort).
    { intros y Hy. apply Hall. now right. }
    rewrite Hs. cbn.
    destruct (insert_by_date_aware x s) as (s' & Hs' & Hperm' & Hsort' & _).
    + apply Hall. now left.
    + intros y Hy. apply Hall. right.
      eapply Permutation_in; eassumption.
    + exists s'. split; [assumption|]. split; [|auto].
      rewrite Hperm'. now constructor.
Qed.

End SortedByDate.

(** X8. The history query of a gear without an item filter returns the
    stored records of the gear, each once, in ascending order of date,
    provided their dates are timezone-aware, as the dates the program
    itself creates are. *)
Theorem get_maintenance_history_sorted (self : Monitor) (gear_id : string) :
  (∀ r, In r (stored self gear_id) → ∃ t, mr_date r = Aware t) →
  ∃ history,
    get_maintenance_history self gear_id None = Some history
    ∧ Permutation history (stored self gear_id)
    ∧ Sorted (λ a b, dt_le (mr_date a) (mr_date b) = Some true) history.
Proof.
  intros Hall. unfold get_maintenance_history. cbn [truthy].
  fold (stored self gear_id).
  exact (sorted_by_date_aware mr_date (stored self gear_id) Hall).
Qed.

(** The two washes of the scenario, stored latest first, come back
    oldest first. *)
Lemma get_maintenance_history_sorted_witness :
  let self :=
    with_maintenance_records Scenario.empty_monitor
      {[ "g1" := [Scenario.second_wash; Scenario.first_wash] ]} in
  (∀ r, In r (stored self "g1") → ∃ t, mr_date r = Aware t)
  ∧ get_maintenance_history self "g1" None
    = Some [Scenario.first_wash; Scenario.second_wash]
  ∧ ∃ history,
      get_maintenance_history self "g1" None = Some history
      ∧ Permutation history (stored self "g1")
      ∧ Sorted (λ a b, dt_le (mr_date a) (mr_date b) = Some true) history.
Proof.
  cbn zeta.
  assert (H : ∀ r,
            In r (stored
                    (with_maintenance_records Scenario.empty_monitor
                       {[ "g1" := [Scenario.second_wash;
                                   Scenario.first_wash] ]}) "g1") →
            ∃ t, mr_date r = Aware t).
  { intros r Hr. vm_compute in Hr.
    destruct Hr as [<- | [<- | []]]; eexists; reflexivity. }
  split; [exact H|]. split; [vm_compute; reflexivity|].
  exact (get_maintenance_history_sorted _ "g1" H).
Defined.

(** ** Maintained items *)

Lemma get_maintained_items_loop (records : list MaintenanceRecord)
    (items : gmap MaintenanceType (list MaintenanceRecord))
    (ty : MaintenanceType) :
  fold_left
    (λ (items : gmap MaintenanceType (list MaintenanceRecord)) record,
       let items :=
         match items !! mr_maintenance_type record with
         | None => <[mr_maintenance_type record := []]> items
         | Some _ => items
         end in
       <[mr_maintenance_type record :=
           default [] (items !! mr_maintenance_type record) ++ [record]]>
         items)
    records items !! ty
  = match List.filter (λ r, bool_decide (mr_maintenance_type r = ty))
            records with
    | [] => items !! ty
    | group => Some (default [] (items !! ty) ++ group)
    end.
Proof.
  revert items. induction records as [|r records IH]; intros items;
    [reflexivity|].
  cbn [fold_left List.filter]. rewrite IH. clear IH.
  set (items1 := match items !! mr_maintenance_type r with
                 | None => <[mr_maintenance_type r := []]> items
                 | Some _ => items
                 end).
  assert (H1 : default [] (items1 !! mr_maintenance_type r)
               = default [] (items !! mr_maintenance_type r)).
  { subst items1. destruct (items !! mr_maintenance_type r) eqn:E.
    - now rewrite E.
    - now rewrite lookup_insert_eq. }
  rewrite H1.
  destruct (bool_decide (mr_maintenance_type r = ty)) eqn:B.
  - apply bool_decide_eq_true in B. subst ty.
    rewrite lookup_insert_eq. cbn.
    destruct (List.filter _ records); [reflexivity|].
    now rewrite <- app_assoc.
  - apply bool_decide_eq_false in B.
    rewrite lookup_insert_ne by assumption.
    assert (H2 : items1 !! ty = items !! ty).
    { subst items1. destruct (items !! mr_maintenance_type r);
        [reflexivity|]. now rewrite lookup_insert_ne. }
    now rewrite H2.
Qed.

(** The group of a type: its stored records, or no key without one. *)
Lemma get_maintained_items_lookup (self : Monitor) (gear_id : string)
    (ty : MaintenanceType) :
  get_maintained_items self gear_id !! ty
  = match of_type self gear_id ty with
    | [] => None
    | group => Some group
    end.
Proof.
  unfold get_maintained_items, of_type, stored.
  rewrite get_maintained_items_loop. rewrite lookup_empty.
  now destruct (List.filter _ _).
Qed.

(** X9. [get_maintained_items] groups the stored records of a gear by
    type: a type is a key exactly when a record of that type is stored,
    and its value is the list of those records in stored order, so that
    every stored record is in the group of its type and in no other. *)
Theorem get_maintained_items_groups (self : Monitor) (gear_id : string)
    (ty : MaintenanceType) :
  get_maintained_items self gear_id !! ty
  = match of_type self gear_id ty with
    | [] => None
    | group => Some group
    end
  ∧ ∀ r, In r (stored self gear_id) →
      ∀ ty', (∃ group, get_maintained_items self gear_id !! ty' = Some group
                       ∧ In r group)
             ↔ ty' = mr_maintenance_type r.
Proof.
  pose proof (get_maintained_items_lookup self gear_id) as H.
  split; [apply H|].
  intros r Hr ty'. rewrite H. split.
  - intros (group & Hg & Hin).
    destruct (of_type self gear_id ty') as [|r0 rs] eqn:E; [discriminate|].
    injection Hg as <-. rewrite <- E in Hin. unfold of_type in Hin.
    apply List.filter_In in Hin as [_ Hty].
    now apply bool_decide_eq_true in Hty.
  - intros ->.
    assert (Hin : In r (of_type self gear_id (mr_maintenance_type r))).
    { unfold of_type. apply List.filter_In. split; [assumption|].
      now apply bool_decide_eq_true. }
    destruct (of_type self gear_id (mr_maintenance_type r)) as [|r0 rs];
      [destruct Hin|]. eauto.
Qed.

Section PySorted.

Context {A : Type} (lt : A → A → option bool).

Lemma py_insert_perm (x : A) (s s' : list A) :
  py_insert lt x s = Some s' → Permutation s' (x :: s).
Proof.
  revert s'. induction s as [|y s IH]; intros s'; cbn.
  - now intros [= <-].
  - destruct (lt y x) as [[|]|]; cbn; [|now intros [= <-]|discriminate].
    destruct (py_insert lt x s) as [r|]; cbn; [|discriminate].
    intros [= <-]. rewrite (IH r eq_refl). apply perm_swap.
Qed.

Lemma py_sorted_perm (l s : list A) :
  py_sorted lt l = Some s → Permutation s l.
Proof.
  revert s. induction l as [|x l IH]; intros s; cbn.
  - now intros [= <-].
  - destruct (py_sorted lt l) as [r|]; cbn; [|discriminate].
    intros H. apply py_insert_perm in H. rewrite H.
    constructor. now apply IH.
Qed.

(** Two or more elements no two of which can be compared are not
    sorted. *)
Lemma py_sorted_incomparable (l : list A) :
  (2 ≤ length l)%nat →
  (∀ x y, In x l → In y l → x ≠ y → lt x y = None) →
  NoDup l →
  py_sorted lt l = None.
Proof.
  destruct l as [|x [|y l]]; cbn [length]; try lia. intros _ Hlt Hnd.
  change (py_sorted lt (x :: y :: l))
    with (s ← py_sorted lt (y :: l); py_insert lt x s).
  destruct (py_sorted lt (y :: l)) as [s|] eqn:E; [|reflexivity]. cbn.
  pose proof (py_sorted_perm _ _ E) as Hperm.
  destruct s as [|z s].
  { apply Permutation_length in Hperm. discriminate. }
  cbn. assert (Hz : In z (y :: l)).
  { eapply Permutation_in; [exact Hperm|]. now left. }
  rewrite (Hlt z x); [reflexivity| now right | now left |].
  intros ->. apply NoDup_cons in Hnd as [Hnd _].
  apply Hnd. now apply list_elem_of_In.
Qed.

End PySorted.

Section DisplayItems.

Variable records_lt :
  list MaintenanceRecord → list MaintenanceRecord → option bool.

(** X10. [display_maintained_items] raises as soon as the gear has
    stored records of two different maintenance types: the items are
    sorted as [(type, records)] tuples, and the types, members of an
    [Enum], have no order. *)
Theorem display_maintained_items_two_types (self : Monitor)
    (gear_id : string) (r1 r2 : MaintenanceRecord) :
  In r1 (stored self gear_id) →
  In r2 (stored self gear_id) →
  mr_maintenance_type r1 ≠ mr_maintenance_type r2 →
  display_maintained_items records_lt self gear_id = None.
Proof.
  intros H1 H2 Hne. unfold display_maintained_items.
  set (items := get_maintained_items self gear_id).
  assert (Hkey : ∀ r, In r (stored self gear_id) →
                 ∃ group, items !! mr_maintenance_type r = Some group).
  { intros r Hr. subst items. rewrite get_maintained_items_lookup.
    assert (Hin : In r (of_type self gear_id (mr_maintenance_type r))).
    { unfold of_type. apply List.filter_In. split; [assumption|].
      now apply bool_decide_eq_true. }
    destruct (of_type self gear_id (mr_maintenance_type r)) as [|r0 rs];
      [destruct Hin|]. eauto. }
  destruct (Hkey r1 H1) as [g1 Hg1]. destruct (Hkey r2 H2) as [g2 Hg2].
  rewrite py_sorted_incomparable; [reflexivity| | |].
  - apply elem_of_map_to_list in Hg1, Hg2.
    apply list_elem_of_In in Hg1, Hg2.
    pose proof (NoDup_map_to_list items) as Hnd.
    destruct (map_to_list items) as [|x [|y l]]; cbn.
    + destruct Hg1.
    + destruct Hg1 as [E1 | []]. destruct Hg2 as [E2 | []]. congruence.
    + lia.
  - intros x y Hx Hy Hxy. unfold item_lt.
    destruct (decide (x.1 = y.1)) as [Heq | ?]; [|reflexivity].
    exfalso. apply Hxy. destruct x as [kx vx], y as [ky vy]. cbn in Heq.
    subst ky. f_equal.
    apply list_elem_of_In, elem_of_map_to_list in Hx, Hy. congruence.
  - apply NoDup_map_to_list.
Qed.

End DisplayItems.

(** A gear washed once and lubed once cannot be displayed. *)
Lemma display_maintained_items_two_types_witness :
  In Scenario.first_wash (stored Garage.washed_and_lubed "g1")
  ∧ In Garage.lube (stored Garage.washed_and_lubed "g1")
  ∧ mr_maintenance_type Scenario.first_wash
    ≠ mr_maintenance_type Garage.lube
  ∧ display_maintained_items (λ _ _, Some false) Garage.washed_and_lubed
      "g1" = None.
Proof.
  assert (H1 : In Scenario.first_wash (stored Garage.washed_and_lubed "g1"))
    by (vm_compute; auto).
  assert (H2 : In Garage.lube (stored Garage.washed_and_lubed "g1"))
    by (vm_compute; auto).
  assert (H3 : mr_maintenance_type Scenario.first_wash
               ≠ mr_maintenance_type Garage.lube)
    by (vm_compute; discriminate).
  split; [exact H1|]. split; [exact H2|]. split; [exact H3|].
  exact (display_maintained_items_two_types (λ _ _, Some false)
           Garage.washed_and_lubed "g1" Scenario.first_wash Garage.lube
           H1 H2 H3).
Defined.


(** ** Usage Aggregator: what the result holds *)

Lemma dt_lt_true_le (a b : datetime) :
  dt_lt a b = Some true → dt_le a b = Some true.
Proof.
  destruct a as [x|x], b as [y|y]; cbn; try discriminate;
    destruct (Z.compare_spec x y); try discriminate; reflexivity.
Qed.

Lemma dt_lt_false_le (a b : datetime) :
  dt_lt a b = Some false → dt_le b a = Some true.
Proof.
  destruct a as [x|x], b as [y|y]; cbn; try discriminate;
    destruct (Z.compare_spec x y), (Z.compare_spec y x);
    try discriminate; try reflexivity; lia.
Qed.

Lemma of_gear_truthy (gear_id : string) (a : Activity) :
  of_gear gear_id a = true →
  gear_id ≠ EmptyString →
  truthy (a_gear_id a) = Some gear_id.
Proof.
  unfold of_gear. intros H Hne. apply bool_decide_eq_true in H.
  rewrite H. destruct gear_id; [congruence|reflexivity].
Qed.

Lemma truthy_Some (o : option string) (s : string) :
  truthy o = Some s → o = Some s ∧ s ≠ EmptyString.
Proof.
  destruct o as [[|c r]|]; cbn; try discriminate.
  intros [= <-]. split; [reflexivity|discriminate].
Qed.

Lemma truthy_None_of_gear (gear_id : string) (a : Activity) :
  truthy (a_gear_id a) = None →
  gear_id ≠ EmptyString →
  of_gear gear_id a = false.
Proof.
  unfold of_gear. intros H Hne. apply bool_decide_eq_false. intros E.
  rewrite E in H. destruct gear_id; [congruence|discriminate].
Qed.

Section AggregationResult.

Variable fromisoformat : string → option datetime.

Lemma usage_loop_lookup (self : Monitor) (l : list Activity)
    (m m' : gmap string GearUsage) (g : string) :
  usage_loop fromisoformat self l m = Some m' →
  g ≠ EmptyString →
  match rides_of g l with
  | [] => m' !! g = m !! g
  | rides =>
      ∃ u', usage_fold fromisoformat
              (default (new_usage g (stored self g)) (m !! g)) rides
            = Some u'
            ∧ m' !! g = Some u'
  end.
Proof.
  intros H Hne. revert m H. induction l as [|a l IH]; intros m; cbn.
  - now intros [= <-].
  - destruct (usage_step fromisoformat self m a) as [m1|] eqn:Hstep; cbn;
      [|discriminate].
    intros H. specialize (IH m1 H). unfold rides_of in *.
    cbn [List.filter]. unfold usage_step in Hstep.
    destruct (truthy (a_gear_id a)) as [ga|] eqn:Hga.
    + apply truthy_Some in Hga as [Hga Hgane].
      fold (stored self ga) in Hstep.
      destruct (update_usage fromisoformat _ a) as [ua|] eqn:Hua;
        cbn in Hstep; [|discriminate].
      injection Hstep as <-.
      destruct (decide (ga = g)) as [-> | Hneq].
      * assert (Hg : of_gear g a = true)
          by now apply bool_decide_eq_true.
        rewrite Hg. rewrite lookup_insert_eq in IH. cbn in IH.
        cbn [usage_fold]. rewrite Hua. cbn.
        destruct (List.filter (of_gear g) l) as [|r rs].
        -- exists ua. split; [reflexivity | exact IH].
        -- exact IH.
      * assert (Hg : of_gear g a = false).
        { apply bool_decide_eq_false. congruence. }
        rewrite Hg. rewrite lookup_insert_ne in IH by assumption.
        exact IH.
    + injection Hstep as <-.
      now rewrite (truthy_None_of_gear g a Hga Hne).
Qed.

Lemma usage_loop_lookup_empty (self : Monitor) (l : list Activity)
    (m m' : gmap string GearUsage) :
  usage_loop fromisoformat self l m = Some m' →
  m' !! EmptyString = m !! EmptyString.
Proof.
  revert m. induction l as [|a l IH]; intros m; cbn.
  - now intros [= <-].
  - destruct (usage_step fromisoformat self m a) as [m1|] eqn:Hstep; cbn;
      [|discriminate].
    intros H. rewrite (IH m1 H). unfold usage_step in Hstep.
    destruct (truthy (a_gear_id a)) as [ga|] eqn:Hga.
    + apply truthy_Some in Hga as [_ Hgane].
      destruct (update_usage fromisoformat _ a); cbn in Hstep;
        [|discriminate].
      injection Hstep as <-. now apply lookup_insert_ne.
    + now injection Hstep as <-.
Qed.

Lemma usage_fold_totals (l : list Activity) (u u' : GearUsage) :
  usage_fold fromisoformat u l = Some u' →
  gu_gear_id u' = gu_gear_id u
  ∧ gu_maintenance_history u' = gu_maintenance_history u
  ∧ gu_activities_count u' = gu_activities_count u + Z.of_nat (length l)
  ∧ gu_total_distance_m u'
    = fold_left Qplus (map get_distance l) (gu_total_distance_m u)
  ∧ gu_sport_types u' = gu_sport_types u ∪ sport_types_of l
  ∧ (l ≠ [] →
     gu_total_distance_km u' = Qdiv (gu_total_distance_m u') 1000).
Proof.
  revert u. induction l as [|a l IH]; intros u; cbn [usage_fold].
  - intros [= <-]. unfold sport_types_of. cbn.
    repeat split; try lia; [now rewrite (right_id_L ∅ (∪))|congruence].
  - destruct (update_usage fromisoformat u a) as [ua|] eqn:Hua; cbn;
      [|discriminate].
    intros H. destruct (IH ua H) as (Hg & Hh & Hc & Ht & Hs & Hk).
    unfold update_usage in Hua.
    destruct (activity_date fromisoformat a); cbn in Hua; [|discriminate].
    destruct (update_first _ _); cbn in Hua; [|discriminate].
    destruct (update_last _ _); cbn in Hua; [|discriminate].
    injection Hua as <-. cbn in *.
    split; [assumption|]. split; [assumption|].
    split; [rewrite Hc; lia|]. split; [assumption|]. split.
    + rewrite Hs. unfold sport_types_of. cbn.
      destruct (truthy (a_sport_type a)); cbn; [|reflexivity].
      now rewrite (assoc_L (∪)).
    + intros _. destruct l as [|b l]; [|apply Hk; discriminate].
      cbn in H. now injection H as <-.
Qed.

Lemma update_usage_dates (seen : list datetime) (u u' : GearUsage)
    (a : Activity) :
  dates_bracketed seen u →
  update_usage fromisoformat u a = Some u' →
  ∃ d, activity_date fromisoformat a = Some d
       ∧ dates_bracketed (seen ++ [d]) u'.
Proof.
  intros Hinv Hua. unfold update_usage in Hua.
  destruct (activity_date fromisoformat a) as [d|]; cbn in Hua;
    [|discriminate].
  exists d. split; [reflexivity|].
  destruct (update_first _ d) as [f'|] eqn:Hf; cbn in Hua; [|discriminate].
  destruct (update_last _ d) as [l'|] eqn:Hl; cbn in Hua; [|discriminate].
  injection Hua as <-. right. exists f', l'. cbn.
  split; [reflexivity|]. split; [reflexivity|].
  destruct Hinv as [(-> & Hf0 & Hl0) | (f & l & Hf0 & Hl0 & Hfin & Hlin & Hall)].
  - rewrite Hf0 in Hf. rewrite Hl0 in Hl. cbn in Hf, Hl.
    injection Hf as <-. injection Hl as <-. cbn.
    split; [now left|]. split; [now left|].
    intros x [<- | []]. split; apply dt_le_refl.
  - rewrite Hf0 in Hf. rewrite Hl0 in Hl. cbn in Hf, Hl.
    destruct (dt_lt d f) as [bf|] eqn:Ef; cbn in Hf; [|discriminate].
    destruct (dt_gt d l) as [bl|] eqn:El; cbn in Hl; [|discriminate].
    injection Hf as <-. injection Hl as <-.
    assert (Hf' : dt_le (if bf then d else f) d = Some true
                  ∧ dt_le (if bf then d else f) f = Some true).
    { destruct bf.
      - split; [apply dt_le_refl | now apply dt_lt_true_le].
      - split; [now apply dt_lt_false_le | apply dt_le_refl]. }
    assert (Hl' : dt_le d (if bl then d else l) = Some true
                  ∧ dt_le l (if bl then d else l) = Some true).
    { destruct bl.
      - split; [apply dt_le_refl | now apply dt_gt_true_le].
      - split; [now apply dt_gt_false_le | apply dt_le_refl]. }
    destruct Hf' as [Hfd Hff]. destruct Hl' as [Hld Hll].
    split; [|split].
    + apply in_or_app. destruct bf; [right; now left | now left].
    + apply in_or_app. destruct bl; [right; now left | now left].
    + intros x Hx. apply in_app_or in Hx as [Hx | [<- | []]].
      * destruct (Hall x Hx) as [H1 H2]. split.
        -- eapply dt_le_trans; eassumption.
        -- eapply dt_le_trans; eassumption.
      * split; assumption.
Qed.

Lemma usage_fold_dates (l : list Activity) (seen : list datetime)
    (u u' : GearUsage) :
  dates_bracketed seen u →
  usage_fold fromisoformat u l = Some u' →
  ∃ ds, Forall2 (λ a d, activity_date fromisoformat a = Some d) l ds
        ∧ dates_bracketed (seen ++ ds) u'.
Proof.
  revert seen u. induction l as [|a l IH]; intros seen u Hinv;
    cbn [usage_fold].
  - intros [= <-]. exists []. split; [constructor|].
    now rewrite app_nil_r.
  - destruct (update_usage fromisoformat u a) as [ua|] eqn:Hua; cbn;
      [|discriminate].
    intros H.
    destruct (update_usage_dates seen u ua a Hinv Hua) as (d & Hd & Hinv').
    destruct (IH _ _ Hinv' H) as (ds & Hds & Hfin).
    exists (d :: ds). split; [now constructor|].
    now rewrite <- app_assoc in Hfin.
Qed.

(** The entry of a gear in a returning aggregation. *)
Lemma usage_entry (self : Monitor)
    (activities : list Activity) (usage : gmap string GearUsage)
    (gear_id : string) :
  analyze_gear_usage fromisoformat self activities = Some usage →
  match truthy (Some gear_id) with
  | None => usage !! gear_id = None
  | Some _ =>
      match rides_of gear_id activities with
      | [] => usage !! gear_id = None
      | rides =>
          ∃ u, usage !! gear_id = Some u
               ∧ gu_gear_id u = gear_id
               ∧ gu_activities_count u = Z.of_nat (length rides)
               ∧ gu_total_distance_m u = py_sum (map get_distance rides)
               ∧ gu_total_distance_km u
                 = Qdiv (py_sum (map get_distance rides)) 1000
               ∧ gu_sport_types u = sport_types_of rides
               ∧ gu_maintenance_history u = stored self gear_id
      end
  end.
Proof.
  unfold analyze_gear_usage. intros H.
  destruct gear_id as [|c g]; cbn [truthy].
  { rewrite (usage_loop_lookup_empty _ _ _ _ H). apply lookup_empty. }
  pose proof (usage_loop_lookup self activities ∅ usage (String c g) H)
    as Hl.
  destruct (rides_of (String c g) activities) as [|r rs] eqn:E.
  - rewrite Hl; [apply lookup_empty | discriminate].
  - destruct Hl as (u & Hfold & Hu); [discriminate|].
    rewrite lookup_empty in Hfold. cbn [default] in Hfold.
    destruct (usage_fold_totals _ _ _ Hfold)
      as (Hg & Hh & Hc & Ht & Hs & Hk).
    exists u.
    cbn [gu_gear_id gu_maintenance_history gu_activities_count
         gu_total_distance_m gu_sport_types new_usage] in Hg, Hh, Hc, Ht, Hs.
    split; [assumption|]. split; [assumption|]. split; [rewrite Hc; lia|].
    split; [exact Ht|]. split.
    + rewrite Hk by discriminate. now rewrite Ht.
    + split; [|assumption]. rewrite Hs. apply (left_id_L ∅ (∪)).
Qed.

(** X11. What a returning aggregation holds for a gear: no entry for
    the empty gear id or for a gear without activity; otherwise one
    usage whose count is the number of activities of the gear, whose
    metre total is the sum of their distances in feed order (a missing
    distance counting 0), whose kilometre total is that sum divided by
    1000, whose sport types are those the activities name, and whose
    maintenance history is the stored records of the gear. *)
Theorem analyze_gear_usage_totals (self : Monitor)
    (activities : list Activity) (usage : gmap string GearUsage)
    (gear_id : string) :
  analyze_gear_usage fromisoformat self activities = Some usage →
  match truthy (Some gear_id) with
  | None => usage !! gear_id = None
  | Some _ =>
      match rides_of gear_id activities with
      | [] => usage !! gear_id = None
      | rides =>
          ∃ u, usage !! gear_id = Some u
               ∧ gu_gear_id u = gear_id
               ∧ gu_activities_count u = Z.of_nat (length rides)
               ∧ gu_total_distance_m u = py_sum (map get_distance rides)
               ∧ gu_total_distance_km u
                 = Qdiv (py_sum (map get_distance rides)) 1000
               ∧ gu_sport_types u = sport_types_of rides
               ∧ gu_maintenance_history u = stored self gear_id
      end
  end.
Proof. apply usage_entry. Qed.

(** X12. In a returning aggregation the first and last activity dates
    of a gear are start dates of activities of that gear, and the start
    date of every activity of the gear parses and lies between them:
    they are the earliest and the latest one. *)
Theorem analyze_gear_usage_dates (self : Monitor)
    (activities : list Activity) (usage : gmap string GearUsage)
    (gear_id : string) (u : GearUsage) :
  analyze_gear_usage fromisoformat self activities = Some usage →
  usage !! gear_id = Some u →
  ∃ first last,
    gu_first_activity_date u = Some first
    ∧ gu_last_activity_date u = Some last
    ∧ (∃ a, In a (rides_of gear_id activities)
            ∧ activity_date fromisoformat a = Some first)
    ∧ (∃ a, In a (rides_of gear_id activities)
            ∧ activity_date fromisoformat a = Some last)
    ∧ ∀ a, In a (rides_of gear_id activities) →
        ∃ d, activity_date fromisoformat a = Some d
             ∧ dt_le first d = Some true
             ∧ dt_le d last = Some true.
Proof.
  unfold analyze_gear_usage. intros H Hu.
  destruct gear_id as [|c g].
  { rewrite (usage_loop_lookup_empty _ _ _ _ H), lookup_empty in Hu.
    discriminate. }
  pose proof (usage_loop_lookup self activities ∅ usage (String c g) H)
    as Hl.
  destruct (rides_of (String c g) activities) as [|r rs] eqn:E.
  { rewrite Hl, lookup_empty in Hu; [discriminate | discriminate]. }
  destruct Hl as (u' & Hfold & Hu'); [discriminate|].
  rewrite Hu in Hu'. injection Hu' as <-.
  rewrite lookup_empty in Hfold. cbn [default] in Hfold.
  destruct (usage_fold_dates (r :: rs) []
              (new_usage (String c g) (stored self (String c g))) u)
    as (ds & Hds & Hinv); [left; repeat split | exact Hfold |].
  cbn [app] in Hinv.
  destruct Hinv as [(-> & _) | (f & l & Hf & Hl & Hfin & Hlin & Hall)].
  { inversion Hds. }
  assert (Hback : ∀ d, In d ds →
            ∃ a, In a (r :: rs) ∧ activity_date fromisoformat a = Some d).
  { clear -Hds. induction Hds as [|a d l ds Had _ IH]; intros x Hx;
      [destruct Hx|].
    destruct Hx as [<- | Hx].
    - exists a. split; [now left | assumption].
    - destruct (IH x Hx) as (b & Hb & Hbd). exists b.
      split; [now right | assumption]. }
  assert (Hforth : ∀ a, In a (r :: rs) →
            ∃ d, In d ds ∧ activity_date fromisoformat a = Some d).
  { clear -Hds. induction Hds as [|a d l ds Had _ IH]; intros x Hx;
      [destruct Hx|].
    destruct Hx as [<- | Hx].
    - exists d. split; [now left | assumption].
    - destruct (IH x Hx) as (e & He & Hxe). exists e.
      split; [now right | assumption]. }
  exists f, l. split; [assumption|]. split; [assumption|].
  split; [now apply Hback|]. split; [now apply Hback|].
  intros a Ha. destruct (Hforth a Ha) as (d & Hd & Had).
  exists d. split; [assumption|]. now apply Hall.
Qed.

End AggregationResult.

Lemma sport_types_of_one (s : string) (rides : list Activity) :
  s ≠ EmptyString →
  Forall (λ a, a_sport_type a = Some s) rides →
  sport_types_of rides = match rides with [] => ∅ | _ => {[ s ]} end.
Proof.
  intros Hne H. unfold sport_types_of.
  induction H as [|a l Ha Hl IH]; [reflexivity|]. cbn.
  rewrite Ha. destruct s as [|c s]; [congruence|]. cbn.
  rewrite IH. destruct l; [apply (right_id_L ∅ (∪))|].
  apply (idemp_L (∪)).
Qed.

Section AggregationUses.

Variable fromisoformat : string → option datetime.

(** X13. Aggregating a feed filtered by a sport type books that sport
    type alone: every usage of the result has exactly that one sport
    type, and counts the activities of its gear that have it. *)
Theorem analyze_filtered_by_sport_type (self : Monitor)
    (activities : list Activity) (sport_type : string)
    (usage : gmap string GearUsage) (gear_id : string) (u : GearUsage) :
  sport_type ≠ EmptyString →
  analyze_gear_usage fromisoformat self
    (filter_activities_by_sport_type activities sport_type)
  = Some usage →
  usage !! gear_id = Some u →
  gu_sport_types u = {[ sport_type ]}
  ∧ gu_activities_count u
    = Z.of_nat
        (length
           (List.filter
              (λ a, of_gear gear_id a
                    && bool_decide (a_sport_type a = Some sport_type))
              activities)).
Proof.
  intros Hne H Hu.
  pose proof (usage_entry fromisoformat _ _ _ gear_id H) as He.
  destruct (truthy (Some gear_id)); [|congruence].
  unfold rides_of, filter_activities_by_sport_type in He.
  rewrite filter_filter_andb in He.
  destruct (List.filter _ activities) as [|r rs] eqn:E; [congruence|].
  destruct He as (u' & Hu' & _ & Hc & _ & _ & Hs & _).
  rewrite Hu in Hu'. injection Hu' as <-.
  split; [|exact Hc].
  rewrite Hs. rewrite (sport_types_of_one sport_type); [reflexivity|assumption|].
  rewrite <- E. apply Forall_forall. intros a Ha.
  apply list_elem_of_In, List.filter_In in Ha as [_ Ha].
  apply andb_true_iff in Ha as [_ Ha]. now apply bool_decide_eq_true in Ha.
Qed.

(** The mileage stamped on components is the kilometre total of the
    gear. *)
Lemma current_mileage_of_km (self : Monitor)
    (activities : list Activity) (gear_id : string) :
  current_mileage_of fromisoformat self activities gear_id
  = (_ ← analyze_gear_usage fromisoformat self activities;
     Some (gear_distance_km gear_id activities)).
Proof.
  unfold current_mileage_of, gear_distance_km.
  destruct (analyze_gear_usage fromisoformat self activities)
    as [usage|] eqn:H; [|reflexivity].
  pose proof (usage_entry fromisoformat _ _ _ gear_id H) as He.
  cbn [mbind option_bind]. f_equal.
  destruct gear_id as [|c g].
  - cbn [truthy] in He |- *. now rewrite He.
  - change (truthy (Some (String c g))) with (Some (String c g)) in He |- *.
    cbv beta iota in He |- *.
    destruct (rides_of (String c g) activities) as [|r rs].
    + now rewrite He.
    + destruct He as (u & -> & _ & _ & _ & Hk & _). exact Hk.
Qed.

(** X14. The mileage that [add_component] and [swap_component] stamp:
    the computation raises exactly when the aggregation of the fetched
    activities does; otherwise it is the sum of the distances of the
    activities of the gear divided by 1000, and 0 for a gear without
    activity. *)
Theorem current_mileage_of_sum (self : Monitor)
    (activities : list Activity) (gear_id : string) :
  current_mileage_of fromisoformat self activities gear_id
  = (_ ← analyze_gear_usage fromisoformat self activities;
     Some (gear_distance_km gear_id activities)).
Proof. apply current_mileage_of_km. Qed.

End AggregationUses.

(** The feed of the garage: four activities of [g1], one of them a
    gravel ride, one of [g2], and a run without gear. *)
Lemma analyze_gear_usage_totals_witness :
  ∃ usage,
    analyze_gear_usage IsoBasic.fromisoformat Scenario.washed_once
      Garage.feed = Some usage
    ∧ match truthy (Some "g1") with
      | None => usage !! "g1" = None
      | Some _ =>
          match rides_of "g1" Garage.feed with
          | [] => usage !! "g1" = None
          | rides =>
              ∃ u, usage !! "g1" = Some u
                   ∧ gu_gear_id u = "g1"
                   ∧ gu_activities_count u = Z.of_nat (length rides)
                   ∧ gu_total_distance_m u = py_sum (map get_distance rides)
                   ∧ gu_total_distance_km u
                     = Qdiv (py_sum (map get_distance rides)) 1000
                   ∧ gu_sport_types u = sport_types_of rides
                   ∧ gu_maintenance_history u
                     = stored Scenario.washed_once "g1"
          end
      end
    ∧ length (rides_of "g1" Garage.feed) = 4%nat
    ∧ py_sum (map get_distance (rides_of "g1" Garage.feed)) = 43000%Q.
Proof.
  destruct (analyze_gear_usage IsoBasic.fromisoformat Scenario.washed_once
              Garage.feed) as [usage|] eqn:E.
  - exists usage. split; [reflexivity|].
    split; [|split; vm_compute; reflexivity].
    exact (analyze_gear_usage_totals IsoBasic.fromisoformat
             Scenario.washed_once Garage.feed usage "g1" E).
  - vm_compute in E. discriminate.
Defined.

Lemma analyze_gear_usage_dates_witness :
  ∃ usage u,
    analyze_gear_usage IsoBasic.fromisoformat Scenario.washed_once
      Garage.feed = Some usage
    ∧ usage !! "g1" = Some u
    ∧ ∃ first last,
        gu_first_activity_date u = Some first
        ∧ gu_last_activity_date u = Some last
        ∧ (∃ a, In a (rides_of "g1" Garage.feed)
                ∧ activity_date IsoBasic.fromisoformat a = Some first)
        ∧ (∃ a, In a (rides_of "g1" Garage.feed)
                ∧ activity_date IsoBasic.fromisoformat a = Some last)
        ∧ ∀ a, In a (rides_of "g1" Garage.feed) →
            ∃ d, activity_date IsoBasic.fromisoformat a = Some d
                 ∧ dt_le first d = Some true
                 ∧ dt_le d last = Some true.
Proof.
  destruct (analyze_gear_usage IsoBasic.fromisoformat Scenario.washed_once
              Garage.feed) as [usage|] eqn:E;
    [|vm_compute in E; discriminate].
  destruct (usage !! "g1") as [u|] eqn:Eu.
  - exists usage, u. split; [reflexivity|]. split; [exact Eu|].
    exact (analyze_gear_usage_dates IsoBasic.fromisoformat
             Scenario.washed_once Garage.feed usage "g1" u E Eu).
  - exfalso. vm_compute in E. injection E as <-. vm_compute in Eu.
    discriminate.
Defined.

Lemma analyze_filtered_by_sport_type_witness :
  ∃ usage u,
    "GravelRide" ≠ EmptyString
    ∧ analyze_gear_usage IsoBasic.fromisoformat Scenario.washed_once
        (filter_activities_by_sport_type Garage.feed "GravelRide")
      = Some usage
    ∧ usage !! "g1" = Some u
    ∧ gu_sport_types u = {[ "GravelRide" ]}
    ∧ gu_activities_count u = 1.
Proof.
  destruct (analyze_gear_usage IsoBasic.fromisoformat Scenario.washed_once
              (filter_activities_by_sport_type Garage.feed "GravelRide"))
    as [usage|] eqn:E; [|vm_compute in E; discriminate].
  destruct (usage !! "g1") as [u|] eqn:Eu.
  - exists usage, u. split; [discriminate|]. split; [reflexivity|].
    split; [exact Eu|].
    destruct (analyze_filtered_by_sport_type IsoBasic.fromisoformat
                Scenario.washed_once Garage.feed "GravelRide" usage "g1" u)
      as [Hs Hc]; [discriminate | exact E | exact Eu |].
    split; [exact Hs|]. rewrite Hc. vm_compute. reflexivity.
  - exfalso. vm_compute in E. injection E as <-. vm_compute in Eu.
    discriminate.
Defined.

(** ** Service intervals *)

Lemma string_ltb_asym (x y : string) :
  String.ltb x y = true → String.ltb y x = false.
Proof.
  unfold String.ltb. rewrite (String.compare_antisym x y).
  now destruct (String.compare y x).
Qed.

Lemma string_ltb_irrefl (x : string) : String.ltb x x = false.
Proof.
  destruct (String.ltb x x) eqn:E; [|reflexivity].
  now rewrite (string_ltb_asym x x E) in E.
Qed.

Lemma insert_by_item_perm (x : ServiceInterval) (s : list ServiceInterval) :
  Permutation (insert_by_item x s) (x :: s).
Proof.
  induction s as [|y r IH]; [reflexivity|]. cbn [insert_by_item].
  destruct (String.ltb (si_item y) (si_item x)); [|reflexivity].
  rewrite IH. apply perm_swap.
Qed.

Lemma insert_by_item_sorted (x : ServiceInterval) (s : list ServiceInterval) :
  Sorted item_le s → Sorted item_le (insert_by_item x s).
Proof.
  induction s as [|y r IH]; intros Hs.
  - repeat constructor.
  - cbn [insert_by_item].
    destruct (String.ltb (si_item y) (si_item x)) eqn:E.
    + apply Sorted_inv in Hs as [Hr Hy]. constructor; [now apply IH|].
      destruct r as [|z r]; cbn [insert_by_item].
      * constructor. now apply string_ltb_asym.
      * destruct (String.ltb (si_item z) (si_item x)).
        -- constructor. now inversion Hy.
        -- constructor. now apply string_ltb_asym.
    + constructor; [assumption|]. now constructor.
Qed.

Lemma sorted_by_item_spec (l : list ServiceInterval) :
  Sorted item_le (sorted_by_item l) ∧ Permutation (sorted_by_item l) l.
Proof.
  induction l as [|x l [IH1 IH2]]; [split; constructor|].
  cbn [sorted_by_item foldr]. fold (sorted_by_item l). split.
  - now apply insert_by_item_sorted.
  - rewrite insert_by_item_perm. now constructor.
Qed.

(** Intervals of one item keep their order. *)
Lemma sorted_by_item_one_item (k : string) (l : list ServiceInterval) :
  Forall (λ x, si_item x = k) l → sorted_by_item l = l.
Proof.
  induction 1 as [|x l Hx Hl IH]; [reflexivity|].
  cbn [sorted_by_item foldr]. fold (sorted_by_item l). rewrite IH.
  destruct Hl as [|y r Hy _]; [reflexivity|]. cbn [insert_by_item].
  now rewrite Hx, Hy, string_ltb_irrefl.
Qed.

Lemma lower_ascii_idemp (c : ascii) :
  lower_ascii (lower_ascii c) = lower_ascii c.
Proof. destruct c as [[] [] [] [] [] [] [] []]; reflexivity. Qed.

Lemma lower_idemp (s : string) : lower (lower s) = lower s.
Proof.
  induction s as [|c s IH]; [reflexivity|]. cbn [lower].
  now rewrite lower_ascii_idemp, IH.
Qed.

Lemma get_service_intervals_listed (self : Monitor) (gear_id : string)
    (item : option string) :
  get_service_intervals self gear_id item
  = sorted_by_item (listed_intervals self gear_id item).
Proof.
  unfold get_service_intervals, listed_intervals, stored_intervals.
  now destruct (truthy item).
Qed.

(** X15. [get_service_intervals] returns the stored intervals of the
    gear that the item filter keeps (all of them without a filter), each
    once, in ascending order of item. *)
Theorem get_service_intervals_sorted (self : Monitor) (gear_id : string)
    (item : option string) :
  Sorted item_le (get_service_intervals self gear_id item)
  ∧ Permutation (get_service_intervals self gear_id item)
      (listed_intervals self gear_id item).
Proof. rewrite get_service_intervals_listed. apply sorted_by_item_spec. Qed.

(** X16. With an item filter the intervals come in stored order, and the
    filter ignores the case of the query: the item is lowered before it
    is compared with the stored ones. *)
Theorem get_service_intervals_item (self : Monitor) (gear_id item : string) :
  item ≠ EmptyString →
  get_service_intervals self gear_id (Some item)
  = List.filter (λ x, String.eqb (si_item x) (lower item))
      (stored_intervals self gear_id)
  ∧ get_service_intervals self gear_id (Some (lower item))
    = get_service_intervals self gear_id (Some item).
Proof.
  intros Hne.
  assert (H : ∀ i, i ≠ EmptyString →
            get_service_intervals self gear_id (Some i)
            = List.filter (λ x, String.eqb (si_item x) (lower i))
                (stored_intervals self gear_id)).
  { intros i Hi. rewrite get_service_intervals_listed.
    unfold listed_intervals. destruct i as [|c i]; [congruence|].
    cbn [truthy]. apply (sorted_by_item_one_item (lower (String c i))).
    apply Forall_forall. intros x Hx.
    apply list_elem_of_In, List.filter_In in Hx as [_ Hx].
    now apply String.eqb_eq in Hx. }
  split; [now apply H|].
  rewrite !H; [now rewrite lower_idemp | assumption |].
  destruct item; [congruence | discriminate].
Qed.

Lemma get_service_intervals_item_witness :
  "Chain" ≠ EmptyString
  ∧ get_service_intervals Garage.serviced "g1" (Some "Chain")
    = [Scenario.chain_interval; Scenario.weekly_interval]
  ∧ get_service_intervals Garage.serviced "g1" (Some (lower "Chain"))
    = get_service_intervals Garage.serviced "g1" (Some "Chain").
Proof.
  assert (Hne : "Chain" ≠ EmptyString) by discriminate.
  destruct (get_service_intervals_item Garage.serviced "g1" "Chain" Hne)
    as [H1 H2].
  split; [exact Hne|]. split; [|exact H2].
  rewrite H1. vm_compute. reflexivity.
Defined.

Lemma mapM_None_In {A B : Type} (f : A → option B) (l : list A) (x : A) :
  In x l → f x = None → mapM f l = None.
Proof.
  intros Hin Hx. destruct (mapM f l) as [k|] eqn:E; [|reflexivity].
  assert (Hs : is_Some (mapM f l)) by eauto.
  apply mapM_is_Some in Hs. rewrite Forall_forall in Hs.
  apply list_elem_of_In in Hin. apply Hs in Hin. cbn in Hin.
  rewrite Hx in Hin. now destruct Hin.
Qed.

(** X17. One interval blocks the reports of its gear: when a listed
    interval has a last service date, is not a time interval and has no
    distance at the last service, [print_service_intervals] and
    [display_service_intervals] raise, whatever the other intervals
    are. *)
Theorem service_reports_blocked (utcoffset : datetime → Z) (self : Monitor)
    (gear_id : string) (item : option string) (interval : ServiceInterval)
    (date : datetime) :
  In interval (listed_intervals self gear_id item) →
  si_last_service_date interval = Some date →
  String.eqb (si_interval_type interval) "time" = false →
  si_last_service_distance interval = None →
  print_service_intervals utcoffset self gear_id item = None
  ∧ display_service_intervals utcoffset self gear_id item = None.
Proof.
  intros Hin Hd Ht Hn.
  assert (Hin' : In interval (get_service_intervals self gear_id item)).
  { rewrite get_service_intervals_listed.
    apply (Permutation_in interval
             (Permutation_sym
                (proj2 (sorted_by_item_spec
                          (listed_intervals self gear_id item))))).
    exact Hin. }
  assert (Hf : next_service_due utcoffset interval = None).
  { unfold next_service_due. now rewrite Hd, Ht, Hn. }
  unfold print_service_intervals, display_service_intervals.
  split; exact (mapM_None_In _ _ _ Hin' Hf).
Qed.

Lemma service_reports_blocked_witness :
  In Garage.brake_interval (listed_intervals Garage.serviced "g1" None)
  ∧ print_service_intervals (λ _, 0) Garage.serviced "g1" None = None
  ∧ display_service_intervals (λ _, 0) Garage.serviced "g1" None = None.
Proof.
  assert (Hin : In Garage.brake_interval
                  (listed_intervals Garage.serviced "g1" None))
    by (vm_compute; auto).
  split; [exact Hin|].
  exact (service_reports_blocked (λ _, 0) Garage.serviced "g1" None
           Garage.brake_interval (Aware Scenario.day6) Hin eq_refl eq_refl
           eq_refl).
Defined.

(** ** Components *)

Section Components.

Variable fromisoformat : string → option datetime.

(** The aggregation reads the maintenance records only. *)
Lemma analyze_gear_usage_with_components (self : Monitor)
    (m : gmap string Component) (swaps : list ComponentSwap)
    (activities : list Activity) :
  analyze_gear_usage fromisoformat (with_components self m swaps) activities
  = analyze_gear_usage fromisoformat self activities.
Proof.
  unfold analyze_gear_usage. generalize (∅ : gmap string GearUsage).
  induction activities as [|a l IH]; intros usage; [reflexivity|].
  cbn [usage_loop].
  change (usage_step fromisoformat (with_components self m swaps) usage a)
    with (usage_step fromisoformat self usage a).
  destruct (usage_step fromisoformat self usage a); [|reflexivity].
  cbn [mbind option_bind]. apply IH.
Qed.

(** X18. What [swap_component] can touch, whatever it returns: the
    maintenance records and the service intervals stay as they are; no
    component is added or dropped, and every component other than the
    old and the new one is unchanged; the swap ledger keeps its entries
    in place and grows by at most two entries, all of the gear. *)
Theorem swap_component_frame (self : Monitor) (now_removed now_installed : Z)
    (activities : list Activity) (gear_id old_component_id : string)
    (new_component_id : option string) (action : string)
    (notes : option string) :
  let result :=
    swap_component fromisoformat self now_removed now_installed activities
      gear_id old_component_id new_component_id action notes in
  maintenance_records (snd result) = maintenance_records self
  ∧ service_intervals (snd result) = service_intervals self
  ∧ dom (components (snd result)) = dom (components self)
  ∧ (∀ id, id ≠ old_component_id → new_component_id ≠ Some id →
       components (snd result) !! id = components self !! id)
  ∧ ∃ added,
      component_swaps (snd result) = component_swaps self ++ added
      ∧ (length added ≤ 2)%nat
      ∧ Forall (λ swap, cs_gear_id swap = gear_id) added.
Proof.
  cbv zeta. unfold swap_component.
  destruct (components self !! old_component_id) as [old|] eqn:Hold.
  2: { repeat split; try reflexivity. exists []. rewrite app_nil_r.
       repeat split; [cbn; lia | constructor]. }
  destruct (negb (String.eqb (c_gear_id old) gear_id)).
  { repeat split; try reflexivity. exists []. rewrite app_nil_r.
    repeat split; [cbn; lia | constructor]. }
  destruct (current_mileage_of fromisoformat self activities gear_id)
    as [km|].
  2: { repeat split; try reflexivity. exists []. rewrite app_nil_r.
       repeat split; [cbn; lia | constructor]. }
  fold (removed old action km).
  fold (removal now_removed gear_id old_component_id action km notes).
  set (self1 := with_components self _ _).
  assert (Hdom1 : dom (components self1) = dom (components self)).
  { subst self1. cbn [components with_components].
    apply dom_insert_lookup_L. eauto. }
  assert (H1 : maintenance_records self1 = maintenance_records self
               ∧ service_intervals self1 = service_intervals self
               ∧ dom (components self1) = dom (components self)
               ∧ (∀ id, id ≠ old_component_id →
                    new_component_id ≠ Some id →
                    components self1 !! id = components self !! id)
               ∧ ∃ added,
                   component_swaps self1 = component_swaps self ++ added
                   ∧ (length added ≤ 2)%nat
                   ∧ Forall (λ swap, cs_gear_id swap = gear_id) added).
  { repeat split; try reflexivity; [exact Hdom1 | |].
    - intros id Hid _. subst self1. cbn [components with_components].
      now apply lookup_insert_ne.
    - eexists. split; [reflexivity|]. split; [cbn; lia|].
      repeat constructor. }
  destruct new_component_id as [[|ch new_id]|]; cbn [truthy snd];
    [exact H1 | | exact H1].
  destruct (components self1 !! String ch new_id) as [new|] eqn:Hnew;
    [|exact H1].
  destruct (negb (bool_decide (c_status new = in_inventory)));
    [exact H1|].
  cbn [snd maintenance_records service_intervals components
       component_swaps with_components].
  repeat split; try reflexivity.
  - rewrite <- Hdom1. apply dom_insert_lookup_L. eauto.
  - intros id Hid Hnid. rewrite lookup_insert_ne by congruence.
    subst self1. cbn [components with_components].
    now apply lookup_insert_ne.
  - subst self1. cbn [component_swaps with_components].
    rewrite <- app_assoc. eexists. split; [reflexivity|].
    split; [cbn; lia|]. repeat constructor.
Qed.

(** The id of a component is made of its lowered brand and model and of
    the second in which it is added. *)
Lemma add_component_id (self : Monitor) (time_s now : Z)
    (activities : list Activity) (name brand model gear_id : string)
    (purchase_date : option datetime) (purchase_price : option Q)
    (notes : option string) (id : string) :
  fst (add_component fromisoformat self time_s now activities name brand
         model gear_id purchase_date purchase_price notes) = Some id →
  id = String.append (lower brand)
         (String.append "_"
            (String.append (lower model)
               (String.append "_" (pretty time_s))))
  ∧ ∃ km,
      current_mileage_of fromisoformat self activities gear_id = Some km
      ∧ components
          (snd (add_component fromisoformat self time_s now activities name
                  brand model gear_id purchase_date purchase_price notes))
        = <[id := {| c_id := id;
                     c_name := name;
                     c_brand := brand;
                     c_model := model;
                     c_installation_date := Aware now;
                     c_gear_id := gear_id;
                     c_status := active;
                     c_notes := notes;
                     c_purchase_date := purchase_date;
                     c_purchase_price := purchase_price;
                     c_mileage_at_installation := km;
                     c_current_mileage := km |}]> (components self)
      ∧ component_swaps
          (snd (add_component fromisoformat self time_s now activities name
                  brand model gear_id purchase_date purchase_price notes))
        = component_swaps self
          ++ [{| cs_date := Aware now;
                 cs_gear_id := gear_id;
                 cs_component_id := id;
                 cs_old_component_id := None;
                 cs_action := "install";
                 cs_mileage := km;
                 cs_notes := Some "Initial installation" |}].
Proof.
  unfold add_component.
  destruct (current_mileage_of fromisoformat self activities gear_id)
    as [km|]; [|discriminate].
  cbn [fst snd]. intros [= <-]. split; [reflexivity|].
  exists km. repeat split; reflexivity.
Qed.

(** X19. Two components of the same brand and model, up to case, added
    within the same second get the same id: the second addition replaces
    the first component, which is lost, while the ledger keeps an
    installation entry for each under that one id. *)
Theorem add_component_same_second (self : Monitor) (time_s now1 now2 : Z)
    (activities1 activities2 : list Activity)
    (name1 brand1 model1 gear1 name2 brand2 model2 gear2 : string)
    (purchase_date1 purchase_date2 : option datetime)
    (purchase_price1 purchase_price2 : option Q)
    (notes1 notes2 : option string) (id1 id2 : string) :
  lower brand1 = lower brand2 →
  lower model1 = lower model2 →
  let first :=
    add_component fromisoformat self time_s now1 activities1 name1 brand1
      model1 gear1 purchase_date1 purchase_price1 notes1 in
  let second :=
    add_component fromisoformat (snd first) time_s now2 activities2 name2
      brand2 model2 gear2 purchase_date2 purchase_price2 notes2 in
  fst first = Some id1 →
  fst second = Some id2 →
  id2 = id1
  ∧ dom (components (snd second)) = {[ id1 ]} ∪ dom (components self)
  ∧ (∃ component,
       components (snd second) !! id1 = Some component
       ∧ c_name component = name2
       ∧ c_brand component = brand2
       ∧ c_model component = model2
       ∧ c_gear_id component = gear2
       ∧ c_installation_date component = Aware now2)
  ∧ ∃ swap1 swap2,
      component_swaps (snd second)
      = component_swaps self ++ [swap1; swap2]
      ∧ cs_component_id swap1 = id1 ∧ cs_gear_id swap1 = gear1
      ∧ cs_component_id swap2 = id1 ∧ cs_gear_id swap2 = gear2.
Proof.
  intros Hb Hm first second H1 H2. subst first second.
  destruct (add_component_id _ _ _ _ _ _ _ _ _ _ _ _ H1)
    as (E1 & km1 & _ & Hc1 & Hs1).
  destruct (add_component_id _ _ _ _ _ _ _ _ _ _ _ _ H2)
    as (E2 & km2 & _ & Hc2 & Hs2).
  assert (E : id2 = id1) by (rewrite E1, E2, Hb, Hm; reflexivity).
  clear E2. subst id2. split; [reflexivity|].
  rewrite Hc2, Hs2, Hc1, Hs1. rewrite insert_insert_eq.
  split; [apply dom_insert_L|]. split.
  - eexists. rewrite lookup_insert_eq. split; [reflexivity|].
    repeat split; reflexivity.
  - rewrite <- app_assoc. do 2 eexists. split; [reflexivity|].
    repeat split; reflexivity.
Qed.

Lemma refreshed_usage (self : Monitor) (activities : list Activity)
    (usage : gmap string GearUsage) (component : Component) :
  analyze_gear_usage fromisoformat self activities = Some usage →
  (if bool_decide (c_status component = active) then
     match usage !! c_gear_id component with
     | Some u => with_current_mileage component (gu_total_distance_km u)
     | None => component
     end
   else component)
  = if refreshed activities component
    then with_current_mileage component
           (gear_distance_km (c_gear_id component) activities)
    else component.
Proof.
  intros H. unfold refreshed, gear_distance_km.
  destruct (bool_decide (c_status component = active)); [|reflexivity].
  cbn [andb].
  pose proof (usage_entry fromisoformat _ _ _ (c_gear_id component) H) as He.
  destruct (c_gear_id component) as [|c g] eqn:Eg.
  - cbn [truthy] in He |- *. now rewrite He.
  - change (truthy (Some (String c g))) with (Some (String c g)) in He |- *.
    cbv beta iota in He |- *.
    destruct (rides_of (String c g) activities) as [|r rs].
    + now rewrite He.
    + destruct He as (u & -> & _ & _ & _ & Hk & _). now rewrite Hk.
Qed.

(** X20. [_update_gear_usage] rewrites one field: when the aggregation
    of the cache returns, every active component whose bike has an
    activity in the cache gets the kilometres of that bike as its
    current mileage, and nothing else changes; a component that is not
    active, or whose bike has no activity, keeps its mileage.  When the
    aggregation raises, the monitor is left as it was.  Refreshing twice
    over the same cache is refreshing once. *)
Theorem update_gear_usage_mileage (self : Monitor)
    (activities_cache : list Activity) :
  let self' := _update_gear_usage fromisoformat self activities_cache in
  match analyze_gear_usage fromisoformat self activities_cache with
  | None => self' = self
  | Some _ =>
      self'
      = with_components self
          ((λ component,
              if refreshed activities_cache component
              then with_current_mileage component
                     (gear_distance_km (c_gear_id component)
                        activities_cache)
              else component) <$> components self)
          (component_swaps self)
  end
  ∧ _update_gear_usage fromisoformat self' activities_cache = self'.
Proof.
  cbv zeta.
  assert (H : match analyze_gear_usage fromisoformat self activities_cache
              with
              | None =>
                  _update_gear_usage fromisoformat self activities_cache
                  = self
              | Some _ =>
                  _update_gear_usage fromisoformat self activities_cache
                  = with_components self
                      ((λ component,
                          if refreshed activities_cache component
                          then with_current_mileage component
                                 (gear_distance_km (c_gear_id component)
                                    activities_cache)
                          else component) <$> components self)
                      (component_swaps self)
              end).
  { unfold _update_gear_usage.
    destruct (analyze_gear_usage fromisoformat self activities_cache)
      as [usage|] eqn:E; [|reflexivity].
    f_equal. apply map_fmap_ext. intros id c _.
    exact (refreshed_usage self activities_cache usage c E). }
  split; [exact H|].
  destruct (analyze_gear_usage fromisoformat self activities_cache)
    as [usage|] eqn:E.
  - rewrite H. unfold _update_gear_usage at 1.
    rewrite analyze_gear_usage_with_components, E.
    cbn [components component_swaps with_components].
    unfold with_components. cbn [maintenance_records service_intervals].
    f_equal. rewrite <- map_fmap_compose. apply map_fmap_ext.
    intros id c _. cbn [compose].
    set (c' := if refreshed activities_cache c then _ else c).
    etransitivity;
      [exact (refreshed_usage self activities_cache usage c' E)|].
    subst c'. destruct (refreshed activities_cache c) eqn:R;
      [|now rewrite R].
    change (refreshed activities_cache
              (with_current_mileage c
                 (gear_distance_km (c_gear_id c) activities_cache)))
      with (refreshed activities_cache c).
    now rewrite R.
  - rewrite H. unfold _update_gear_usage. now rewrite E.
Qed.

(** X21. The two consistency conditions of the component store, each
    component stored under its own id and each ledger entry naming a
    stored component, are kept by [add_component], by [swap_component]
    and by [_update_gear_usage]; the empty monitor has them. *)
Theorem component_store_consistent (self : Monitor) :
  ids_consistent self →
  ledger_known self →
  (∀ time_s now activities name brand model gear_id purchase_date
     purchase_price notes,
     let self' :=
       snd (add_component fromisoformat self time_s now activities name
              brand model gear_id purchase_date purchase_price notes) in
     ids_consistent self' ∧ ledger_known self')
  ∧ (∀ now_removed now_installed activities gear_id old_component_id
       new_component_id action notes,
       let self' :=
         snd (swap_component fromisoformat self now_removed now_installed
                activities gear_id old_component_id new_component_id
                action notes) in
       ids_consistent self' ∧ ledger_known self')
  ∧ (∀ activities_cache,
       let self' := _update_gear_usage fromisoformat self activities_cache in
       ids_consistent self' ∧ ledger_known self').
Proof.
  intros Hid Hled. split; [|split].
  - intros. subst self'. unfold add_component.
    destruct (current_mileage_of fromisoformat self activities gear_id)
      as [km|]; [|now split].
    cbn [snd]. split.
    + intros id c. cbn [components with_components].
      destruct (decide (id = String.append (lower brand)
                  (String.append "_"
                     (String.append (lower model)
                        (String.append "_" (pretty time_s)))))) as [->|Hne].
      * rewrite lookup_insert_eq. now intros [= <-].
      * rewrite lookup_insert_ne by congruence. apply Hid.
    + intros s. cbn [components component_swaps with_components].
      rewrite in_app_iff. intros [Hs|[<-|[]]].
      * apply Hled in Hs.
        destruct (decide (cs_component_id s
                          = String.append (lower brand)
                              (String.append "_"
                                 (String.append (lower model)
                                    (String.append "_"
                                       (pretty time_s)))))) as [->|Hne].
        -- rewrite lookup_insert_eq. eauto.
        -- now rewrite lookup_insert_ne by congruence.
      * cbn [cs_component_id]. rewrite lookup_insert_eq. eauto.
  - intros. subst self'. unfold swap_component.
    destruct (components self !! old_component_id) as [old|] eqn:Hold;
      [|now split].
    destruct (negb (String.eqb (c_gear_id old) gear_id)); [now split|].
    destruct (current_mileage_of fromisoformat self activities gear_id)
      as [km|]; [|now split].
    fold (removed old action km).
    fold (removal now_removed gear_id old_component_id action km notes).
    set (self1 := with_components self _ _).
    assert (Hid1 : ids_consistent self1).
    { intros id c. subst self1. cbn [components with_components].
      destruct (decide (id = old_component_id)) as [->|Hne].
      - rewrite lookup_insert_eq. intros [= <-]. cbn [removed c_id].
        now apply Hid.
      - rewrite lookup_insert_ne by congruence. apply Hid. }
    assert (Hled1 : ledger_known self1).
    { intros s. subst self1.
      cbn [components component_swaps with_components].
      rewrite in_app_iff. intros [Hs|[<-|[]]].
      - apply Hled in Hs.
        destruct (decide (cs_component_id s = old_component_id))
          as [->|Hne].
        + rewrite lookup_insert_eq. eauto.
        + now rewrite lookup_insert_ne by congruence.
      - cbn [removal cs_component_id]. rewrite lookup_insert_eq. eauto. }
    destruct (truthy new_component_id) as [new_id|]; [|now split].
    destruct (components self1 !! new_id) as [new|] eqn:Hnew; [|now split].
    destruct (negb (bool_decide (c_status new = in_inventory)));
      [now split|].
    cbn [snd]. split.
    + intros id c. cbn [components with_components].
      destruct (decide (id = new_id)) as [->|Hne].
      * rewrite lookup_insert_eq. intros [= <-]. cbn [c_id].
        now apply Hid1.
      * rewrite lookup_insert_ne by congruence. apply Hid1.
    + intros s. cbn [components component_swaps with_components].
      rewrite in_app_iff. intros [Hs|[<-|[]]].
      * apply Hled1 in Hs.
        destruct (decide (cs_component_id s = new_id)) as [->|Hne].
        -- rewrite lookup_insert_eq. eauto.
        -- now rewrite lookup_insert_ne by congruence.
      * cbn [cs_component_id]. rewrite lookup_insert_eq. eauto.
  - intros. subst self'. unfold _update_gear_usage.
    destruct (analyze_gear_usage fromisoformat self activities_cache)
      as [usage|]; [|now split].
    split.
    + intros id c. cbn [components with_components].
      rewrite lookup_fmap.
      destruct (components self !! id) as [c0|] eqn:E; [|discriminate].
      cbn [fmap option_fmap option_map]. intros [= <-].
      apply Hid in E.
      destruct (bool_decide (c_status c0 = active)); [|exact E].
      destruct (usage !! c_gear_id c0); exact E.
    + intros s. cbn [components component_swaps with_components].
      intros Hs. apply Hled in Hs. rewrite lookup_fmap.
      destruct Hs as [c0 ->]. cbn. eauto.
Qed.

End Components.

(** A chain and a spare chain, entered in the same second. *)
Lemma add_component_same_second_witness :
  let first :=
    add_component IsoBasic.fromisoformat Scenario.empty_monitor 1704535200
      Scenario.day6 [Scenario.ride1] "Chain" "KMC" "X11" "g1" None None
      None in
  let second :=
    add_component IsoBasic.fromisoformat (snd first) 1704535200
      Scenario.day6 [Scenario.ride1] "Spare chain" "kmc" "x11" "g2" None
      None None in
  lower "KMC" = lower "kmc"
  ∧ lower "X11" = lower "x11"
  ∧ fst first = Some "kmc_x11_1704535200"
  ∧ fst second = Some "kmc_x11_1704535200"
  ∧ dom (components (snd second))
    = {[ "kmc_x11_1704535200" ]} ∪ dom (components Scenario.empty_monitor)
  ∧ (∃ component,
       components (snd second) !! "kmc_x11_1704535200" = Some component
       ∧ c_name component = "Spare chain"
       ∧ c_brand component = "kmc"
       ∧ c_model component = "x11"
       ∧ c_gear_id component = "g2"
       ∧ c_installation_date component = Aware Scenario.day6)
  ∧ ∃ swap1 swap2,
      component_swaps (snd second)
      = component_swaps Scenario.empty_monitor ++ [swap1; swap2]
      ∧ cs_component_id swap1 = "kmc_x11_1704535200"
      ∧ cs_gear_id swap1 = "g1"
      ∧ cs_component_id swap2 = "kmc_x11_1704535200"
      ∧ cs_gear_id swap2 = "g2".
Proof.
  cbv zeta.
  assert (Hb : lower "KMC" = lower "kmc") by reflexivity.
  assert (Hm : lower "X11" = lower "x11") by reflexivity.
  assert (H1 : fst (add_component IsoBasic.fromisoformat
                      Scenario.empty_monitor 1704535200 Scenario.day6
                      [Scenario.ride1] "Chain" "KMC" "X11" "g1" None None
                      None)
               = Some "kmc_x11_1704535200")
    by (vm_compute; reflexivity).
  assert (H2 : fst (add_component IsoBasic.fromisoformat
                      (snd (add_component IsoBasic.fromisoformat
                              Scenario.empty_monitor 1704535200
                              Scenario.day6 [Scenario.ride1] "Chain" "KMC"
                              "X11" "g1" None None None))
                      1704535200 Scenario.day6 [Scenario.ride1]
                      "Spare chain" "kmc" "x11" "g2" None None None)
               = Some "kmc_x11_1704535200")
    by (vm_compute; reflexivity).
  split; [exact Hb|]. split; [exact Hm|]. split; [exact H1|].
  split; [exact H2|].
  exact (proj2 (add_component_same_second IsoBasic.fromisoformat
                  Scenario.empty_monitor 1704535200 Scenario.day6
                  Scenario.day6 [Scenario.ride1] [Scenario.ride1] "Chain"
                  "KMC" "X11" "g1" "Spare chain" "kmc" "x11" "g2" None None
                  None None None None "kmc_x11_1704535200"
                  "kmc_x11_1704535200" Hb Hm H1 H2)).
Defined.

(** The workshop, three chains and an empty ledger, is consistent. *)
Lemma component_store_consistent_witness :
  ids_consistent Scenario.workshop
  ∧ ledger_known Scenario.workshop
  ∧ (∀ time_s now activities name brand model gear_id purchase_date
       purchase_price notes,
       let self' :=
         snd (add_component IsoBasic.fromisoformat Scenario.workshop time_s
                now activities name brand model gear_id purchase_date
                purchase_price notes) in
       ids_consistent self' ∧ ledger_known self')
  ∧ (∀ now_removed now_installed activities gear_id old_component_id
       new_component_id action notes,
       let self' :=
         snd (swap_component IsoBasic.fromisoformat Scenario.workshop
                now_removed now_installed activities gear_id
                old_component_id new_component_id action notes) in
       ids_consistent self' ∧ ledger_known self')
  ∧ (∀ activities_cache,
       let self' :=
         _update_gear_usage IsoBasic.fromisoformat Scenario.workshop
           activities_cache in
       ids_consistent self' ∧ ledger_known self').
Proof.
  assert (H1 : ids_consistent Scenario.workshop).
  { change (map_Forall (λ id component, c_id component = id)
              (components Scenario.workshop)).
    apply (bool_decide_unpack _). vm_compute. reflexivity. }
  assert (H2 : ledger_known Scenario.workshop) by (intros s []).
  split; [exact H1|]. split; [exact H2|].
  exact (component_store_consistent IsoBasic.fromisoformat
           Scenario.workshop H1 H2).
Defined.

(** ** Fetching activities and choosing a maintenance type *)

Lemma get_all_activities_from_pages (fetch : Z → option (list Activity))
    (n : nat) :
  ∀ (p fuel : nat) (acc : list Activity),
    (∀ k, (k < n)%nat → ends_feed (fetch (Z.of_nat (p + k) + 1)) = false) →
    ends_feed (fetch (Z.of_nat (p + n) + 1)) = true →
    (n < fuel)%nat →
    get_all_activities_from fetch fuel (Z.of_nat p + 1) acc
    = Some (acc
            ++ concat (map (λ k, default [] (fetch (Z.of_nat k + 1)))
                         (seq p n))).
Proof.
  induction n as [|n IH]; intros p fuel acc Hpages Hend Hfuel.
  - destruct fuel as [|fuel]; [lia|]. cbn [get_all_activities_from].
    rewrite Nat.add_0_r in Hend.
    destruct (fetch (Z.of_nat p + 1)) as [[|a l]|]; try discriminate;
      cbn; now rewrite app_nil_r.
  - destruct fuel as [|fuel]; [lia|]. cbn [get_all_activities_from].
    pose proof (Hpages 0%nat ltac:(lia)) as H0. rewrite Nat.add_0_r in H0.
    destruct (fetch (Z.of_nat p + 1)) as [[|a l]|] eqn:E; try discriminate.
    replace (Z.of_nat p + 1 + 1) with (Z.of_nat (S p) + 1) by lia.
    rewrite (IH (S p) fuel).
    + cbn [seq map concat]. rewrite E. cbn [default].
      now rewrite <- app_assoc.
    + intros k Hk. replace (S p + k)%nat with (p + S k)%nat by lia.
      apply Hpages. lia.
    + now replace (S p + n)%nat with (p + S n)%nat by lia.
    + lia.
Qed.

(** X22. [get_all_activities] returns the activities of the pages before
    the first one that is empty or fails, in page order: when pages 1 to
    [n] each hold an activity and page [n + 1] is empty, gets no response
    or raises, the loop ends after [n + 1] turns with the first [n]
    pages.  A failure is not told apart from the end of the feed. *)
Theorem get_all_activities_pages (fetch : Z → option (list Activity))
    (n fuel : nat) :
  (∀ k, (k < n)%nat → ends_feed (fetch (Z.of_nat k + 1)) = false) →
  ends_feed (fetch (Z.of_nat n + 1)) = true →
  (n < fuel)%nat →
  get_all_activities fetch fuel = Some (first_pages fetch n).
Proof.
  intros Hpages Hend Hfuel. unfold get_all_activities, first_pages.
  exact (get_all_activities_from_pages fetch n 0 fuel [] Hpages Hend Hfuel).
Qed.

Lemma get_all_activities_pages_witness :
  (∀ k, (k < 2)%nat →
     ends_feed (Garage.two_pages (Z.of_nat k + 1)) = false)
  ∧ ends_feed (Garage.two_pages (Z.of_nat 2 + 1)) = true
  ∧ get_all_activities Garage.two_pages 3
    = Some [Scenario.ride1; Scenario.ride3; Scenario.ride5].
Proof.
  assert (H : ∀ k, (k < 2)%nat →
                ends_feed (Garage.two_pages (Z.of_nat k + 1)) = false).
  { intros [|[|k]] Hk; [reflexivity | reflexivity | lia]. }
  split; [exact H|]. split; [reflexivity|].
  exact (get_all_activities_pages Garage.two_pages 2 3 H eq_refl
           ltac:(lia)).
Defined.

(** X23. The menu numbers of the maintenance types: every type has one
    number, between 1 and 3, that [get_type_by_number] maps to it; every
    other number maps to no type; and every type has a description, so
    that looking one up never fails. *)
Theorem get_type_by_number_menu :
  (∀ t, ∃ number,
     1 ≤ number ≤ 3
     ∧ get_type_by_number number = Some t
     ∧ ∀ other, get_type_by_number other = Some t → other = number)
  ∧ (∀ number, get_type_by_number number = None ↔ number < 1 ∨ 3 < number)
  ∧ (∀ t, ∃ description,
       type_description t = Some description
       ∧ In (t, description) get_all_types).
Proof.
  assert (Hcases : ∀ number,
            (number < 1 ∨ 3 < number) ∧ get_type_by_number number = None
            ∨ number = 1 ∧ get_type_by_number number = Some WASH
            ∨ number = 2 ∧ get_type_by_number number = Some TIRE_PRESSURE
            ∨ number = 3 ∧ get_type_by_number number = Some LUBE).
  { intros number. unfold get_type_by_number. cbn [length map get_all_types].
    destruct (Z.leb_spec 1 number); [|left; split; [lia | reflexivity]].
    destruct (Z.leb_spec number (Z.of_nat 3));
      [|left; split; [lia | reflexivity]].
    assert (number = 1 ∨ number = 2 ∨ number = 3) as [-> | [-> | ->]] by lia;
      cbn; auto 10. }
  split; [|split].
  - intros t.
    exists (match t with WASH => 1 | TIRE_PRESSURE => 2 | LUBE => 3 end).
    split; [destruct t; lia|]. split; [now destruct t|].
    intros other Ho.
    destruct (Hcases other) as [[_ H] | [[-> H] | [[-> H] | [-> H]]]];
      rewrite H in Ho; destruct t; congruence.
  - intros number. split.
    + intros Hn.
      destruct (Hcases number) as [[H _]|[[_ H]|[[_ H]|[_ H]]]];
        [exact H | congruence..].
    + intros Hr.
      destruct (Hcases number) as [[_ H] | [[-> _] | [[-> _] | [-> _]]]];
        [exact H | lia..].
  - intros []; eexists; (split; [reflexivity|]); cbn; auto.
Qed.

(** ** A swap that succeeds, and a display that succeeds *)

(** X24. A swap with a replacement that goes through: when the old
    component is stored for the gear, the new one is another stored
    component that is in inventory, and the aggregation of the fetched
    activities returns, [swap_component] returns [True]; the old
    component is retired (action [retire]) or put in inventory (any
    other action) and the new one becomes active on the gear, both
    stamped with the kilometres of the gear; the ledger gets the removal
    and then the installation, which names the old component. *)
Theorem swap_component_replaces (fromisoformat : string → option datetime)
    (self : Monitor) (now_removed now_installed : Z)
    (activities : list Activity)
    (gear_id old_component_id new_component_id action : string)
    (notes : option string) (old_component new_component : Component) :
  components self !! old_component_id = Some old_component →
  c_gear_id old_component = gear_id →
  is_Some (analyze_gear_usage fromisoformat self activities) →
  new_component_id ≠ EmptyString →
  new_component_id ≠ old_component_id →
  components self !! new_component_id = Some new_component →
  c_status new_component = in_inventory →
  let km := gear_distance_km gear_id activities in
  swap_component fromisoformat self now_removed now_installed activities
    gear_id old_component_id (Some new_component_id) action notes
  = (true,
     with_components self
       (<[new_component_id := installed new_component now_installed gear_id
                                km]>
          (<[old_component_id := removed old_component action km]>
             (components self)))
       (component_swaps self
        ++ [removal now_removed gear_id old_component_id action km notes;
            installation now_installed gear_id new_component_id
              old_component_id km notes])).
Proof.
  intros Hold <- [usage Hu] Hne Hdiff Hnew Hst km.
  unfold swap_component. rewrite Hold, String.eqb_refl.
  cbn [negb]. rewrite current_mileage_of_km, Hu. cbn [mbind option_bind].
  fold km. destruct new_component_id as [|ch new_id]; [congruence|].
  cbn [truthy components component_swaps with_components].
  rewrite lookup_insert_ne by congruence. rewrite Hnew, Hst.
  rewrite bool_decide_eq_true_2 by reflexivity. cbn [negb].
  unfold installed, removed, removal, installation, with_components.
  cbn [maintenance_records service_intervals]. rewrite <- app_assoc.
  reflexivity.
Qed.

(** In the workshop the chain in use is swapped for the one in
    inventory. *)
Lemma swap_component_replaces_witness :
  let km := gear_distance_km "g1" [Scenario.ride1; Scenario.ride3] in
  Qeq km 30%Q
  ∧ swap_component IsoBasic.fromisoformat Scenario.workshop Scenario.day10
      Scenario.day10 [Scenario.ride1; Scenario.ride3] "g1" "chain_a"
      (Some "chain_c") "remove" None
    = (true,
       with_components Scenario.workshop
         (<["chain_c" := installed (Scenario.component "chain_c"
                                      in_inventory 5)
                           Scenario.day10 "g1" km]>
            (<["chain_a" := removed (Scenario.component "chain_a" active 0)
                              "remove" km]>
               (components Scenario.workshop)))
         (component_swaps Scenario.workshop
          ++ [removal Scenario.day10 "g1" "chain_a" "remove" km None;
              installation Scenario.day10 "g1" "chain_c" "chain_a" km
                None])).
Proof.
  cbv zeta. split; [vm_compute; reflexivity|].
  apply (swap_component_replaces IsoBasic.fromisoformat Scenario.workshop
           Scenario.day10 Scenario.day10 [Scenario.ride1; Scenario.ride3]
           "g1" "chain_a" "chain_c" "remove" None
           (Scenario.component "chain_a" active 0)
           (Scenario.component "chain_c" in_inventory 5)).
  - vm_compute. reflexivity.
  - reflexivity.
  - vm_compute. eauto.
  - discriminate.
  - discriminate.
  - vm_compute. reflexivity.
  - reflexivity.
Defined.

Lemma filter_none {A : Type} (f : A → bool) (l : list A) :
  (∀ x, In x l → f x = false) → List.filter f l = [].
Proof.
  induction l as [|x l IH]; intros H; [reflexivity|]. cbn [List.filter].
  rewrite (H x (or_introl eq_refl)). apply IH. intros y Hy. apply H.
  now right.
Qed.

Section DisplayOneType.

Variable records_lt :
  list MaintenanceRecord → list MaintenanceRecord → option bool.

(** X25. [display_maintained_items] on a gear whose stored records all
    have one type, with timezone-aware dates: it shows that one type
    with the records in ascending order of date, the order of
    [get_maintenance_history]. *)
Theorem display_maintained_items_one_type (self : Monitor)
    (gear_id : string) (ty : MaintenanceType) :
  stored self gear_id ≠ [] →
  (∀ r, In r (stored self gear_id) →
        mr_maintenance_type r = ty ∧ ∃ t, mr_date r = Aware t) →
  ∃ history,
    get_maintenance_history self gear_id None = Some history
    ∧ display_maintained_items records_lt self gear_id
      = Some [(ty, history)].
Proof.
  intros Hne Hall.
  destruct (sorted_by_date_aware mr_date (stored self gear_id))
    as (history & Hh & _); [intros r Hr; now apply Hall|].
  exists history. split.
  { unfold get_maintenance_history. cbn [truthy]. exact Hh. }
  assert (Hitems : get_maintained_items self gear_id
                   = {[ ty := stored self gear_id ]}).
  { apply map_eq. intros t. rewrite get_maintained_items_lookup.
    unfold of_type. destruct (decide (t = ty)) as [->|Hd].
    - rewrite lookup_singleton_eq.
      assert (E : List.filter
                    (λ r, bool_decide (mr_maintenance_type r = ty))
                    (stored self gear_id) = stored self gear_id).
      { apply forallb_filter_id, forallb_forall. intros r Hr.
        apply bool_decide_eq_true. now apply Hall. }
      rewrite E. destruct (stored self gear_id); [congruence|reflexivity].
    - rewrite lookup_singleton_ne by congruence.
      assert (E : List.filter
                    (λ r, bool_decide (mr_maintenance_type r = t))
                    (stored self gear_id) = []).
      { apply filter_none. intros r Hr. apply bool_decide_eq_false_2.
        destruct (Hall r Hr). congruence. }
      now rewrite E. }
  unfold display_maintained_items. rewrite Hitems, map_to_list_singleton.
  cbn [py_sorted py_insert mbind option_bind mapM snd fst].
  rewrite Hh. reflexivity.
Qed.

End DisplayOneType.

Lemma display_maintained_items_one_type_witness :
  stored Scenario.washed_twice "g1" ≠ []
  ∧ display_maintained_items (λ _ _, Some false) Scenario.washed_twice "g1"
    = Some [(WASH, [Scenario.first_wash; Scenario.second_wash])].
Proof.
  assert (Hne : stored Scenario.washed_twice "g1" ≠ [])
    by (vm_compute; discriminate).
  assert (Hall : ∀ r, In r (stored Scenario.washed_twice "g1") →
                   mr_maintenance_type r = WASH
                   ∧ ∃ t, mr_date r = Aware t).
  { intros r Hr. vm_compute in Hr.
    destruct Hr as [<- | [<- | []]]; (split; [reflexivity|]); eexists;
      reflexivity. }
  split; [exact Hne|].
  destruct (display_maintained_items_one_type (λ _ _, Some false)
              Scenario.washed_twice "g1" WASH Hne Hall)
    as (history & Hh & Hd).
  rewrite Hd. vm_compute in Hh. injection Hh as <-. reflexivity.
Defined.
